(** * git-copilot: the rule-based code review engine

    A shallow embedding of [src/agents/code-review-expert.js].  The file
    holds two implementations of the class [CodeReviewExpert]:

    - the first one (entry point [performReview]) analyses one file at a
      time with [analyzeFile] / [performStaticAnalysis] and aggregates with
      [generateReviewReport]; it is embedded in module [PerformReview];
    - the second one (entry point [reviewCode]) runs the four line scans
      [checkCommonIssues], [checkSecurity], [checkPerformance] and
      [checkMaintainability] from [analyzeFiles] and aggregates with
      [identifyIssues] / [getStats]; it is embedded in module [ReviewCode].

    JavaScript strings are sequences of code units; here a text is a
    [list ascii], i.e. texts whose code units are below 256.  Numbers that
    the code only uses as integers are [Z] (or [nat] for array indices). *)

From Stdlib Require Import List Ascii String ZArith Bool Arith Lia.
From Stdlib Require Import QArith Permutation Sorted DecimalString.
From Stdlib Require DecimalPos.
Import ListNotations.

Close Scope Q_scope.
Set Implicit Arguments.

(** ** JavaScript string primitives *)

Module Js.

Definition jsstr := list ascii.

Definition str (s : string) : jsstr := list_ascii_of_string s.

Definition newline : ascii := ascii_of_nat 10.

(** [s.split(d)] for a one-character separator: never empty. *)
Fixpoint split_on (d : ascii) (s : jsstr) : list jsstr :=
  match s with
  | [] => [[]]
  | c :: s' =>
      if Ascii.eqb c d then [] :: split_on d s'
      else match split_on d s' with
           | [] => [[c]]
           | l :: ls => (c :: l) :: ls
           end
  end.

Definition split_lines (s : jsstr) : list jsstr := split_on newline s.

(** White space and line terminators below code unit 256: TAB, LF, VT, FF,
    CR, SPACE and NBSP.  It is the set of [String.prototype.trim] and of
    the class [\s]. *)
Definition is_space (c : ascii) : bool :=
  let n := nat_of_ascii c in
  ((9 <=? n) && (n <=? 13)) || (n =? 32) || (n =? 160).

Fixpoint trimStart (s : jsstr) : jsstr :=
  match s with
  | c :: s' => if is_space c then trimStart s' else s
  | [] => []
  end.

Definition trimEnd (s : jsstr) : jsstr := rev' (trimStart (rev' s)).

Definition trim (s : jsstr) : jsstr := trimEnd (trimStart s).

Fixpoint startsWith (p s : jsstr) : bool :=
  match p, s with
  | [], _ => true
  | a :: p', b :: s' => Ascii.eqb a b && startsWith p' s'
  | _ :: _, [] => false
  end.

Definition endsWith (p s : jsstr) : bool := startsWith (rev' p) (rev' s).

Fixpoint includes (p s : jsstr) : bool :=
  startsWith p s ||
  match s with
  | [] => false
  | _ :: s' => includes p s'
  end.

(** [s.slice(0, n)] and [s.substring(0, n)] for [0 <= n]. *)
Definition slice0 (n : nat) (s : jsstr) : jsstr := firstn n s.

(** [a.findIndex(p)]: [-1] when no element satisfies [p]. *)
Fixpoint findIndex {A : Type} (p : A -> bool) (l : list A) : Z :=
  match l with
  | [] => -1
  | x :: l' =>
      if p x then 0
      else let r := findIndex p l' in if r <? 0 then -1 else r + 1
  end%Z.

(** Template-literal rendering of an integer. *)
Definition show_Z (z : Z) : jsstr := str (NilZero.string_of_int (Z.to_int z)).

(** [parseInt] on a run of decimal digits. *)
Definition digit_val (c : ascii) : Z := Z.of_nat (nat_of_ascii c) - 48.

Definition parseInt_digits (s : jsstr) : Z :=
  fold_left (fun acc c => 10 * acc + digit_val c)%Z s 0%Z.

(** [a.forEach((x, index) => ...)] as a left fold that threads the state
    the callback mutates. *)
Fixpoint forEach_from {A St : Type} (f : St -> nat -> A -> St)
         (i : nat) (l : list A) (st : St) : St :=
  match l with
  | [] => st
  | x :: l' => forEach_from f (S i) l' (f st i x)
  end.

Definition forEach {A St : Type} (f : St -> nat -> A -> St) (l : list A) (st : St) : St :=
  forEach_from f 0 l st.

(** [Array.prototype.sort(cmp)].  For a consistent comparator the language
    fixes the result: the stable sorted permutation.  Insertion of each
    element in front of the sorted rest, before the first element it does
    not exceed, computes it. *)
Fixpoint sort_insert {A : Type} (cmp : A -> A -> Z) (x : A) (l : list A) : list A :=
  match l with
  | [] => [x]
  | y :: l' => if (cmp x y <=? 0)%Z then x :: l else y :: sort_insert cmp x l'
  end.

Fixpoint sort {A : Type} (cmp : A -> A -> Z) (l : list A) : list A :=
  match l with
  | [] => []
  | x :: l' => sort_insert cmp x (sort cmp l')
  end.

End Js.

Import Js.

(** ** Regular expressions (the backtracking matcher of the language) *)

Module Regex.

Inductive regex : Type :=
| Eps
| Chr (c : ascii)
| Cls (p : ascii -> bool)
| Bol
| WordB
| Seq (r1 r2 : regex)
| Alt (r1 r2 : regex)
| Star (r : regex).

Definition Plus (r : regex) : regex := Seq r (Star r).
Definition Opt (r : regex) : regex := Alt r Eps.

Fixpoint LitL (s : jsstr) : regex :=
  match s with
  | [] => Eps
  | [c] => Chr c
  | c :: s' => Seq (Chr c) (LitL s')
  end.

Definition Lit (s : string) : regex := LitL (str s).

Fixpoint AltL (rs : list regex) : regex :=
  match rs with
  | [] => Cls (fun _ => false)
  | [r] => r
  | r :: rs' => Alt r (AltL rs')
  end.

Fixpoint SeqL (rs : list regex) : regex :=
  match rs with
  | [] => Eps
  | [r] => r
  | r :: rs' => Seq r (SeqL rs')
  end.

(** Character classes of the patterns. *)
Definition is_digit (c : ascii) : bool :=
  let n := nat_of_ascii c in (48 <=? n) && (n <=? 57).

Definition is_word (c : ascii) : bool :=
  let n := nat_of_ascii c in
  ((48 <=? n) && (n <=? 57)) || ((65 <=? n) && (n <=? 90)) ||
  ((97 <=? n) && (n <=? 122)) || (n =? 95).

Definition one_of (s : string) (c : ascii) : bool :=
  existsb (Ascii.eqb c) (str s).

Definition none_of (s : string) (c : ascii) : bool := negb (one_of s c).

Definition ws : regex := Cls is_space.
Definition word : regex := Cls is_word.
Definition digit : regex := Cls is_digit.

(** Canonicalisation under the [i] flag.  The literals of the patterns are
    ASCII, and no code unit above 127 canonicalises to an ASCII one. *)
Definition upcase (c : ascii) : ascii :=
  let n := nat_of_ascii c in
  if (97 <=? n) && (n <=? 122) then ascii_of_nat (n - 32) else c.

Definition chr_eq (ci : bool) (a x : ascii) : bool :=
  if ci then Ascii.eqb (upcase a) (upcase x) else Ascii.eqb a x.

(** A position in the subject: its index, the code unit before it and the
    text from it on. *)
Record cursor : Type := mkCur { pos : nat; prev : option ascii; rest : jsstr }.

Definition start_of (s : jsstr) : cursor := mkCur 0 None s.

Definition step_over (c : cursor) (x : ascii) (xs : jsstr) : cursor :=
  mkCur (S (pos c)) (Some x) xs.

Definition word_side (o : option ascii) : bool :=
  match o with Some x => is_word x | None => false end.

(** [rmatch ci r c k]: match [r] at [c], then continue with [k]; the first
    success in backtracking order.  A starred body that consumes nothing is
    rejected, as the language's repeat matcher does. *)
Fixpoint rmatch (ci : bool) (r : regex) (c : cursor)
         (k : cursor -> option cursor) {struct r} : option cursor :=
  match r with
  | Eps => k c
  | Chr a =>
      match rest c with
      | x :: xs => if chr_eq ci a x then k (step_over c x xs) else None
      | [] => None
      end
  | Cls p =>
      match rest c with
      | x :: xs => if p x then k (step_over c x xs) else None
      | [] => None
      end
  | Bol => if pos c =? 0 then k c else None
  | WordB =>
      if xorb (word_side (prev c)) (word_side (hd_error (rest c)))
      then k c else None
  | Seq r1 r2 => rmatch ci r1 c (fun c1 => rmatch ci r2 c1 k)
  | Alt r1 r2 =>
      match rmatch ci r1 c k with
      | Some e => Some e
      | None => rmatch ci r2 c k
      end
  | Star r1 =>
      (fix loop (fuel : nat) (c0 : cursor) {struct fuel} : option cursor :=
         match fuel with
         | O => k c0
         | S f =>
             match rmatch ci r1 c0
                     (fun c1 => if pos c1 =? pos c0 then None else loop f c1) with
             | Some e => Some e
             | None => k c0
             end
         end) (List.length (rest c)) c
  end.

(** The leftmost match at or after a position: its start and its end. *)
Fixpoint search_from (ci : bool) (r : regex) (p : nat) (pv : option ascii)
         (s : jsstr) : option (cursor * cursor) :=
  match rmatch ci r (mkCur p pv s) Some with
  | Some e => Some (mkCur p pv s, e)
  | None =>
      match s with
      | [] => None
      | x :: xs => search_from ci r (S p) (Some x) xs
      end
  end.

Definition search (ci : bool) (r : regex) (c : cursor) : option (cursor * cursor) :=
  search_from ci r (pos c) (prev c) (rest c).

Definition matched (m : cursor * cursor) : jsstr :=
  firstn (pos (snd m) - pos (fst m)) (rest (fst m)).

(** The cursor at index [i] of [s]; none past the end. *)
Fixpoint cursor_from (c : cursor) (i : nat) : option cursor :=
  match i with
  | O => Some c
  | S i' =>
      match rest c with
      | [] => None
      | x :: xs => cursor_from (step_over c x xs) i'
      end
  end.

Definition cursor_at (s : jsstr) (i : nat) : option cursor :=
  cursor_from (start_of s) i.

(** [re.test(s)] for a pattern without the [g] flag. *)
Definition test (ci : bool) (r : regex) (s : jsstr) : bool :=
  match search ci r (start_of s) with Some _ => true | None => false end.

(** [re.test(s)] for a pattern with the [g] flag: the search starts at
    [lastIndex]; the result comes with the new [lastIndex]. *)
Definition test_g (ci : bool) (r : regex) (lastIndex : nat) (s : jsstr) : bool * nat :=
  match cursor_at s lastIndex with
  | None => (false, 0)
  | Some c =>
      match search ci r c with
      | Some (_, e) => (true, pos e)
      | None => (false, 0)
      end
  end.

(** All the matches of a [g] pattern from a cursor on, as [s.matchAll(re)]
    and [s.match(re)] enumerate them: after an empty match the search moves
    one code unit on. *)
Fixpoint matches_from (fuel : nat) (ci : bool) (r : regex) (c : cursor)
  : list (cursor * cursor) :=
  match fuel with
  | O => []
  | S f =>
      match search ci r c with
      | None => []
      | Some (b, e) =>
          (b, e) ::
          (if pos e =? pos b then
             match rest e with
             | [] => []
             | x :: xs => matches_from f ci r (step_over e x xs)
             end
           else matches_from f ci r e)
      end
  end.

Definition matchAll (ci : bool) (r : regex) (s : jsstr) : list (cursor * cursor) :=
  matches_from (S (List.length s)) ci r (start_of s).

(** [s.match(re)] with the [g] flag: the matched texts ([null] is the empty
    list here; the callers only take its length or iterate when non-null). *)
Definition match_g (ci : bool) (r : regex) (s : jsstr) : list jsstr :=
  map matched (matchAll ci r s).

End Regex.

Import Regex.



Definition dquote : ascii := ascii_of_nat 34.
Definition squote : ascii := ascii_of_nat 39.

Definition is_quote (c : ascii) : bool := Ascii.eqb c dquote || Ascii.eqb c squote.

Definition count_char (a : ascii) (s : jsstr) : Z :=
  Z.of_nat (List.length (filter (Ascii.eqb a) s)).

(** Insertion-ordered objects used as maps ([acc[k] = ...] in a [reduce]). *)
Fixpoint assoc_update {K V : Type} (eqb : K -> K -> bool) (k : K)
         (f : option V -> V) (m : list (K * V)) : list (K * V) :=
  match m with
  | [] => [(k, f None)]
  | (k', v) :: m' =>
      if eqb k k' then (k', f (Some v)) :: m'
      else (k', v) :: assoc_update eqb k f m'
  end.

(** ** The second implementation: [reviewCode] and its line scans *)

Module ReviewCode.

(** The [type] strings ['warning'], ['info'], ['error']. *)
Inductive issue_type : Type := type_warning | type_info | type_error.

(** The [category] strings ['Debug Code'], ['TODO/FIXME'],
    ['Code Complexity'], ['Security'], ['Performance'], ['Maintainability']. *)
Inductive category : Type :=
| DebugCode | TodoFixme | CodeComplexity | Security | Performance | Maintainability.

(** The [severity] strings ['high'], ['medium'], ['low'], ['info']. *)
Inductive severity : Type := high | medium | low | info.

Record issue : Type := mkIssue {
  type : issue_type;
  category_of : category;
  line : Z;
  message : jsstr;
  severity_of : severity
}.

Definition category_eqb (a b : category) : bool :=
  match a, b with
  | DebugCode, DebugCode | TodoFixme, TodoFixme | CodeComplexity, CodeComplexity
  | Security, Security | Performance, Performance
  | Maintainability, Maintainability => true
  | _, _ => false
  end.

Definition severity_eqb (a b : severity) : bool :=
  match a, b with
  | high, high | medium, medium | low, low | info, info => true
  | _, _ => false
  end.

Definition push {A : Type} (l : list A) (x : A) : list A := l ++ [x].

(** *** checkCommonIssues *)

Definition debug_issue (index : nat) : issue :=
  mkIssue type_warning DebugCode (Z.of_nat index + 1)
          (str "Console.log statement found - consider removing for production") low.

Definition console_log_step (issues : list issue) (index : nat) (line : jsstr) : list issue :=
  if includes (str "console.log") line && negb (startsWith (str "//") (trim line))
  then push issues (debug_issue index) else issues.

Definition todo_issue (index : nat) : issue :=
  mkIssue type_info TodoFixme (Z.of_nat index + 1)
          (str "TODO or FIXME comment found") info.

Definition todo_step (issues : list issue) (index : nat) (line : jsstr) : list issue :=
  if includes (str "TODO") line || includes (str "FIXME") line
  then push issues (todo_issue index) else issues.

(** [/function\s+\w+|const\s+\w+\s*=\s*\(|^\s*\w+\s*:\s*function|class\s+\w+/g] *)
Definition functionRegex : regex :=
  AltL [ SeqL [Lit "function"; Plus ws; Plus word];
         SeqL [Lit "const"; Plus ws; Plus word; Star ws; Chr "="; Star ws; Chr "("];
         SeqL [Bol; Star ws; Plus word; Star ws; Chr ":"; Star ws; Lit "function"];
         SeqL [Lit "class"; Plus ws; Plus word] ].

(** The variables of the long-function scan: [currentFunction],
    [functionStartLine], [braceCount], the [lastIndex] of [functionRegex]
    (it carries the [g] flag and [test] is called on it line after line) and
    the [issues] array. *)
Record span_state : Type := mkSpan {
  currentFunction : option jsstr;
  functionStartLine : Z;
  braceCount : Z;
  lastIndex : nat;
  issues : list issue
}.

Definition truthy (o : option jsstr) : bool :=
  match o with
  | Some (_ :: _) => true
  | _ => false
  end.

Definition measured (index : nat) (st : span_state) : Z :=
  Z.of_nat index - functionStartLine st + 1.

Definition long_function_issue (index : nat) (st : span_state) : issue :=
  mkIssue type_warning CodeComplexity (functionStartLine st)
          (str "Function is too long (" ++ show_Z (measured index st) ++
           str " lines). Consider breaking it down.") medium.

(** The first [if] of the callback: the declaration test. *)
Definition declaration_step (st : span_state) (index : nat) (line : jsstr) : span_state :=
  let '(hit, li) := test_g false functionRegex (lastIndex st) line in
  if hit
  then mkSpan (Some (trim line)) (Z.of_nat index + 1) 0 li (issues st)
  else mkSpan (currentFunction st) (functionStartLine st) (braceCount st) li (issues st).

(** The second [if] of the callback: brace counting and the length test. *)
Definition brace_step (st : span_state) (index : nat) (line : jsstr) : span_state :=
  if truthy (currentFunction st) then
    let bc := (braceCount st + count_char "{" line - count_char "}" line)%Z in
    let st1 := mkSpan (currentFunction st) (functionStartLine st) bc
                      (lastIndex st) (issues st) in
    if (bc =? 0)%Z && (50 <? measured index st1)%Z
    then mkSpan None (functionStartLine st) bc (lastIndex st)
                (push (issues st) (long_function_issue index st1))
    else st1
  else st.

Definition long_function_step (st : span_state) (index : nat) (line : jsstr) : span_state :=
  brace_step (declaration_step st index line) index line.

Definition long_function_scan (lines : list jsstr) (issues0 : list issue) : span_state :=
  forEach long_function_step lines (mkSpan None 0 0 0 issues0).

Definition checkCommonIssues (content : jsstr) : list issue :=
  let lines := split_lines content in
  let issues1 := forEach console_log_step lines [] in
  let issues2 := forEach todo_step lines issues1 in
  issues (long_function_scan lines issues2).

(** *** checkSecurity *)

(** The common tail of the secret patterns: [\s*], one of [=] and [:],
    [\s*], a quote (double or single), one or more code units that are not
    quotes, and a quote. *)
Definition secret_tail : list regex :=
  [ Star ws; Cls (one_of "=:"); Star ws; Cls is_quote;
    Plus (Cls (fun c => negb (is_quote c))); Cls is_quote ].

(** The four patterns; each carries the [i] flag and no [g] flag. *)
Definition secretPatterns : list regex :=
  [ SeqL (Lit "password" :: secret_tail);
    SeqL (Lit "api" :: Opt (Cls (one_of "_-")) :: Lit "key" :: secret_tail);
    SeqL (Lit "secret" :: secret_tail);
    SeqL (Lit "token" :: secret_tail) ].

Definition secret_issue (index : nat) : issue :=
  mkIssue type_error Security (Z.of_nat index + 1)
          (str "Possible hardcoded secret detected. Use environment variables instead.")
          high.

Definition secret_pattern_step (index : nat) (line : jsstr)
           (issues : list issue) (pattern : regex) : list issue :=
  if test true pattern line && negb (includes (str "process.env") line)
  then push issues (secret_issue index) else issues.

Definition secret_step (issues : list issue) (index : nat) (line : jsstr) : list issue :=
  fold_left (secret_pattern_step index line) secretPatterns issues.

Definition eval_issue (content : jsstr) : issue :=
  mkIssue type_error Security
          (findIndex (includes (str "eval(")) (split_lines content) + 1)
          (str "Use of eval() is dangerous and should be avoided") high.

Definition checkSecurity (content : jsstr) : list issue :=
  let lines := split_lines content in
  let issues1 := forEach secret_step lines [] in
  if includes (str "eval(") content then push issues1 (eval_issue content) else issues1.

(** *** checkPerformance *)

Definition syncMethods : list jsstr :=
  [str "readFileSync"; str "writeFileSync"; str "existsSync"].

Definition sync_issue (index : nat) (method : jsstr) : issue :=
  mkIssue type_warning Performance (Z.of_nat index + 1)
          (str "Synchronous " ++ method ++
           str " call may block the event loop. Consider using async version.")
          medium.

Definition sync_method_step (index : nat) (line : jsstr)
           (issues : list issue) (method : jsstr) : list issue :=
  if includes method line && negb (startsWith (str "//") (trim line))
  then push issues (sync_issue index method) else issues.

Definition sync_step (issues : list issue) (index : nat) (line : jsstr) : list issue :=
  fold_left (sync_method_step index line) syncMethods issues.

Definition nested_loop_issue (index : nat) : issue :=
  mkIssue type_warning Performance (Z.of_nat index + 1)
          (str "Deeply nested loops detected. Consider optimizing algorithm complexity.")
          medium.

Definition is_loop_line (line : jsstr) : bool :=
  includes (str "for ") line || includes (str "while ") line ||
  includes (str "forEach") line.

Definition has_closing_brace (line : jsstr) : bool := includes (str "}") line.

(** The state of the nested-loop scan: [loopDepth] and the [issues] array. *)
Definition loop_step (st : Z * list issue) (index : nat) (line : jsstr) : Z * list issue :=
  let '(loopDepth, issues) := st in
  let '(loopDepth1, issues1) :=
    if is_loop_line line then
      let d := (loopDepth + 1)%Z in
      (d, if (2 <? d)%Z then push issues (nested_loop_issue index) else issues)
    else (loopDepth, issues) in
  if has_closing_brace line then (Z.max 0 (loopDepth1 - 1), issues1)
  else (loopDepth1, issues1).

Definition checkPerformance (content : jsstr) : list issue :=
  let lines := split_lines content in
  let issues1 := forEach sync_step lines [] in
  snd (forEach loop_step lines (0%Z, issues1)).

(** *** checkMaintainability *)

(** [/\b(\d{2,})\b/g] *)
Definition magicRegex : regex := SeqL [WordB; digit; Plus digit; WordB].

Definition magic_issue (index : nat) (num : jsstr) : issue :=
  mkIssue type_info Maintainability (Z.of_nat index + 1)
          (str "Magic number " ++ num ++ str " found. Consider using a named constant.")
          low.

Definition magic_number_step (index : nat) (issues : list issue) (num : jsstr) : list issue :=
  let n := parseInt_digits num in
  if (1 <? n)%Z && negb (n =? 100)%Z && negb (n =? 1000)%Z
  then push issues (magic_issue index num) else issues.

Definition magic_step (issues : list issue) (index : nat) (line : jsstr) : list issue :=
  let numbers := match_g false magicRegex line in
  match numbers with
  | [] => issues
  | _ :: _ =>
      if negb (startsWith (str "//") (trim line))
      then fold_left (magic_number_step index) numbers issues
      else issues
  end.

(** [/function\s*\([^)]+\)|\([^)]+\)\s*=>/g] *)
Definition paramsRegex : regex :=
  let inner := Plus (Cls (none_of ")")) in
  AltL [ SeqL [Lit "function"; Star ws; Chr "("; inner; Chr ")"];
         SeqL [Chr "("; inner; Chr ")"; Star ws; Lit "=>"] ].

Definition params_issue (index : nat) (params : nat) : issue :=
  mkIssue type_warning Maintainability (Z.of_nat index + 1)
          (str "Function has " ++ show_Z (Z.of_nat params) ++
           str " parameters. Consider using an options object.")
          low.

Definition params_match_step (index : nat) (issues : list issue) (m : jsstr) : list issue :=
  let params := List.length (split_on "," m) in
  if 4 <? params then push issues (params_issue index params) else issues.

Definition params_step (issues : list issue) (index : nat) (line : jsstr) : list issue :=
  fold_left (params_match_step index) (match_g false paramsRegex line) issues.

Definition checkMaintainability (content : jsstr) : list issue :=
  let lines := split_lines content in
  let issues1 := forEach magic_step lines [] in
  forEach params_step lines issues1.

(** *** analyzeFiles *)

Record fileAnalysis : Type := mkFileAnalysis {
  fa_file : jsstr;
  fa_content : jsstr;
  fa_lines : list jsstr;
  fa_size : nat;
  fa_issues : list issue
}.

Definition analyzeOne (file content : jsstr) : fileAnalysis :=
  mkFileAnalysis file content (split_lines content) (List.length content)
    (checkCommonIssues content ++ checkSecurity content ++
     checkPerformance content ++ checkMaintainability content).

(** A code file comes with the outcome of [fs.readFile]: its text, or
    [None] when reading throws (the file is then skipped with a warning). *)
Definition analyzeFiles (codeFiles : list (jsstr * option jsstr)) : list fileAnalysis :=
  fold_left
    (fun analysis f =>
       match snd f with
       | Some content => push analysis (analyzeOne (fst f) content)
       | None => analysis
       end)
    codeFiles [].

(** *** identifyIssues, getStats and the groupings of generateReport *)

(** An issue stamped with its file: [{...issue, file: fileAnalysis.file}]. *)
Record filed : Type := mkFiled { the_issue : issue; file : jsstr }.

Definition severityOrder (s : severity) : Z :=
  match s with high => 0 | medium => 1 | low => 2 | info => 3 end.

Definition by_severity (a b : filed) : Z :=
  severityOrder (severity_of (the_issue a)) - severityOrder (severity_of (the_issue b)).

Definition collect (analysis : list fileAnalysis) : list filed :=
  fold_left
    (fun allIssues fa =>
       fold_left (fun acc i => push acc (mkFiled i (fa_file fa))) (fa_issues fa) allIssues)
    analysis [].

Definition identifyIssues (analysis : list fileAnalysis) : list filed :=
  Js.sort by_severity (collect analysis).

Definition has_severity (s : severity) (i : filed) : bool :=
  severity_eqb (severity_of (the_issue i)) s.

Record stats : Type := mkStats {
  total : nat;
  stat_high : nat;
  stat_medium : nat;
  stat_low : nat;
  stat_info : nat
}.

Definition getStats (issues : list filed) : stats :=
  mkStats (List.length issues)
          (List.length (filter (has_severity high) issues))
          (List.length (filter (has_severity medium) issues))
          (List.length (filter (has_severity low) issues))
          (List.length (filter (has_severity info) issues)).

Definition generateSummary (issues : list filed) : jsstr :=
  str "Found " ++ show_Z (Z.of_nat (List.length issues)) ++ str " issues: " ++
  show_Z (Z.of_nat (List.length (filter (has_severity high) issues))) ++ str " high, " ++
  show_Z (Z.of_nat (List.length (filter (has_severity medium) issues))) ++
  str " medium priority".

(** The [bySeverity] and [byCategory] objects of [generateReport]. *)
Definition bySeverity (issues : list filed) : list (severity * Z) :=
  fold_left
    (fun acc i =>
       assoc_update severity_eqb (severity_of (the_issue i))
                    (fun o => match o with Some n => n + 1 | None => 0 + 1 end)%Z acc)
    issues [].

Definition byCategory (issues : list filed) : list (category * list filed) :=
  fold_left
    (fun acc i =>
       assoc_update category_eqb (category_of (the_issue i))
                    (fun o => match o with Some l => push l i | None => push [] i end) acc)
    issues [].

(** The per-category headings of the report:
    [### ${category} (${categoryIssues.length} issues)]. *)
Definition categoryCounts (issues : list filed) : list (category * nat) :=
  map (fun e => (fst e, List.length (snd e))) (byCategory issues).

(** The issues listed under "High Priority Fixes". *)
Definition priorityFixes (issues : list filed) : list filed :=
  firstn 5 (filter (has_severity high) issues).

(** The pure part of [reviewCode]: the sorted issues and their statistics. *)
Definition reviewCode (codeFiles : list (jsstr * option jsstr)) : list filed * stats :=
  let issues := identifyIssues (analyzeFiles codeFiles) in
  (issues, getStats issues).

End ReviewCode.

(** ** The first implementation: [performReview], one file at a time *)

Module PerformReview.

(** The [severity] strings, the keys of [severityLevels]. *)
Inductive severity : Type := CRITICAL | HIGH | MEDIUM | LOW | INFO.

(** The [type] strings ['Debug Code'], ['Technical Debt'], ['Security'],
    ['Modern JavaScript'], ['Code Style']. *)
Inductive issue_type : Type :=
| DebugCode | TechnicalDebt | Security | ModernJavaScript | CodeStyle.

Record issue : Type := mkIssue {
  severity_of : severity;
  type : issue_type;
  message : jsstr;
  line : nat;
  column : nat;
  code : option jsstr
}.

Definition severity_eqb (a b : severity) : bool :=
  match a, b with
  | CRITICAL, CRITICAL | HIGH, HIGH | MEDIUM, MEDIUM | LOW, LOW | INFO, INFO => true
  | _, _ => false
  end.

Definition push {A : Type} (l : list A) (x : A) : list A := l ++ [x].

Fixpoint jsstr_eqb (a b : jsstr) : bool :=
  match a, b with
  | [], [] => true
  | x :: a', y :: b' => Ascii.eqb x y && jsstr_eqb a' b'
  | _, _ => false
  end.

(** *** Numbers that are not integers

    [0.3] is the binary64 number [dbl_0_3 / 2^54].  The product of an
    integer [n] and [0.3] is the exact product rounded to 53 significant
    bits, ties to even; [times_0_3 n] is that product scaled by [2^54]. *)
Definition dbl_0_3 : Z := 5404319552844595.

Definition round_53 (p : Z) : Z :=
  let bits := (Z.log2 p + 1)%Z in
  if (bits <=? 53)%Z then p
  else
    let sh := (bits - 53)%Z in
    let q := Z.shiftr p sh in
    let r := (p - Z.shiftl q sh)%Z in
    let half := Z.shiftl 1 (sh - 1) in
    let q' := if (half <? r)%Z || ((r =? half)%Z && Z.odd q) then (q + 1)%Z else q in
    Z.shiftl q' sh.

Definition times_0_3 (n : Z) : Z := round_53 (n * dbl_0_3).

(** [a > n * 0.3] for integers [a] and [n]. *)
Definition gt_times_0_3 (a n : Z) : bool := (times_0_3 n <? Z.shiftl a 54)%Z.

(** Quotients of two integers are kept exact.  A quotient of integers below
    [2^53] is rounded correctly and monotonically, so on the sizes that reach
    this code (at most 10000 code units) its comparisons with [0.1], [0.3],
    [120] and [200] agree with the exact ones. *)
Definition quotient (a b : nat) : Q := Qmake (Z.of_nat a) (Pos.of_nat b).

Definition Qlt_bool (x y : Q) : bool := negb (Qle_bool y x).

(** *** performStaticAnalysis *)

Record fileInfo : Type := mkFileInfo {
  path : jsstr;
  size : Z;
  extension : jsstr;
  lines : nat;
  content : jsstr
}.

Record pattern_rule : Type := mkRule {
  pattern : regex;
  ignoreCase : bool;
  rule_severity : severity;
  rule_type : issue_type;
  rule_message : jsstr
}.

(** [/console\.log/g], [/TODO|FIXME|HACK/gi], [/eval\s*\(/g],
    [/innerHTML\s*=/g] and [/var\s+/g], in the order of the array. *)
Definition patterns : list pattern_rule :=
  [ mkRule (Lit "console.log") false LOW DebugCode
      (str "Console.log statements should be removed in production code");
    mkRule (AltL [Lit "TODO"; Lit "FIXME"; Lit "HACK"]) true MEDIUM TechnicalDebt
      (str "TODO/FIXME comments indicate unfinished work");
    mkRule (SeqL [Lit "eval"; Star ws; Chr "("]) false CRITICAL Security
      (str "Use of eval() can lead to security vulnerabilities");
    mkRule (SeqL [Lit "innerHTML"; Star ws; Chr "="]) false HIGH Security
      (str "innerHTML assignment may lead to XSS vulnerabilities");
    mkRule (SeqL [Lit "var"; Plus ws]) false LOW ModernJavaScript
      (str "Consider using let/const instead of var") ].

(** The issue pushed for one match: its line and column come from the text
    before [match.index]. *)
Definition match_issue (content : jsstr) (rule : pattern_rule)
           (m : cursor * cursor) : issue :=
  let before := split_lines (slice0 (pos (fst m)) content) in
  mkIssue (rule_severity rule) (rule_type rule) (rule_message rule)
          (List.length before)
          (List.length (last before []) + 1)
          (Some (matched m)).

Definition pattern_step (content : jsstr) (issues : list issue)
           (rule : pattern_rule) : list issue :=
  fold_left (fun acc m => push acc (match_issue content rule m))
            (matchAll (ignoreCase rule) (pattern rule) content) issues.

Definition pattern_issues (content : jsstr) : list issue :=
  fold_left (pattern_step content) patterns [].

(** The lines counted as statements without a final semicolon. *)
Definition is_open_statement (line : jsstr) : bool :=
  let t := trim line in
  match t with [] => false | _ :: _ => true end &&
  negb (startsWith (str "//") t) &&
  negb (startsWith (str "*") t) &&
  negb (endsWith (str ";") t) &&
  negb (endsWith (str "{") t) &&
  negb (endsWith (str "}") t).

Definition semicolon_issue : issue :=
  mkIssue LOW CodeStyle (str "Consider using consistent semicolon usage") 1 1 None.

Definition semicolon_check (fi : fileInfo) (issues : list issue) : list issue :=
  if jsstr_eqb (extension fi) (str ".js") || jsstr_eqb (extension fi) (str ".ts") then
    let statements := filter is_open_statement (split_lines (content fi)) in
    if gt_times_0_3 (Z.of_nat (List.length statements)) (Z.of_nat (lines fi))
    then push issues semicolon_issue else issues
  else issues.

(** [/if\s*\(/g], [/else/g], [/for\s*\(/g], [/while\s*\(/g],
    [/switch\s*\(/g], [/catch\s*\(/g], [/&&|\|\|/g]. *)
Definition complexityIndicators : list regex :=
  [ SeqL [Lit "if"; Star ws; Chr "("];
    Lit "else";
    SeqL [Lit "for"; Star ws; Chr "("];
    SeqL [Lit "while"; Star ws; Chr "("];
    SeqL [Lit "switch"; Star ws; Chr "("];
    SeqL [Lit "catch"; Star ws; Chr "("];
    AltL [Lit "&&"; Lit "||"] ].

Definition calculateComplexity (content : jsstr) : Z :=
  let complexity :=
    fold_left
      (fun complexity pattern =>
         match match_g false pattern content with
         | [] => complexity
         | (_ :: _) as matches => (complexity + Z.of_nat (List.length matches))%Z
         end)
      complexityIndicators 1%Z in
  Z.min complexity 100.

Record maintainability : Type := mkMaint {
  score : Z;
  commentRatio : Q;
  avgLineLength : Q
}.

Definition is_comment_line (line : jsstr) : bool :=
  startsWith (str "//") (trim line) ||
  startsWith (str "*") (trim line) ||
  startsWith (str "/*") (trim line).

Definition assessMaintainability (content : jsstr) (fi : fileInfo) : maintainability :=
  let lines_ := split_lines content in
  let commentLines := List.length (filter is_comment_line lines_) in
  let commentRatio := quotient commentLines (List.length lines_) in
  let avgLineLength := quotient (List.length content) (List.length lines_) in
  let score := 10%Z in
  let score := if (500 <? Z.of_nat (lines fi))%Z then (score - 2)%Z else score in
  let score := if (1000 <? Z.of_nat (lines fi))%Z then (score - 3)%Z else score in
  let score := if Qlt_bool commentRatio (1 # 10) then (score - 2)%Z else score in
  let score := if Qlt_bool (3 # 10) commentRatio then (score + 1)%Z else score in
  let score := if Qlt_bool (120 # 1) avgLineLength then (score - 1)%Z else score in
  let score := if Qlt_bool (200 # 1) avgLineLength then (score - 2)%Z else score in
  mkMaint (Z.max 1 (Z.min 10 score)) commentRatio avgLineLength.

Record staticAnalysis : Type := mkStatic {
  issues : list issue;
  complexity : Z;
  maintainability_of : maintainability
}.

Definition performStaticAnalysis (fi : fileInfo) : staticAnalysis :=
  let content := content fi in
  mkStatic (semicolon_check fi (pattern_issues content))
           (calculateComplexity content)
           (assessMaintainability content fi).

(** *** analyzeFile *)

(** What the file system answers for a path: [path.extname], and either the
    message of the error thrown by [fs.readFile] / [fs.stat] or the text with
    [stats.size]. *)
Record disk_file : Type := mkDisk {
  df_path : jsstr;
  df_extname : jsstr;
  df_read : jsstr + (jsstr * Z)
}.

(** The three shapes of the object [analyzeFile] returns. *)
Inductive analysis : Type :=
| Skipped (filePath : jsstr) (reason : jsstr)
| Failed (filePath : jsstr) (error : jsstr)
| Analyzed (info : fileInfo) (sa : staticAnalysis).

Definition analyzeFile (f : disk_file) : analysis :=
  match df_read f with
  | inl error => Failed (df_path f) error
  | inr (content, size) =>
      if (50000 <? Z.of_nat (List.length content))%Z
      then Skipped (df_path f) (str "File too large for review")
      else
        let fileInfo :=
          mkFileInfo (df_path f) size (df_extname f)
                     (List.length (split_lines content))
                     (slice0 (Z.to_nat 10000) content) in
        Analyzed fileInfo (performStaticAnalysis fileInfo)
  end.

(** The properties [issues], [path] and [skipped] read off an analysis;
    [None] and [false] where the object has no such property. *)
Definition analysis_issues (a : analysis) : option (list issue) :=
  match a with Analyzed _ sa => Some (issues sa) | _ => None end.

Definition analysis_path (a : analysis) : option jsstr :=
  match a with Analyzed fi _ => Some (path fi) | _ => None end.

Definition analysis_skipped (a : analysis) : bool :=
  match a with Skipped _ _ => true | _ => false end.

(** *** generateReviewReport *)

(** [{...issue, file: analysis.path}] *)
Record filed : Type := mkFiled { the_issue : issue; file : option jsstr }.

Inductive maint_summary : Type :=
| Assessed (m : maintainability)
| DefaultScore (score : Z).

Record file_summary : Type := mkFileSummary {
  fs_file : option jsstr;
  fs_issues : nat;
  fs_complexity : Z;
  fs_maintainability : maint_summary;
  fs_skipped : bool
}.

Record summary : Type := mkSummary {
  filesReviewed : nat;
  totalIssues : nat;
  criticalIssues : nat;
  highIssues : nat;
  mediumIssues : nat;
  lowIssues : nat
}.

(** The report without [aiInsights] and [projectContext], which are passed
    through from the collaborators. *)
Record report : Type := mkReport {
  report_summary : summary;
  report_issues : list filed;
  filesSummary : list file_summary
}.

Definition severityOrder (s : severity) : Z :=
  match s with CRITICAL => 0 | HIGH => 1 | MEDIUM => 2 | LOW => 3 | INFO => 4 end.

Definition by_severity (a b : filed) : Z :=
  severityOrder (severity_of (the_issue a)) - severityOrder (severity_of (the_issue b)).

Definition collect_step (allIssues : list filed) (a : analysis) : list filed :=
  match analysis_issues a with
  | Some l => fold_left (fun acc i => push acc (mkFiled i (analysis_path a))) l allIssues
  | None => allIssues
  end.

Definition collect (fileAnalyses : list analysis) : list filed :=
  fold_left collect_step fileAnalyses [].

Definition summarize (a : analysis) : file_summary :=
  mkFileSummary (analysis_path a)
    (match analysis_issues a with Some l => List.length l | None => 0 end)
    (match a with Analyzed _ sa => if (complexity sa =? 0)%Z then 0%Z else complexity sa
             | _ => 0%Z end)
    (match a with Analyzed _ sa => Assessed (maintainability_of sa)
             | _ => DefaultScore 5 end)
    (analysis_skipped a).

Definition has_severity (s : severity) (i : filed) : bool :=
  severity_eqb (severity_of (the_issue i)) s.

Definition generateReviewReport (fileAnalyses : list analysis) : report :=
  let allIssues := Js.sort by_severity (collect fileAnalyses) in
  mkReport
    (mkSummary (List.length fileAnalyses)
               (List.length allIssues)
               (List.length (filter (has_severity CRITICAL) allIssues))
               (List.length (filter (has_severity HIGH) allIssues))
               (List.length (filter (has_severity MEDIUM) allIssues))
               (List.length (filter (has_severity LOW) allIssues)))
    allIssues
    (map summarize fileAnalyses).

(** The report of [performReview] for the files to review. *)
Definition reviewReport (filesToReview : list disk_file) : report :=
  generateReviewReport (map analyzeFile filesToReview).

End PerformReview.

(** ** Auxiliary definitions used to state the properties *)

(** The elements a [push]-only loop adds, line by line. *)
Fixpoint pushed_from {A B : Type} (g : nat -> A -> list B) (i : nat) (l : list A) : list B :=
  match l with
  | [] => []
  | x :: l' => g i x ++ pushed_from g (S i) l'
  end.


(** The issues of the analysed files in discovery order: file after file,
    and within a file in the order the analysis pushed them. *)
Definition performReview_stamp (a : PerformReview.analysis) : list PerformReview.filed :=
  match PerformReview.analysis_issues a with
  | Some l => map (fun i => PerformReview.mkFiled i (PerformReview.analysis_path a)) l
  | None => []
  end.

Definition performReview_discovered (fileAnalyses : list PerformReview.analysis)
  : list PerformReview.filed :=
  flat_map performReview_stamp fileAnalyses.

Definition reviewCode_stamp (fa : ReviewCode.fileAnalysis) : list ReviewCode.filed :=
  map (fun i => ReviewCode.mkFiled i (ReviewCode.fa_file fa)) (ReviewCode.fa_issues fa).

Definition reviewCode_discovered (analysis : list ReviewCode.fileAnalysis)
  : list ReviewCode.filed :=
  flat_map reviewCode_stamp analysis.

Definition performReview_rank (i : PerformReview.filed) : Z :=
  PerformReview.severityOrder (PerformReview.severity_of (PerformReview.the_issue i)).

Definition reviewCode_rank (i : ReviewCode.filed) : Z :=
  ReviewCode.severityOrder (ReviewCode.severity_of (ReviewCode.the_issue i)).

Definition sum_nat (l : list nat) : nat := fold_right Nat.add 0 l.

Definition sum_Z (l : list Z) : Z := fold_right Z.add 0%Z l.

Definition not_info (i : PerformReview.issue) : Prop :=
  PerformReview.severity_of i <> PerformReview.INFO.

(** The maintainability score in the words of the specification: start at
    10, take off the size penalty, apply the comment adjustment, take off
    the line-length penalty, and clamp to the range from 1 to 10. *)
Definition clamp (lo hi x : Z) : Z :=
  if (x <? lo)%Z then lo else if (hi <? x)%Z then hi else x.

Definition size_penalty (lineCount : Z) : Z :=
  ((if (500 <? lineCount)%Z then 2 else 0) + (if (1000 <? lineCount)%Z then 3 else 0))%Z.

Definition comment_adjustment (commentRatio : Q) : Z :=
  ((if Qlt_le_dec commentRatio (1 # 10) then -2 else 0) +
   (if Qlt_le_dec (3 # 10) commentRatio then 1 else 0))%Z.

Definition length_penalty (avgLineLength : Q) : Z :=
  ((if Qlt_le_dec (120 # 1) avgLineLength then 1 else 0) +
   (if Qlt_le_dec (200 # 1) avgLineLength then 2 else 0))%Z.

Definition maintainability_score_spec (lineCount : Z) (commentRatio avgLineLength : Q) : Z :=
  clamp 1 10 (10 - size_penalty lineCount + comment_adjustment commentRatio
              - length_penalty avgLineLength).

(** What a pattern matches, as a relation between the cursor where the
    match starts and the cursor where it ends. *)
Inductive derives (ci : bool) : regex -> cursor -> cursor -> Prop :=
| derives_eps c : derives ci Eps c c
| derives_chr a c x xs :
    rest c = x :: xs -> chr_eq ci a x = true ->
    derives ci (Chr a) c (step_over c x xs)
| derives_cls p c x xs :
    rest c = x :: xs -> p x = true ->
    derives ci (Cls p) c (step_over c x xs)
| derives_bol c : pos c = 0 -> derives ci Bol c c
| derives_wordb c :
    xorb (word_side (prev c)) (word_side (hd_error (rest c))) = true ->
    derives ci WordB c c
| derives_seq r1 r2 c c1 c2 :
    derives ci r1 c c1 -> derives ci r2 c1 c2 -> derives ci (Seq r1 r2) c c2
| derives_alt_l r1 r2 c c1 : derives ci r1 c c1 -> derives ci (Alt r1 r2) c c1
| derives_alt_r r1 r2 c c1 : derives ci r2 c c1 -> derives ci (Alt r1 r2) c c1
| derives_star_stop r c : derives ci (Star r) c c
| derives_star_more r c c1 c2 :
    derives ci r c c1 -> pos c1 <> pos c -> derives ci (Star r) c1 c2 ->
    derives ci (Star r) c c2.

(** [c'] lies [w] further in the same text than [c]. *)
Definition ahead (w : jsstr) (c c' : cursor) : Prop :=
  rest c = w ++ rest c' /\ pos c' = pos c + List.length w.

Definition extends (c c' : cursor) : Prop := exists w, ahead w c c'.

(** The file information [analyzeFile] builds for a text it accepts. *)
Definition fileInfo_of (f : PerformReview.disk_file) (content : jsstr) (size : Z)
  : PerformReview.fileInfo :=
  PerformReview.mkFileInfo (PerformReview.df_path f) size (PerformReview.df_extname f)
                           (List.length (split_lines content))
                           (firstn (Z.to_nat 10000) content).

(** A text whose only [eval(] starts at offset 10000, and the same text
    with three leading blanks fewer. *)
Definition late_eval : jsstr := repeat " "%char (Z.to_nat 10000) ++ str "eval(x)".

Definition late_eval_file : PerformReview.disk_file :=
  PerformReview.mkDisk (str "late.py") (str ".py") (inr (late_eval, 10007%Z)).

Definition straddling_eval_file : PerformReview.disk_file :=
  PerformReview.mkDisk (str "late.py") (str ".py") (inr (skipn 3 late_eval, 10004%Z)).

Definition early_eval_file : PerformReview.disk_file :=
  PerformReview.mkDisk (str "late.py") (str ".py") (inr (skipn 8 late_eval, 9999%Z)).

(** A text of 50001 code units: a [console.log] line followed by 7141
    short assignment lines. *)
Definition oversized : jsstr :=
  str "console.log(1)" ++ flat_map (fun _ => newline :: str "x = y;") (repeat tt (Z.to_nat 7141)).

Definition oversized_file : PerformReview.disk_file :=
  PerformReview.mkDisk (str "vendor.js") (str ".js") (inr (oversized, 50001%Z)).

(** What each line scan of the second implementation pushes for the line
    at [index]. *)
Definition console_log_pushes (index : nat) (line : jsstr) : list ReviewCode.issue :=
  if includes (str "console.log") line && negb (startsWith (str "//") (trim line))
  then [ReviewCode.debug_issue index] else [].

Definition todo_pushes (index : nat) (line : jsstr) : list ReviewCode.issue :=
  if includes (str "TODO") line || includes (str "FIXME") line
  then [ReviewCode.todo_issue index] else [].

Definition secret_pushes (index : nat) (line : jsstr) : list ReviewCode.issue :=
  flat_map
    (fun pattern =>
       if test true pattern line && negb (includes (str "process.env") line)
       then [ReviewCode.secret_issue index] else [])
    ReviewCode.secretPatterns.

Definition sync_pushes (index : nat) (line : jsstr) : list ReviewCode.issue :=
  flat_map
    (fun method =>
       if includes method line && negb (startsWith (str "//") (trim line))
       then [ReviewCode.sync_issue index method] else [])
    ReviewCode.syncMethods.

Definition magic_pushes (index : nat) (line : jsstr) : list ReviewCode.issue :=
  if negb (startsWith (str "//") (trim line)) then
    flat_map
      (fun num =>
         let n := parseInt_digits num in
         if (1 <? n)%Z && negb (n =? 100)%Z && negb (n =? 1000)%Z
         then [ReviewCode.magic_issue index num] else [])
      (match_g false ReviewCode.magicRegex line)
  else [].

Definition params_pushes (index : nat) (line : jsstr) : list ReviewCode.issue :=
  flat_map
    (fun m =>
       let params := List.length (split_on "," m) in
       if 4 <? params then [ReviewCode.params_issue index params] else [])
    (match_g false ReviewCode.paramsRegex line).

Definition has_category (c : ReviewCode.category) (i : ReviewCode.issue) : bool :=
  ReviewCode.category_eqb (ReviewCode.category_of i) c.

Definition at_line (n : Z) (i : ReviewCode.issue) : bool := (ReviewCode.line i =? n)%Z.


(** The line [const apiKey = "sk-abc123";] and the same assignment reading
    the value from the environment. *)
Definition api_key_line : jsstr :=
  str "const apiKey = " ++ [dquote] ++ str "sk-abc123" ++ [dquote] ++ str ";".



(** A secret assignment on a commented-out line, and a [console.log] inside
    a block comment. *)
Definition commented_secret : jsstr :=
  str "// const password = " ++ [squote] ++ str "hunter2" ++ [squote] ++ str ";".

Definition block_commented_log : jsstr := str "/* console.log(1) */".

(** A commented-out declaration with five parameters. *)
Definition commented_params : jsstr := str "// function (a, b, c, d, e) {}".

(** [loopDepth] when the scan of [checkPerformance] reaches the line at
    [index]: the state left by the callback on the lines before it. *)
Definition loop_depth_before (lines : list jsstr) (index : nat) : Z :=
  fst (forEach ReviewCode.loop_step (firstn index lines) (0%Z, [])).

(** The depth after a line, from the depth before it. *)
Definition next_depth (d : Z) (line : jsstr) : Z :=
  let d1 := if ReviewCode.is_loop_line line then (d + 1)%Z else d in
  if ReviewCode.has_closing_brace line then Z.max 0 (d1 - 1) else d1.

(** What the nested-loop scan pushes from depth [d] on. *)
Fixpoint loop_pushes (d : Z) (i : nat) (lines : list jsstr) : list ReviewCode.issue :=
  match lines with
  | [] => []
  | x :: l =>
      (if ReviewCode.is_loop_line x && (2 <? d + 1)%Z
       then [ReviewCode.nested_loop_issue i] else []) ++
      loop_pushes (next_depth d x) (S i) l
  end.

Definition join_lines (ls : list jsstr) : jsstr :=
  match ls with
  | [] => []
  | l :: ls' => l ++ flat_map (fun x => newline :: x) ls'
  end.

(** Four nested loops, and three nested loops around one statement. *)
Definition four_deep : jsstr :=
  join_lines [ str "for (const a of as) {"; str "  for (const b of bs) {";
               str "    for (const c of cs) {"; str "      for (const d of ds) {";
               str "        use(a, b, c, d);";
               str "      }"; str "    }"; str "  }"; str "}" ].

(** Four nested loops, each followed by a line with an object literal. *)
Definition four_deep_with_objects : jsstr :=
  join_lines [ str "for (const a of as) {"; str "  const o = {};";
               str "  for (const b of bs) {"; str "    const p = {};";
               str "    for (const c of cs) {"; str "      const q = {};";
               str "      for (const d of ds) {"; str "        const r = {};";
               str "        use(a, b, c, d);";
               str "      }"; str "    }"; str "  }"; str "}" ].

Definition three_deep_body : jsstr :=
  join_lines [ str "for (const a of as) {"; str "  for (const b of bs) {";
               str "    for (const c of cs) {"; str "      use(a, b, c);";
               str "    }"; str "  }"; str "}" ].

Definition has_nonspace (s : jsstr) : bool := existsb (fun c => negb (is_space c)) s.

(** A 60-line function [outer] (lines 1 to 60) with a function [inner]
    declared on line 3 and closed on line 5. *)
Definition nested_declaration_lines : list jsstr :=
  [ str "function outer() {"; str "  let a = 1;"; str "  function inner() {";
    str "    return a;"; str "  }" ] ++
  repeat (str "  a = a + 1;") 54 ++ [ str "}" ].

Definition nested_declaration : jsstr := join_lines nested_declaration_lines.

(** The state of the long-function scan when it reaches the line at
    [index]. *)
Definition span_state_before (lines : list jsstr) (index : nat) : ReviewCode.span_state :=
  ReviewCode.long_function_scan (firstn index lines) [].

(** A file of [before + len + after] lines whose only function spans [len]
    lines, from line [before + 1] on. *)
Definition one_function_file (before len after : nat) : jsstr :=
  join_lines (repeat (str "// header") before ++
              [ str "function longFunction() {" ] ++
              repeat (str "  total = total + 1;") (len - 2) ++
              [ str "}" ] ++
              repeat (str "// trailer") after).

(** The 120-line file whose function spans lines 10 to 75. *)
Definition synthetic_120 : jsstr := one_function_file 9 66 45.

Definition long_function_finding (start measured : Z) : ReviewCode.issue :=
  ReviewCode.mkIssue ReviewCode.type_warning ReviewCode.CodeComplexity start
    (str "Function is too long (" ++ show_Z measured ++
     str " lines). Consider breaking it down.")
    ReviewCode.medium.

(** ** Further definitions used to state properties of the scans *)

(** What the long-function scan keeps true after [i] lines: the findings it
    added to [issues0], each anchored at a start line with a measure above
    50 that ends within the lines visited, anchored in increasing order and
    not after the start line of the span being tracked. *)
Definition span_finding_ok (i : nat) (st : ReviewCode.span_state)
           (y : ReviewCode.issue) : Prop :=
  exists start m,
    y = long_function_finding start m /\
    (1 <= start)%Z /\ (50 < m)%Z /\ (start + m <= Z.of_nat i)%Z /\
    (start <= ReviewCode.functionStartLine st)%Z /\
    (ReviewCode.truthy (ReviewCode.currentFunction st) = true ->
     (start < ReviewCode.functionStartLine st)%Z).

Definition span_inv (issues0 : list ReviewCode.issue) (i : nat)
           (st : ReviewCode.span_state) : Prop :=
  exists added,
    ReviewCode.issues st = issues0 ++ added /\
    (ReviewCode.functionStartLine st <= Z.of_nat i)%Z /\
    (ReviewCode.truthy (ReviewCode.currentFunction st) = true ->
     (1 <= ReviewCode.functionStartLine st)%Z) /\
    Forall (span_finding_ok i st) added /\
    StronglySorted Z.lt (map ReviewCode.line added).

Definition no_newline (s : jsstr) : Prop := Forall (fun c => c <> newline) s.

(** Reading a key of an insertion-ordered object: [m[k]]. *)
Fixpoint assoc_get {K V : Type} (eqb : K -> K -> bool) (k : K) (m : list (K * V))
  : option V :=
  match m with
  | [] => None
  | (k', v) :: m' => if eqb k k' then Some v else assoc_get eqb k m'
  end.

(** [bySeverity[s] || 0], as the report prints it. *)
Definition tally (s : ReviewCode.severity) (issues : list ReviewCode.filed) : Z :=
  match assoc_get ReviewCode.severity_eqb s (ReviewCode.bySeverity issues) with
  | Some n => if (n =? 0)%Z then 0%Z else n
  | None => 0%Z
  end.

Definition filed_in_category (c : ReviewCode.category) (i : ReviewCode.filed) : bool :=
  ReviewCode.category_eqb (ReviewCode.category_of (ReviewCode.the_issue i)) c.

(** The severity the checks give to the findings of each category. *)
Definition severity_for (c : ReviewCode.category) : ReviewCode.severity :=
  match c with
  | ReviewCode.Security => ReviewCode.high
  | ReviewCode.Performance | ReviewCode.CodeComplexity => ReviewCode.medium
  | ReviewCode.DebugCode | ReviewCode.Maintainability => ReviewCode.low
  | ReviewCode.TodoFixme => ReviewCode.info
  end.

(** The exact comparison the semicolon heuristic stands for, checked
    against the binary64 product for one line count. *)
Definition threshold_exact (n : Z) : bool :=
  let t := PerformReview.times_0_3 n in
  let a1 := (3 * n / 10 + 1)%Z in
  (t <? a1 * 2 ^ 54)%Z && negb (t <? (a1 - 1) * 2 ^ 54)%Z.

Fixpoint all_from (k : nat) (n : Z) (p : Z -> bool) : bool :=
  match k with
  | O => true
  | S k' => p n && all_from k' (n + 1)%Z p
  end.

Definition is_semicolon_language (fi : PerformReview.fileInfo) : bool :=
  PerformReview.jsstr_eqb (PerformReview.extension fi) (str ".js") ||
  PerformReview.jsstr_eqb (PerformReview.extension fi) (str ".ts").

Definition open_statements (fi : PerformReview.fileInfo) : nat :=
  List.length (filter PerformReview.is_open_statement
                      (split_lines (PerformReview.content fi))).

Definition total_matches (content : jsstr) : nat :=
  sum_nat (map (fun pattern => List.length (match_g false pattern content))
               PerformReview.complexityIndicators).

Definition loop_lines (lines : list jsstr) : nat :=
  List.length (filter ReviewCode.is_loop_line lines).

Definition is_eval_finding (y : ReviewCode.issue) : bool :=
  PerformReview.jsstr_eqb (ReviewCode.message y)
                          (str "Use of eval() is dangerous and should be avoided").

(** ** Finding the files to review

    The directory walks of the two implementations, over what the file
    system answers: [path.join] and [path.extname] are taken as given, and a
    directory entry comes with its name, its kind and, for a directory, the
    entries [fs.readdir] lists in it ([None] when reading it throws). *)

Module Traversal.

#[local] Unset Elimination Schemes.

Inductive entry : Type :=
| FileEntry (name : jsstr)
| OtherEntry (name : jsstr)
| DirEntry (name : jsstr) (listing : option (list entry)).

#[local] Set Elimination Schemes.

Definition entry_name (item : entry) : jsstr :=
  match item with
  | FileEntry name | OtherEntry name | DirEntry name _ => name
  end.

(** [s.toLowerCase()] on code units below 256. *)
Definition lower (c : ascii) : ascii :=
  let n := nat_of_ascii c in
  if ((65 <=? n) && (n <=? 90)) ||
     ((192 <=? n) && (n <=? 222) && negb (n =? 215))
  then ascii_of_nat (n + 32) else c.

Definition toLowerCase (s : jsstr) : jsstr := map lower s.

Section FileSystem.

Variable join : jsstr -> jsstr -> jsstr.
Variable extname : jsstr -> jsstr.

(** *** The first implementation: [isSourceFile], [getFilesInDirectory] *)

Definition sourceExtensions : list jsstr :=
  map str [".js"; ".ts"; ".jsx"; ".tsx"; ".py"; ".java"; ".go"; ".rs"; ".php";
           ".rb"; ".c"; ".cpp"; ".h"; ".hpp"]%string.

Definition isSourceFile (filePath : jsstr) : bool :=
  let ext := toLowerCase (extname filePath) in
  existsb (PerformReview.jsstr_eqb ext) sourceExtensions.

Definition skipped_name (name : jsstr) : bool :=
  startsWith (str ".") name || PerformReview.jsstr_eqb name (str "node_modules").

(** The body of the loop over the items of [dirPath]; for a directory it is
    the recursive call with [currentDepth + 1], whose first test is the
    depth test. *)
Fixpoint filesOfItem (maxDepth currentDepth : nat) (dirPath : jsstr)
         (item : entry) {struct item} : list jsstr :=
  if skipped_name (entry_name item) then []
  else
    let fullPath := join dirPath (entry_name item) in
    match item with
    | DirEntry _ listing =>
        if maxDepth <=? S currentDepth then []
        else match listing with
             | Some items =>
                 flat_map (filesOfItem maxDepth (S currentDepth) fullPath) items
             | None => []
             end
    | _ => if isSourceFile fullPath then [fullPath] else []
    end.

Definition getFilesInDirectory (dirPath : jsstr) (listing : option (list entry))
           (maxDepth currentDepth : nat) : list jsstr :=
  if maxDepth <=? currentDepth then []
  else match listing with
       | Some items => flat_map (filesOfItem maxDepth currentDepth dirPath) items
       | None => []
       end.

(** *** The second implementation: [walkDirectory], [getCodeFiles] *)

Definition codeExtensions : list jsstr :=
  map str [".js"; ".ts"; ".jsx"; ".tsx"; ".py"; ".java"; ".cpp"; ".c"; ".go";
           ".rs"]%string.

Definition excludeDirs : list jsstr :=
  map str ["node_modules"; ".git"; "dist"; "build"; ".next"]%string.

Definition entered (exclude : list jsstr) (name : jsstr) : bool :=
  negb (existsb (PerformReview.jsstr_eqb name) exclude) &&
  negb (startsWith (str ".") name).

Fixpoint walkItem (exclude : list jsstr) (dir : jsstr) (item : entry)
         {struct item} : list jsstr :=
  let fullPath := join dir (entry_name item) in
  match item with
  | DirEntry name listing =>
      if entered exclude name then
        match listing with
        | Some entries => flat_map (walkItem exclude fullPath) entries
        | None => []
        end
      else []
  | FileEntry _ => [fullPath]
  | OtherEntry _ => []
  end.

Definition walkDirectory (dir : jsstr) (listing : option (list entry))
           (exclude : list jsstr) : list jsstr :=
  match listing with
  | Some entries => flat_map (walkItem exclude dir) entries
  | None => []
  end.

Definition has_code_extension (file : jsstr) : bool :=
  existsb (fun ext => endsWith ext file) codeExtensions.

Definition getCodeFiles (root : option (list entry)) : list jsstr :=
  filter has_code_extension (walkDirectory (str ".") root excludeDirs).

(** *** Trees without what the walks leave out *)

(** The tree without the listings from [n] levels down. *)
Fixpoint cut (n : nat) (item : entry) {struct item} : entry :=
  match item with
  | DirEntry name listing =>
      DirEntry name
        (match n with
         | O => None
         | S n' => option_map (map (cut n')) listing
         end)
  | _ => item
  end.

(** The tree without the entries the first walk skips. *)
Fixpoint visible (item : entry) : entry :=
  match item with
  | DirEntry name listing =>
      DirEntry name
        (option_map
           (fix visible_items (items : list entry) : list entry :=
              match items with
              | [] => []
              | i :: items' =>
                  if skipped_name (entry_name i) then visible_items items'
                  else visible i :: visible_items items'
              end)
           listing)
  | _ => item
  end.

Fixpoint visible_items (items : list entry) : list entry :=
  match items with
  | [] => []
  | i :: items' =>
      if skipped_name (entry_name i) then visible_items items'
      else visible i :: visible_items items'
  end.

(** The tree without what the second walk does not read: entries that are
    neither files nor directories, and the listings of the directories it
    does not enter. *)
Fixpoint walked (exclude : list jsstr) (item : entry) : entry :=
  match item with
  | DirEntry name listing =>
      DirEntry name
        (if entered exclude name
         then option_map (map (walked exclude)) listing
         else None)
  | _ => item
  end.

End FileSystem.

End Traversal.
(** * Properties *)

(** ** Loops over arrays *)

Section ForEach.

Context {A St : Type}.
Variable f : St -> nat -> A -> St.

Lemma forEach_from_snoc (l : list A) (x : A) (i : nat) (st : St) :
  forEach_from f i (l ++ [x]) st = f (forEach_from f i l st) (i + List.length l) x.
Proof.
  revert i st.
  induction l as [|y l IH]; intros i st; simpl.
  - now rewrite Nat.add_0_r.
  - rewrite IH. f_equal. lia.
Qed.

Lemma forEach_snoc (l : list A) (x : A) (st : St) :
  forEach f (l ++ [x]) st = f (forEach f l st) (List.length l) x.
Proof. unfold forEach. now rewrite forEach_from_snoc. Qed.

(** A property kept by every call of the callback holds at the end. *)
Lemma forEach_from_invariant (P : St -> Prop) :
  (forall st i x, P st -> P (f st i x)) ->
  forall l i st, P st -> P (forEach_from f i l st).
Proof.
  intros step l.
  induction l as [|y l IH]; intros i st H; simpl; auto.
Qed.

Lemma forEach_invariant (P : St -> Prop) :
  (forall st i x, P st -> P (f st i x)) ->
  forall l st, P st -> P (forEach f l st).
Proof. intros step l st. now apply forEach_from_invariant. Qed.

End ForEach.

Lemma forEach_from_pushed {A B : Type} (f : list B -> nat -> A -> list B)
      (g : nat -> A -> list B) :
  (forall st i x, f st i x = st ++ g i x) ->
  forall l i st, forEach_from f i l st = st ++ pushed_from g i l.
Proof.
  intros Hf l.
  induction l as [|y l IH]; intros i st; simpl.
  - now rewrite app_nil_r.
  - now rewrite IH, Hf, <- app_assoc.
Qed.

Lemma in_pushed_from {A B : Type} (g : nat -> A -> list B) (y : B) :
  forall l i,
    In y (pushed_from g i l) <->
    exists k x, nth_error l k = Some x /\ In y (g (i + k) x).
Proof.
  induction l as [|a l IH]; intros i; simpl.
  - split; [tauto|]. intros (k & x & H & _). now destruct k.
  - rewrite in_app_iff, IH. split.
    + intros [H | (k & x & H1 & H2)].
      * exists 0, a. now rewrite Nat.add_0_r.
      * exists (S k), x. split; [exact H1|]. now rewrite Nat.add_succ_r.
    + intros (k & x & H1 & H2). destruct k as [|k]; simpl in H1.
      * injection H1 as ->. left. now rewrite Nat.add_0_r in H2.
      * right. exists k, x. split; [exact H1|]. now rewrite Nat.add_succ_r in H2.
Qed.

(** ** Sorting by a rank *)

Section SortByRank.

Context {A : Type}.
Variable rank : A -> Z.

Local Abbreviation cmp := (fun a b : A => (rank a - rank b)%Z).
Local Abbreviation le := (fun a b : A => (rank a <= rank b)%Z).

Lemma sort_insert_perm (x : A) (l : list A) :
  Permutation (x :: l) (sort_insert cmp x l).
Proof.
  induction l as [|y l IH]; simpl; [reflexivity|].
  destruct (rank x - rank y <=? 0)%Z; [reflexivity|].
  rewrite perm_swap. now apply perm_skip.
Qed.

Lemma sort_perm (l : list A) : Permutation l (Js.sort cmp l).
Proof.
  induction l as [|x l IH]; simpl; [reflexivity|].
  rewrite <- sort_insert_perm. now apply perm_skip.
Qed.

Lemma sort_insert_sorted (x : A) (l : list A) :
  StronglySorted le l -> StronglySorted le (sort_insert cmp x l).
Proof.
  induction l as [|y l IH]; intros Hs; simpl.
  - repeat constructor.
  - inversion Hs as [|? ? Hl Hy]; subst.
    destruct (rank x - rank y <=? 0)%Z eqn:E.
    + constructor; [exact Hs|].
      apply Z.leb_le in E.
      constructor; [lia|].
      rewrite Forall_forall in *. intros z Hz. specialize (Hy z Hz).
      cbv beta in Hy. lia.
    + constructor; [now apply IH|].
      apply Z.leb_gt in E.
      rewrite Forall_forall in *. intros z Hz.
      apply (Permutation_in _ (Permutation_sym (sort_insert_perm x l))) in Hz.
      destruct Hz as [<- | Hz]; [lia | now apply Hy].
Qed.

Lemma sort_sorted (l : list A) : StronglySorted le (Js.sort cmp l).
Proof.
  induction l as [|x l IH]; simpl; [constructor | now apply sort_insert_sorted].
Qed.

(** Stability: the elements of one rank keep their order. *)
Lemma sort_insert_stable (r : Z) (x : A) (l : list A) :
  filter (fun a => rank a =? r)%Z (sort_insert cmp x l) =
  filter (fun a => rank a =? r)%Z (x :: l).
Proof.
  induction l as [|y l IH]; [reflexivity|].
  simpl sort_insert. destruct (rank x - rank y <=? 0)%Z eqn:E; [reflexivity|].
  apply Z.leb_gt in E.
  simpl. simpl in IH. rewrite IH.
  destruct (rank x =? r)%Z eqn:Ex, (rank y =? r)%Z eqn:Ey; try reflexivity.
  apply Z.eqb_eq in Ex, Ey. lia.
Qed.

Lemma sort_stable (r : Z) (l : list A) :
  filter (fun a => rank a =? r)%Z (Js.sort cmp l) =
  filter (fun a => rank a =? r)%Z l.
Proof.
  induction l as [|x l IH]; [reflexivity|].
  simpl Js.sort. rewrite sort_insert_stable. simpl. now rewrite IH.
Qed.

End SortByRank.

(** ** Aggregation: collecting, ordering and counting the issues *)

Lemma fold_left_push_map {A B : Type} (g : A -> B) (l : list A) (acc : list B) :
  fold_left (fun acc i => acc ++ [g i]) l acc = acc ++ map g l.
Proof.
  revert acc.
  induction l as [|x l IH]; intros acc; simpl.
  - now rewrite app_nil_r.
  - now rewrite IH, <- app_assoc.
Qed.

Lemma fold_left_app_flat_map {A B : Type} (h : A -> list B) (l : list A) (acc : list B) :
  fold_left (fun acc x => acc ++ h x) l acc = acc ++ flat_map h l.
Proof.
  revert acc.
  induction l as [|x l IH]; intros acc; simpl.
  - now rewrite app_nil_r.
  - now rewrite IH, <- app_assoc.
Qed.

Lemma fold_left_ext {A B : Type} (f g : B -> A -> B) :
  (forall b a, f b a = g b a) ->
  forall l b, fold_left f l b = fold_left g l b.
Proof.
  intros E l. induction l as [|x l IH]; intros b; simpl; [reflexivity|].
  now rewrite E, IH.
Qed.

Lemma performReview_collect_discovered (fileAnalyses : list PerformReview.analysis) :
  PerformReview.collect fileAnalyses = performReview_discovered fileAnalyses.
Proof.
  unfold PerformReview.collect, performReview_discovered.
  rewrite (fold_left_ext PerformReview.collect_step
             (fun acc a => acc ++ performReview_stamp a)).
  - now rewrite fold_left_app_flat_map.
  - intros acc a. unfold PerformReview.collect_step, performReview_stamp.
    destruct (PerformReview.analysis_issues a) as [l|].
    + unfold PerformReview.push. apply fold_left_push_map.
    + now rewrite app_nil_r.
Qed.

Lemma reviewCode_collect_discovered (analysis : list ReviewCode.fileAnalysis) :
  ReviewCode.collect analysis = reviewCode_discovered analysis.
Proof.
  unfold ReviewCode.collect, reviewCode_discovered.
  rewrite (fold_left_ext _ (fun acc fa => acc ++ reviewCode_stamp fa)).
  - now rewrite fold_left_app_flat_map.
  - intros acc fa. unfold reviewCode_stamp, ReviewCode.push.
    apply fold_left_push_map.
Qed.

Lemma performReview_has_severity_rank (s : PerformReview.severity) (i : PerformReview.filed) :
  PerformReview.has_severity s i =
  (performReview_rank i =? PerformReview.severityOrder s)%Z.
Proof.
  unfold PerformReview.has_severity, performReview_rank.
  now destruct (PerformReview.severity_of (PerformReview.the_issue i)), s.
Qed.

Lemma reviewCode_has_severity_rank (s : ReviewCode.severity) (i : ReviewCode.filed) :
  ReviewCode.has_severity s i = (reviewCode_rank i =? ReviewCode.severityOrder s)%Z.
Proof.
  unfold ReviewCode.has_severity, reviewCode_rank.
  now destruct (ReviewCode.severity_of (ReviewCode.the_issue i)), s.
Qed.

Lemma performReview_sort_filter (s : PerformReview.severity) (l : list PerformReview.filed) :
  filter (PerformReview.has_severity s) (Js.sort PerformReview.by_severity l) =
  filter (PerformReview.has_severity s) l.
Proof.
  rewrite !(filter_ext _ _ (performReview_has_severity_rank s)).
  apply (sort_stable performReview_rank).
Qed.

Lemma reviewCode_sort_filter (s : ReviewCode.severity) (l : list ReviewCode.filed) :
  filter (ReviewCode.has_severity s) (Js.sort ReviewCode.by_severity l) =
  filter (ReviewCode.has_severity s) l.
Proof.
  rewrite !(filter_ext _ _ (reviewCode_has_severity_rank s)).
  apply (sort_stable reviewCode_rank).
Qed.

(** C2. The aggregated issues are sorted by severity rank (CRITICAL, HIGH,
    MEDIUM, LOW, INFO in the first implementation; high, medium, low, info
    in the second): the rank never decreases along the sequence, which is a
    permutation of the discovered issues, and the issues of one severity
    keep their per-file discovery order. *)
Theorem C2_issues_sorted_by_severity_stably :
  (forall fileAnalyses : list PerformReview.analysis,
     let allIssues :=
       PerformReview.report_issues (PerformReview.generateReviewReport fileAnalyses) in
     StronglySorted (fun a b => performReview_rank a <= performReview_rank b)%Z allIssues /\
     Permutation (performReview_discovered fileAnalyses) allIssues /\
     forall s, filter (PerformReview.has_severity s) allIssues =
               filter (PerformReview.has_severity s) (performReview_discovered fileAnalyses)) /\
  (forall analysis : list ReviewCode.fileAnalysis,
     let allIssues := ReviewCode.identifyIssues analysis in
     StronglySorted (fun a b => reviewCode_rank a <= reviewCode_rank b)%Z allIssues /\
     Permutation (reviewCode_discovered analysis) allIssues /\
     forall s, filter (ReviewCode.has_severity s) allIssues =
               filter (ReviewCode.has_severity s) (reviewCode_discovered analysis)) /\
  (PerformReview.severityOrder PerformReview.CRITICAL <
   PerformReview.severityOrder PerformReview.HIGH <
   PerformReview.severityOrder PerformReview.MEDIUM)%Z /\
  (PerformReview.severityOrder PerformReview.MEDIUM <
   PerformReview.severityOrder PerformReview.LOW <
   PerformReview.severityOrder PerformReview.INFO)%Z /\
  (ReviewCode.severityOrder ReviewCode.high < ReviewCode.severityOrder ReviewCode.medium <
   ReviewCode.severityOrder ReviewCode.low)%Z /\
  (ReviewCode.severityOrder ReviewCode.low < ReviewCode.severityOrder ReviewCode.info)%Z.
Proof.
  split; [|split].
  - intros fileAnalyses allIssues. subst allIssues. simpl.
    rewrite performReview_collect_discovered.
    split; [|split].
    + apply (sort_sorted performReview_rank).
    + apply (sort_perm performReview_rank).
    + intros s. apply performReview_sort_filter.
  - intros analysis allIssues. subst allIssues. unfold ReviewCode.identifyIssues.
    rewrite reviewCode_collect_discovered.
    split; [|split].
    + apply (sort_sorted reviewCode_rank).
    + apply (sort_perm reviewCode_rank).
    + intros s. apply reviewCode_sort_filter.
  - simpl. lia.
Qed.

(** *** The first implementation never reports an INFO issue *)


Lemma pattern_step_pushed (content : jsstr) (issues : list PerformReview.issue)
      (rule : PerformReview.pattern_rule) :
  PerformReview.pattern_step content issues rule =
  issues ++ map (PerformReview.match_issue content rule)
                (matchAll (PerformReview.ignoreCase rule) (PerformReview.pattern rule) content).
Proof. unfold PerformReview.pattern_step, PerformReview.push. apply fold_left_push_map. Qed.

Lemma pattern_issues_flat_map (content : jsstr) :
  PerformReview.pattern_issues content =
  flat_map (fun rule =>
              map (PerformReview.match_issue content rule)
                  (matchAll (PerformReview.ignoreCase rule)
                            (PerformReview.pattern rule) content))
           PerformReview.patterns.
Proof.
  unfold PerformReview.pattern_issues.
  rewrite (fold_left_ext _ _ (pattern_step_pushed content)).
  now rewrite fold_left_app_flat_map.
Qed.

Lemma rule_severity_not_info (rule : PerformReview.pattern_rule) :
  In rule PerformReview.patterns ->
  PerformReview.rule_severity rule <> PerformReview.INFO.
Proof.
  unfold PerformReview.patterns. simpl.
  intros [<-|[<-|[<-|[<-|[<-|[]]]]]]; simpl; discriminate.
Qed.

Lemma pattern_issues_not_info (content : jsstr) :
  Forall not_info (PerformReview.pattern_issues content).
Proof.
  rewrite pattern_issues_flat_map, Forall_forall.
  intros i Hi. apply in_flat_map in Hi. destruct Hi as (rule & Hr & Hi).
  apply in_map_iff in Hi. destruct Hi as (m & <- & _).
  now apply rule_severity_not_info.
Qed.

Lemma static_issues_not_info (fi : PerformReview.fileInfo) :
  Forall not_info (PerformReview.issues (PerformReview.performStaticAnalysis fi)).
Proof.
  unfold PerformReview.performStaticAnalysis. simpl.
  unfold PerformReview.semicolon_check.
  pose proof (pattern_issues_not_info (PerformReview.content fi)) as H.
  destruct (_ || _); [|exact H].
  destruct (PerformReview.gt_times_0_3 _ _); [|exact H].
  unfold PerformReview.push. apply Forall_app. split; [exact H|].
  constructor; [discriminate | constructor].
Qed.

Lemma analyzeFile_not_info (f : PerformReview.disk_file) (l : list PerformReview.issue) :
  PerformReview.analysis_issues (PerformReview.analyzeFile f) = Some l ->
  Forall not_info l.
Proof.
  unfold PerformReview.analyzeFile.
  destruct (PerformReview.df_read f) as [e|[content size]]; [discriminate|].
  destruct (50000 <? _)%Z; [discriminate|].
  simpl. intros [= <-]. apply static_issues_not_info.
Qed.

Lemma discovered_not_info (filesToReview : list PerformReview.disk_file) :
  Forall (fun i => not_info (PerformReview.the_issue i))
         (performReview_discovered (map PerformReview.analyzeFile filesToReview)).
Proof.
  unfold performReview_discovered.
  rewrite Forall_forall. intros i Hi.
  apply in_flat_map in Hi. destruct Hi as (a & Ha & Hi).
  apply in_map_iff in Ha. destruct Ha as (f & <- & _).
  unfold performReview_stamp in Hi.
  destruct (PerformReview.analysis_issues (PerformReview.analyzeFile f)) as [l|] eqn:E;
    [|contradiction].
  apply in_map_iff in Hi. destruct Hi as (j & <- & Hj). simpl.
  pose proof (analyzeFile_not_info f E) as H.
  rewrite Forall_forall in H. now apply H.
Qed.

Lemma four_severities_cover (l : list PerformReview.filed) :
  Forall (fun i => not_info (PerformReview.the_issue i)) l ->
  List.length (filter (PerformReview.has_severity PerformReview.CRITICAL) l) +
  List.length (filter (PerformReview.has_severity PerformReview.HIGH) l) +
  List.length (filter (PerformReview.has_severity PerformReview.MEDIUM) l) +
  List.length (filter (PerformReview.has_severity PerformReview.LOW) l) =
  List.length l.
Proof.
  induction 1 as [|i l Hi _ IH]; [reflexivity|].
  unfold not_info in Hi. cbv beta in Hi.
  unfold PerformReview.has_severity in *. simpl.
  destruct (PerformReview.severity_of (PerformReview.the_issue i));
    simpl; try lia. congruence.
Qed.

Lemma stats_cover (l : list ReviewCode.filed) :
  List.length (filter (ReviewCode.has_severity ReviewCode.high) l) +
  List.length (filter (ReviewCode.has_severity ReviewCode.medium) l) +
  List.length (filter (ReviewCode.has_severity ReviewCode.low) l) +
  List.length (filter (ReviewCode.has_severity ReviewCode.info) l) =
  List.length l.
Proof.
  induction l as [|i l IH]; [reflexivity|].
  unfold ReviewCode.has_severity in *. simpl.
  destruct (ReviewCode.severity_of (ReviewCode.the_issue i)); simpl; lia.
Qed.

(** *** Grouping in an insertion-ordered object *)

Lemma assoc_update_group {K V : Type} (eqb : K -> K -> bool) (k : K)
      (f : option (list V) -> list V) (m : list (K * list V)) :
  (forall o, List.length (f o) =
             S (match o with Some l => List.length l | None => 0 end)) ->
  sum_nat (map (fun e => List.length (snd e)) (assoc_update eqb k f m)) =
  S (sum_nat (map (fun e => List.length (snd e)) m)).
Proof.
  intros Hf.
  induction m as [|[k' v] m IH]; simpl.
  - rewrite (Hf None). lia.
  - destruct (eqb k k'); simpl.
    + rewrite (Hf (Some v)). lia.
    + rewrite IH. lia.
Qed.

Lemma assoc_update_count {K : Type} (eqb : K -> K -> bool) (k : K)
      (f : option Z -> Z) (m : list (K * Z)) :
  (forall o, f o = (match o with Some n => n | None => 0 end + 1)%Z) ->
  sum_Z (map snd (assoc_update eqb k f m)) = (sum_Z (map snd m) + 1)%Z.
Proof.
  intros Hf.
  induction m as [|[k' v] m IH]; simpl.
  - rewrite (Hf None). lia.
  - destruct (eqb k k'); simpl.
    + rewrite (Hf (Some v)). lia.
    + rewrite IH. lia.
Qed.

Lemma byCategory_sizes (issues : list ReviewCode.filed) :
  sum_nat (map (fun e => List.length (snd e)) (ReviewCode.byCategory issues)) =
  List.length issues.
Proof.
  unfold ReviewCode.byCategory.
  assert (G : forall l acc,
             sum_nat (map (fun e : ReviewCode.category * list ReviewCode.filed =>
                             List.length (snd e))
                          (fold_left
                             (fun acc i =>
                                assoc_update ReviewCode.category_eqb
                                  (ReviewCode.category_of (ReviewCode.the_issue i))
                                  (fun o => match o with
                                            | Some l => ReviewCode.push l i
                                            | None => ReviewCode.push [] i
                                            end) acc) l acc)) =
             sum_nat (map (fun e => List.length (snd e)) acc) + List.length l).
  { induction l as [|i l IH]; intros acc; simpl; [lia|].
    rewrite IH, assoc_update_group; [lia|].
    intros [v|]; unfold ReviewCode.push; rewrite length_app; simpl; lia. }
  now rewrite G.
Qed.

Lemma bySeverity_counts (issues : list ReviewCode.filed) :
  sum_Z (map snd (ReviewCode.bySeverity issues)) = Z.of_nat (List.length issues).
Proof.
  unfold ReviewCode.bySeverity.
  assert (G : forall l acc,
             sum_Z (map snd
                        (fold_left
                           (fun acc (i : ReviewCode.filed) =>
                              assoc_update ReviewCode.severity_eqb
                                (ReviewCode.severity_of (ReviewCode.the_issue i))
                                (fun o => match o with
                                          | Some n => n + 1
                                          | None => 0 + 1
                                          end)%Z acc) l acc)) =
             (sum_Z (map snd acc) + Z.of_nat (List.length l))%Z).
  { induction l as [|i l IH]; intros acc; [simpl; lia|].
    cbn [fold_left]. rewrite IH, assoc_update_count.
    - simpl List.length. lia.
    - now intros [n|]. }
  now rewrite G.
Qed.

(** C3. The per-severity counts of a report add up to its total number of
    issues (the four counts of [summary] in the first implementation, the
    four of [getStats] and the [bySeverity] tallies in the second), and the
    per-category counts of the second implementation's report add up to
    the total as well. *)
Theorem C3_counts_sum_to_total :
  (forall filesToReview : list PerformReview.disk_file,
     let r := PerformReview.reviewReport filesToReview in
     let s := PerformReview.report_summary r in
     PerformReview.criticalIssues s + PerformReview.highIssues s +
     PerformReview.mediumIssues s + PerformReview.lowIssues s =
     PerformReview.totalIssues s /\
     PerformReview.totalIssues s = List.length (PerformReview.report_issues r)) /\
  (forall issues : list ReviewCode.filed,
     let st := ReviewCode.getStats issues in
     ReviewCode.stat_high st + ReviewCode.stat_medium st +
     ReviewCode.stat_low st + ReviewCode.stat_info st = ReviewCode.total st /\
     ReviewCode.total st = List.length issues) /\
  (forall issues : list ReviewCode.filed,
     sum_Z (map snd (ReviewCode.bySeverity issues)) = Z.of_nat (List.length issues)) /\
  (forall issues : list ReviewCode.filed,
     sum_nat (map snd (ReviewCode.categoryCounts issues)) = List.length issues).
Proof.
  split; [|split; [|split]].
  - intros filesToReview r s. subst s r.
    unfold PerformReview.reviewReport, PerformReview.generateReviewReport. simpl.
    split; [|reflexivity].
    rewrite !performReview_sort_filter, performReview_collect_discovered.
    rewrite <- (Permutation_length (sort_perm performReview_rank _)).
    apply four_severities_cover, discovered_not_info.
  - intros issues st. subst st. simpl. split; [apply stats_cover | reflexivity].
  - apply bySeverity_counts.
  - intros issues. unfold ReviewCode.categoryCounts.
    rewrite map_map. simpl. apply byCategory_sizes.
Qed.

(** ** The maintainability score *)

Lemma Qlt_bool_dec (x y : Q) :
  PerformReview.Qlt_bool x y = if Qlt_le_dec x y then true else false.
Proof.
  unfold PerformReview.Qlt_bool.
  destruct (Qlt_le_dec x y) as [H|H].
  - destruct (Qle_bool y x) eqn:E; [|reflexivity].
    apply Qle_bool_iff in E. now apply Qlt_not_le in H.
  - apply Qle_bool_iff in H. now rewrite H.
Qed.

(** C9. The maintainability score of a file is the score of the
    specification: 10, minus 2 above 500 lines and 3 more above 1000, minus
    2 when the comment-line ratio is below 0.10 and plus 1 when it is above
    0.30, minus 1 when the average line length exceeds 120 and 2 more when
    it exceeds 200, clamped to the integers from 1 to 10. *)
Theorem C9_maintainability_score (content : jsstr) (fi : PerformReview.fileInfo) :
  let m := PerformReview.assessMaintainability content fi in
  PerformReview.score m =
    maintainability_score_spec (Z.of_nat (PerformReview.lines fi))
                               (PerformReview.commentRatio m)
                               (PerformReview.avgLineLength m) /\
  (1 <= PerformReview.score m <= 10)%Z /\
  PerformReview.commentRatio m =
    PerformReview.quotient
      (List.length (filter PerformReview.is_comment_line (split_lines content)))
      (List.length (split_lines content)) /\
  PerformReview.avgLineLength m =
    PerformReview.quotient (List.length content) (List.length (split_lines content)).
Proof.
  intros m. subst m. unfold PerformReview.assessMaintainability.
  cbn [PerformReview.score PerformReview.commentRatio PerformReview.avgLineLength].
  split; [|split; [lia | split; reflexivity]].
  unfold maintainability_score_spec, size_penalty, comment_adjustment,
    length_penalty, clamp.
  rewrite !Qlt_bool_dec.
  set (ratio := PerformReview.quotient (List.length (filter _ _)) _).
  set (avg := PerformReview.quotient (List.length content) _).
  destruct (500 <? Z.of_nat (PerformReview.lines fi))%Z,
           (1000 <? Z.of_nat (PerformReview.lines fi))%Z,
           (Qlt_le_dec ratio (1 # 10)), (Qlt_le_dec (3 # 10) ratio),
           (Qlt_le_dec (120 # 1) avg), (Qlt_le_dec (200 # 1) avg);
    reflexivity.
Qed.

(** ** The matcher finds what the patterns describe *)

Lemma extends_refl (c : cursor) : extends c c.
Proof. exists []. split; simpl; [reflexivity | lia]. Qed.

Lemma extends_trans (c1 c2 c3 : cursor) :
  extends c1 c2 -> extends c2 c3 -> extends c1 c3.
Proof.
  intros (w1 & H1 & P1) (w2 & H2 & P2). exists (w1 ++ w2). split.
  - now rewrite H1, H2, app_assoc.
  - rewrite length_app. lia.
Qed.

Lemma extends_step (c : cursor) (x : ascii) (xs : jsstr) :
  rest c = x :: xs -> extends c (step_over c x xs).
Proof. intros H. exists [x]. split; simpl; [exact H | lia]. Qed.

Create HintDb regex.

#[local] Hint Resolve extends_refl extends_step : regex.

Lemma derives_extends (ci : bool) (r : regex) (c c' : cursor) :
  derives ci r c c' -> extends c c'.
Proof.
  induction 1; eauto using extends_trans with regex.
Qed.

Lemma rmatch_sound (ci : bool) (r : regex) :
  forall c k e,
    rmatch ci r c k = Some e ->
    exists c', derives ci r c c' /\ k c' = Some e.
Proof.
  induction r as [| a | p | | | r1 IH1 r2 IH2 | r1 IH1 r2 IH2 | r1 IH1];
    intros c k e H; simpl in H.
  - exists c. split; [constructor | exact H].
  - destruct (rest c) as [|x xs] eqn:E; [discriminate|].
    destruct (chr_eq ci a x) eqn:Ea; [|discriminate].
    exists (step_over c x xs). split; [now constructor | exact H].
  - destruct (rest c) as [|x xs] eqn:E; [discriminate|].
    destruct (p x) eqn:Ep; [|discriminate].
    exists (step_over c x xs). split; [now constructor | exact H].
  - destruct (pos c =? 0) eqn:E; [|discriminate].
    apply Nat.eqb_eq in E. exists c. split; [now constructor | exact H].
  - destruct (xorb _ _) eqn:E; [|discriminate].
    exists c. split; [now constructor | exact H].
  - apply IH1 in H. destruct H as (c1 & D1 & H).
    apply IH2 in H. destruct H as (c2 & D2 & H).
    exists c2. split; [econstructor; eassumption | exact H].
  - destruct (rmatch ci r1 c k) as [e1|] eqn:E1.
    + injection H as <-. apply IH1 in E1. destruct E1 as (c1 & D1 & H).
      exists c1. split; [now apply derives_alt_l | exact H].
    + apply IH2 in H. destruct H as (c1 & D1 & H).
      exists c1. split; [now apply derives_alt_r | exact H].
  - revert H. generalize (List.length (rest c)). intros fuel. revert c.
    induction fuel as [|fuel IHf]; intros c H.
    + exists c. split; [constructor | exact H].
    + match type of H with
      | match ?m with _ => _ end = _ => destruct m as [e1|] eqn:E1
      end.
      * injection H as <-. apply IH1 in E1. destruct E1 as (c1 & D1 & H).
        destruct (pos c1 =? pos c) eqn:Ep; [discriminate|].
        apply Nat.eqb_neq in Ep.
        apply IHf in H. destruct H as (c2 & D2 & H).
        exists c2. split; [econstructor; eassumption | exact H].
      * exists c. split; [constructor | exact H].
Qed.

Lemma search_from_sound (ci : bool) (r : regex) (s : jsstr) :
  forall p pv b e,
    search_from ci r p pv s = Some (b, e) ->
    extends (mkCur p pv s) b /\ derives ci r b e.
Proof.
  induction s as [|x xs IH]; intros p pv b e H; simpl in H.
  - destruct (rmatch ci r (mkCur p pv []) Some) as [e1|] eqn:E; [|discriminate].
    injection H as <- <-. apply rmatch_sound in E.
    destruct E as (c' & D & [= ->]). split; [apply extends_refl | exact D].
  - destruct (rmatch ci r (mkCur p pv (x :: xs)) Some) as [e1|] eqn:E.
    + injection H as <- <-. apply rmatch_sound in E.
      destruct E as (c' & D & [= ->]). split; [apply extends_refl | exact D].
    + apply IH in H. destruct H as [X D]. split; [|exact D].
      eapply extends_trans; [|exact X].
      exists [x]. split; simpl; [reflexivity | lia].
Qed.

Lemma search_sound (ci : bool) (r : regex) (c b e : cursor) :
  search ci r c = Some (b, e) -> extends c b /\ derives ci r b e.
Proof.
  unfold search. intros H. apply search_from_sound in H.
  now destruct c.
Qed.

Lemma cursor_from_extends (i : nat) :
  forall c c', cursor_from c i = Some c' -> extends c c'.
Proof.
  induction i as [|i IH]; intros c c' H; simpl in H.
  - injection H as <-. apply extends_refl.
  - destruct (rest c) as [|x xs] eqn:E; [discriminate|].
    apply IH in H. eapply extends_trans; [|exact H]. now apply extends_step.
Qed.

Lemma matches_from_sound (ci : bool) (r : regex) (fuel : nat) :
  forall c b e,
    In (b, e) (matches_from fuel ci r c) ->
    extends c b /\ derives ci r b e.
Proof.
  induction fuel as [|fuel IH]; intros c b e H; simpl in H; [contradiction|].
  destruct (search ci r c) as [[b1 e1]|] eqn:E; [|contradiction].
  apply search_sound in E. destruct E as [X D].
  destruct H as [[= <- <-] | H]; [now split|].
  assert (Xe : extends c e1)
    by (eapply extends_trans; [exact X | eapply derives_extends; exact D]).
  destruct (pos e1 =? pos b1).
  - destruct (rest e1) as [|x xs] eqn:Er; [contradiction|].
    apply IH in H. destruct H as [X' D']. split; [|exact D'].
    eapply extends_trans; [exact Xe|].
    eapply extends_trans; [|exact X']. now apply extends_step.
  - apply IH in H. destruct H as [X' D']. split; [|exact D'].
    eapply extends_trans; eassumption.
Qed.

(** A match of a text lies inside the text: it starts at [pos b], is
    [matched (b, e)] long and reads the code units found there. *)
Lemma matchAll_located (ci : bool) (r : regex) (s : jsstr) (b e : cursor) :
  In (b, e) (matchAll ci r s) ->
  pos b + List.length (matched (b, e)) <= List.length s /\
  firstn (List.length (matched (b, e))) (skipn (pos b) s) = matched (b, e).
Proof.
  unfold matchAll. intros H. apply matches_from_sound in H.
  destruct H as [(w & Hw & Pw) D]. apply derives_extends in D.
  destruct D as (w' & Hw' & Pw'). simpl in Hw, Pw.
  unfold matched. simpl.
  replace (pos e - pos b) with (List.length w') by lia.
  rewrite Hw'. rewrite firstn_app, Nat.sub_diag, firstn_all. simpl.
  rewrite app_nil_r. subst s. rewrite Hw', !length_app. split; [lia|].
  rewrite Pw, skipn_app, Nat.sub_diag, skipn_all. simpl.
  now rewrite firstn_app, Nat.sub_diag, firstn_all, app_nil_r.
Qed.

Lemma ahead_trans (w1 w2 : jsstr) (c c1 c2 : cursor) :
  ahead w1 c c1 -> ahead w2 c1 c2 -> ahead (w1 ++ w2) c c2.
Proof.
  intros [H1 P1] [H2 P2]. split.
  - now rewrite H1, H2, app_assoc.
  - rewrite length_app. lia.
Qed.

Lemma ahead_matched (w : jsstr) (b e : cursor) : ahead w b e -> matched (b, e) = w.
Proof.
  intros [H P]. unfold matched. cbn [fst snd].
  replace (pos e - pos b) with (List.length w + 0) by lia.
  now rewrite H, firstn_app_2, app_nil_r.
Qed.





(** ** Static analysis reads the first 10000 code units *)

Lemma firstn_skipn_prefix {A : Type} (k i n : nat) (l : list A) :
  i + k <= n -> firstn k (skipn i (firstn n l)) = firstn k (skipn i l).
Proof.
  intros H. rewrite skipn_firstn_comm, firstn_firstn.
  f_equal. lia.
Qed.

Lemma pattern_issue_located (n : nat) (content : jsstr) (i : PerformReview.issue) :
  In i (PerformReview.pattern_issues (firstn n content)) ->
  exists idx w,
    PerformReview.code i = Some w /\
    idx + List.length w <= n /\
    idx + List.length w <= List.length content /\
    firstn (List.length w) (skipn idx content) = w /\
    PerformReview.line i = List.length (split_lines (firstn idx content)) /\
    PerformReview.column i =
      List.length (last (split_lines (firstn idx content)) []) + 1.
Proof.
  rewrite pattern_issues_flat_map. intros H.
  apply in_flat_map in H. destruct H as (rule & _ & H).
  apply in_map_iff in H. destruct H as ([b e] & <- & H).
  apply matchAll_located in H. destruct H as [Hlen Hsub].
  pose proof (length_firstn n content) as Hn.
  exists (pos b), (matched (b, e)).
  assert (Hb : pos b <= n) by lia.
  unfold PerformReview.match_issue, slice0. simpl fst.
  cbn [PerformReview.code PerformReview.line PerformReview.column].
  rewrite firstn_firstn, (Nat.min_l _ _ Hb).
  repeat split; try reflexivity; try lia.
  rewrite <- Hsub at 2. symmetry. apply firstn_skipn_prefix. lia.
Qed.

(** C10. In the first implementation the text handed to static analysis is
    the first 10000 code units of the file, while [lines] and [size]
    describe the whole file: every pattern finding reads a match that lies
    within that prefix, texts with the same prefix get the same pattern
    findings, and an [eval(] that starts at offset 10000 is not found. *)
Theorem C10_static_analysis_reads_prefix :
  (forall (f : PerformReview.disk_file) (content : jsstr) (size : Z),
     PerformReview.df_read f = inr (content, size) ->
     (Z.of_nat (List.length content) <= 50000)%Z ->
     let fi := fileInfo_of f content size in
     PerformReview.analyzeFile f =
       PerformReview.Analyzed fi (PerformReview.performStaticAnalysis fi) /\
     PerformReview.lines fi = List.length (split_lines content) /\
     PerformReview.size fi = size /\
     PerformReview.content fi = firstn (Z.to_nat 10000) content /\
     PerformReview.issues (PerformReview.performStaticAnalysis fi) =
       PerformReview.semicolon_check fi
         (PerformReview.pattern_issues (firstn (Z.to_nat 10000) content)) /\
     forall i,
       In i (PerformReview.pattern_issues (firstn (Z.to_nat 10000) content)) ->
       exists idx w,
         PerformReview.code i = Some w /\
         (Z.of_nat (idx + List.length w) <= 10000)%Z /\
         idx + List.length w <= List.length content /\
         firstn (List.length w) (skipn idx content) = w /\
         PerformReview.line i = List.length (split_lines (firstn idx content)) /\
         PerformReview.column i =
           List.length (last (split_lines (firstn idx content)) []) + 1) /\
  (forall c1 c2 : jsstr,
     firstn (Z.to_nat 10000) c1 = firstn (Z.to_nat 10000) c2 ->
     PerformReview.pattern_issues (firstn (Z.to_nat 10000) c1) =
     PerformReview.pattern_issues (firstn (Z.to_nat 10000) c2)) /\
  (PerformReview.analysis_issues (PerformReview.analyzeFile late_eval_file) = Some [] /\
   PerformReview.analysis_issues (PerformReview.analyzeFile straddling_eval_file) = Some [] /\
   option_map (map PerformReview.line)
     (PerformReview.analysis_issues (PerformReview.analyzeFile early_eval_file)) = Some [1] /\
   option_map (map (fun i => Z.of_nat (PerformReview.column i)))
     (PerformReview.analysis_issues (PerformReview.analyzeFile early_eval_file)) =
     Some [9993%Z]).
Proof.
  split; [|split].
  - intros f content size Hread Hsize fi.
    unfold PerformReview.analyzeFile. rewrite Hread.
    destruct (50000 <? Z.of_nat (List.length content))%Z eqn:E;
      [apply Z.ltb_lt in E; lia|].
    repeat split.
    intros i Hi. apply pattern_issue_located in Hi.
    destruct Hi as (idx & w & H1 & H2 & H3 & H4 & H5 & H6).
    exists idx, w. repeat split; try assumption. lia.
  - intros c1 c2 E. now rewrite E.
  - repeat split; vm_compute; reflexivity.
Qed.

Lemma C10_static_analysis_reads_prefix_witness :
  exists sa,
    PerformReview.analyzeFile late_eval_file =
      PerformReview.Analyzed (fileInfo_of late_eval_file late_eval 10007) sa /\
    PerformReview.lines (fileInfo_of late_eval_file late_eval 10007) = 1.
Proof.
  destruct C10_static_analysis_reads_prefix as [H _].
  destruct (H late_eval_file late_eval 10007%Z) as (E & L & _).
  - reflexivity.
  - vm_compute. discriminate.
  - eexists. split; [exact E|]. vm_compute. reflexivity.
Defined.

(** ** The size ceiling *)

(** C5 fails in the second implementation: [analyzeFiles] has no size
    ceiling; a text of 50001 code units is scanned and its [console.log] is
    reported, and the analysis carries no skipped marker. *)
Lemma C5_counterexample_analyzeFiles_has_no_ceiling :
  (50000 < Z.of_nat (List.length oversized))%Z /\
  map ReviewCode.fa_issues
      (ReviewCode.analyzeFiles [(str "vendor.js", Some oversized)]) =
  [[ReviewCode.debug_issue 0]].
Proof. split; vm_compute; reflexivity. Qed.

(** C5, as it holds on the code.  In the first implementation a file whose text exceeds
    50000 code units yields the skipped record, whatever the text is:
    the record has no issues property, the report counts zero issues for it
    and marks it skipped, nothing is added to the collected issues, and
    static analysis is not run on it. *)
Theorem C5_oversized_file_is_skipped
        (f : PerformReview.disk_file) (content : jsstr) (size : Z) :
  PerformReview.df_read f = inr (content, size) ->
  (50000 < Z.of_nat (List.length content))%Z ->
  let a := PerformReview.analyzeFile f in
  a = PerformReview.Skipped (PerformReview.df_path f) (str "File too large for review") /\
  PerformReview.analysis_skipped a = true /\
  PerformReview.analysis_issues a = None /\
  PerformReview.fs_issues (PerformReview.summarize a) = 0 /\
  PerformReview.fs_skipped (PerformReview.summarize a) = true /\
  (forall allIssues, PerformReview.collect_step allIssues a = allIssues) /\
  (forall fi sa, a <> PerformReview.Analyzed fi sa).
Proof.
  intros Hread Hsize a. subst a.
  unfold PerformReview.analyzeFile. rewrite Hread.
  apply Z.ltb_lt in Hsize. rewrite Hsize.
  repeat split. intros fi sa. discriminate.
Qed.

Lemma C5_oversized_file_is_skipped_witness :
  PerformReview.analyzeFile oversized_file =
  PerformReview.Skipped (str "vendor.js") (str "File too large for review").
Proof.
  refine (proj1 (C5_oversized_file_is_skipped oversized_file
                   (content := oversized) (size := 50001%Z) _ _)).
  - reflexivity.
  - vm_compute. reflexivity.
Defined.

(** ** The line scans of the second implementation, line by line *)

Lemma fold_left_cond_push {A B : Type} (c : A -> bool) (h : A -> B)
      (l : list A) (acc : list B) :
  fold_left (fun acc x => if c x then acc ++ [h x] else acc) l acc =
  acc ++ flat_map (fun x => if c x then [h x] else []) l.
Proof.
  revert acc. induction l as [|x l IH]; intros acc; simpl.
  - now rewrite app_nil_r.
  - rewrite IH. destruct (c x); simpl; [now rewrite <- app_assoc | reflexivity].
Qed.

Lemma console_log_step_pushes (st : list ReviewCode.issue) (i : nat) (x : jsstr) :
  ReviewCode.console_log_step st i x = st ++ console_log_pushes i x.
Proof.
  unfold ReviewCode.console_log_step, console_log_pushes, ReviewCode.push.
  destruct (_ && _); [reflexivity | now rewrite app_nil_r].
Qed.

Lemma todo_step_pushes (st : list ReviewCode.issue) (i : nat) (x : jsstr) :
  ReviewCode.todo_step st i x = st ++ todo_pushes i x.
Proof.
  unfold ReviewCode.todo_step, todo_pushes, ReviewCode.push.
  destruct (_ || _); [reflexivity | now rewrite app_nil_r].
Qed.

Lemma secret_step_pushes (st : list ReviewCode.issue) (i : nat) (x : jsstr) :
  ReviewCode.secret_step st i x = st ++ secret_pushes i x.
Proof.
  unfold ReviewCode.secret_step, secret_pushes, ReviewCode.secret_pattern_step,
    ReviewCode.push.
  apply (fold_left_cond_push
           (fun pattern => test true pattern x && negb (includes (str "process.env") x))
           (fun _ => ReviewCode.secret_issue i)).
Qed.

Lemma sync_step_pushes (st : list ReviewCode.issue) (i : nat) (x : jsstr) :
  ReviewCode.sync_step st i x = st ++ sync_pushes i x.
Proof.
  unfold ReviewCode.sync_step, sync_pushes, ReviewCode.sync_method_step,
    ReviewCode.push.
  apply (fold_left_cond_push
           (fun method => includes method x && negb (startsWith (str "//") (trim x)))
           (fun method => ReviewCode.sync_issue i method)).
Qed.

Lemma magic_step_pushes (st : list ReviewCode.issue) (i : nat) (x : jsstr) :
  ReviewCode.magic_step st i x = st ++ magic_pushes i x.
Proof.
  unfold ReviewCode.magic_step, magic_pushes, ReviewCode.magic_number_step,
    ReviewCode.push.
  destruct (match_g false ReviewCode.magicRegex x) as [|n ns] eqn:E.
  - destruct (negb _); simpl; now rewrite app_nil_r.
  - destruct (negb _); [|now rewrite app_nil_r].
    apply (fold_left_cond_push
             (fun num => (1 <? parseInt_digits num)%Z &&
                         negb (parseInt_digits num =? 100)%Z &&
                         negb (parseInt_digits num =? 1000)%Z)
             (fun num => ReviewCode.magic_issue i num)).
Qed.

Lemma params_step_pushes (st : list ReviewCode.issue) (i : nat) (x : jsstr) :
  ReviewCode.params_step st i x = st ++ params_pushes i x.
Proof.
  unfold ReviewCode.params_step, params_pushes, ReviewCode.params_match_step,
    ReviewCode.push.
  apply (fold_left_cond_push
           (fun m => 4 <? List.length (split_on "," m))
           (fun m => ReviewCode.params_issue i (List.length (split_on "," m)))).
Qed.

Lemma forEach_pushed {A B : Type} (f : list B -> nat -> A -> list B)
      (g : nat -> A -> list B) (l : list A) (st : list B) :
  (forall st i x, f st i x = st ++ g i x) ->
  forEach f l st = st ++ pushed_from g 0 l.
Proof. intros H. unfold forEach. now apply forEach_from_pushed. Qed.


Lemma filter_nothing {B : Type} (p : B -> bool) (l : list B) :
  Forall (fun y => p y = false) l -> filter p l = [].
Proof.
  induction 1 as [|y l Hy _ IH]; simpl; [reflexivity|]. now rewrite Hy.
Qed.

Lemma Forall_pushed_from {A B : Type} (P : B -> Prop) (g : nat -> A -> list B) :
  (forall k x, Forall P (g k x)) ->
  forall l i, Forall P (pushed_from g i l).
Proof.
  intros Hg l. induction l as [|a l IH]; intros i; simpl; [constructor|].
  apply Forall_app. split; [apply Hg | apply IH].
Qed.

Lemma Forall_flat_map_cond {A B : Type} (P : B -> Prop) (c : A -> bool) (h : A -> B)
      (l : list A) :
  (forall x, P (h x)) ->
  Forall P (flat_map (fun x => if c x then [h x] else []) l).
Proof.
  intros Hh. induction l as [|x l IH]; simpl; [constructor|].
  apply Forall_app. split; [|exact IH].
  destruct (c x); repeat constructor. apply Hh.
Qed.

(** *** The category of what each check reports *)

Lemma checkSecurity_pushed (content : jsstr) :
  ReviewCode.checkSecurity content =
  pushed_from secret_pushes 0 (split_lines content) ++
  (if includes (str "eval(") content then [ReviewCode.eval_issue content] else []).
Proof.
  unfold ReviewCode.checkSecurity, ReviewCode.push.
  rewrite (forEach_pushed _ secret_pushes _ _ secret_step_pushes). cbn [app].
  destruct (includes (str "eval(") content); [reflexivity | now rewrite app_nil_r].
Qed.

Lemma checkMaintainability_pushed (content : jsstr) :
  ReviewCode.checkMaintainability content =
  pushed_from magic_pushes 0 (split_lines content) ++
  pushed_from params_pushes 0 (split_lines content).
Proof.
  unfold ReviewCode.checkMaintainability.
  rewrite (forEach_pushed _ params_pushes _ _ params_step_pushes).
  now rewrite (forEach_pushed _ magic_pushes _ _ magic_step_pushes).
Qed.

Lemma checkSecurity_category (content : jsstr) :
  Forall (fun y => ReviewCode.category_of y = ReviewCode.Security)
         (ReviewCode.checkSecurity content).
Proof.
  rewrite checkSecurity_pushed. apply Forall_app. split.
  - apply Forall_pushed_from. intros k x. unfold secret_pushes.
    now apply Forall_flat_map_cond.
  - destruct (includes _ _); repeat constructor.
Qed.

Lemma checkMaintainability_category (content : jsstr) :
  Forall (fun y => ReviewCode.category_of y = ReviewCode.Maintainability)
         (ReviewCode.checkMaintainability content).
Proof.
  rewrite checkMaintainability_pushed. apply Forall_app. split.
  - apply Forall_pushed_from. intros k x. unfold magic_pushes.
    destruct (negb _); [|constructor].
    now apply (Forall_flat_map_cond _
                 (fun num => (1 <? parseInt_digits num)%Z &&
                             negb (parseInt_digits num =? 100)%Z &&
                             negb (parseInt_digits num =? 1000)%Z)
                 (fun num => ReviewCode.magic_issue k num)).
  - apply Forall_pushed_from. intros k x. unfold params_pushes.
    now apply (Forall_flat_map_cond _
                 (fun m => 4 <? List.length (split_on "," m))
                 (fun m => ReviewCode.params_issue k (List.length (split_on "," m)))).
Qed.

Lemma checkPerformance_category (content : jsstr) :
  Forall (fun y => ReviewCode.category_of y = ReviewCode.Performance)
         (ReviewCode.checkPerformance content).
Proof.
  unfold ReviewCode.checkPerformance.
  apply (forEach_invariant ReviewCode.loop_step
           (fun st => Forall (fun y => ReviewCode.category_of y = ReviewCode.Performance)
                             (snd st))).
  - intros [d iss] i x H. simpl in H. unfold ReviewCode.loop_step.
    destruct (ReviewCode.is_loop_line x), (ReviewCode.has_closing_brace x); simpl;
      try exact H;
      (destruct (2 <? d + 1)%Z; [|exact H]);
      unfold ReviewCode.push; apply Forall_app; split; try exact H;
      repeat constructor.
  - simpl. rewrite (forEach_pushed _ sync_pushes _ _ sync_step_pushes). simpl.
    apply Forall_pushed_from. intros k x. unfold sync_pushes.
    now apply (Forall_flat_map_cond _
                 (fun method => includes method x && negb (startsWith (str "//") (trim x)))
                 (fun method => ReviewCode.sync_issue k method)).
Qed.

Lemma declaration_step_issues (st : ReviewCode.span_state) (i : nat) (x : jsstr) :
  ReviewCode.issues (ReviewCode.declaration_step st i x) = ReviewCode.issues st.
Proof.
  unfold ReviewCode.declaration_step.
  destruct (test_g false ReviewCode.functionRegex (ReviewCode.lastIndex st) x)
    as [[|] li]; reflexivity.
Qed.

Lemma brace_step_issues (st : ReviewCode.span_state) (i : nat) (x : jsstr) :
  exists extra,
    ReviewCode.issues (ReviewCode.brace_step st i x) = ReviewCode.issues st ++ extra /\
    Forall (fun y => ReviewCode.category_of y = ReviewCode.CodeComplexity) extra.
Proof.
  unfold ReviewCode.brace_step.
  destruct (ReviewCode.truthy (ReviewCode.currentFunction st)).
  - cbv zeta. destruct (_ && _); cbn [ReviewCode.issues].
    + eexists. split; [reflexivity | repeat constructor].
    + exists []. split; [now rewrite app_nil_r | constructor].
  - exists []. split; [now rewrite app_nil_r | constructor].
Qed.

Lemma long_function_scan_issues (lines : list jsstr) (issues0 : list ReviewCode.issue) :
  exists added,
    ReviewCode.issues (ReviewCode.long_function_scan lines issues0) = issues0 ++ added /\
    Forall (fun y => ReviewCode.category_of y = ReviewCode.CodeComplexity) added.
Proof.
  unfold ReviewCode.long_function_scan.
  apply (forEach_invariant ReviewCode.long_function_step
           (fun st => exists added,
                ReviewCode.issues st = issues0 ++ added /\
                Forall (fun y => ReviewCode.category_of y = ReviewCode.CodeComplexity)
                       added)).
  - intros st i x (added & E & F). unfold ReviewCode.long_function_step.
    destruct (brace_step_issues (ReviewCode.declaration_step st i x) i x)
      as (extra & E' & F').
    rewrite declaration_step_issues, E in E'.
    exists (added ++ extra). split; [now rewrite E', app_assoc|].
    apply Forall_app. now split.
  - exists []. split; [now rewrite app_nil_r | constructor].
Qed.

Lemma checkCommonIssues_pushed (content : jsstr) :
  exists added,
    ReviewCode.checkCommonIssues content =
      pushed_from console_log_pushes 0 (split_lines content) ++
      pushed_from todo_pushes 0 (split_lines content) ++ added /\
    Forall (fun y => ReviewCode.category_of y = ReviewCode.CodeComplexity) added.
Proof.
  unfold ReviewCode.checkCommonIssues.
  destruct (long_function_scan_issues (split_lines content)
              (forEach ReviewCode.todo_step (split_lines content)
                 (forEach ReviewCode.console_log_step (split_lines content) [])))
    as (added & E & F).
  exists added. split; [|exact F].
  cbv zeta. rewrite E.
  rewrite (forEach_pushed _ todo_pushes _ _ todo_step_pushes).
  rewrite (forEach_pushed _ console_log_pushes _ _ console_log_step_pushes).
  simpl. now rewrite <- app_assoc.
Qed.

Lemma checkCommonIssues_category (content : jsstr) :
  Forall (fun y => ReviewCode.category_of y = ReviewCode.DebugCode \/
                   ReviewCode.category_of y = ReviewCode.TodoFixme \/
                   ReviewCode.category_of y = ReviewCode.CodeComplexity)
         (ReviewCode.checkCommonIssues content).
Proof.
  destruct (checkCommonIssues_pushed content) as (added & -> & F).
  repeat (apply Forall_app; split).
  - apply Forall_pushed_from. intros k x. unfold console_log_pushes.
    destruct (_ && _); [constructor; [now left | constructor] | constructor].
  - apply Forall_pushed_from. intros k x. unfold todo_pushes.
    destruct (_ || _); [constructor; [right; now left | constructor] | constructor].
  - eapply Forall_impl; [|exact F]. simpl. intros y Hy. right. now right.
Qed.

(** ** Hard-coded secrets *)

Lemma findIndex_found {A : Type} (p : A -> bool) (l : list A) :
  forall k, findIndex p l = Z.of_nat k ->
            exists x, nth_error l k = Some x /\ p x = true.
Proof.
  induction l as [|a l IH]; intros k H; simpl in H; [lia|].
  destruct (p a) eqn:Ea.
  - destruct k; [|lia]. exists a. now split.
  - destruct (findIndex p l <? 0)%Z eqn:E; [lia|].
    destruct k as [|k]; [apply Z.ltb_ge in E; lia|].
    destruct (IH k) as (x & Hx & Hp); [lia|].
    exists x. now split.
Qed.













(** ** Comments and suppression *)

Lemma in_analysis (file content : jsstr) (y : ReviewCode.issue) :
  In y (ReviewCode.fa_issues (ReviewCode.analyzeOne file content)) <->
  In y (ReviewCode.checkCommonIssues content) \/
  In y (ReviewCode.checkSecurity content) \/
  In y (ReviewCode.checkPerformance content) \/
  In y (ReviewCode.checkMaintainability content).
Proof.
  unfold ReviewCode.analyzeOne. cbn [ReviewCode.fa_issues].
  now rewrite !in_app_iff.
Qed.

Lemma in_category {P : ReviewCode.issue -> Prop} (l : list ReviewCode.issue)
      (y : ReviewCode.issue) :
  Forall P l -> In y l -> P y.
Proof. intros F H. rewrite Forall_forall in F. now apply F. Qed.

Arguments in_category {P l y} _ _.

Lemma in_analysis_security (file content : jsstr) (y : ReviewCode.issue) :
  ReviewCode.category_of y = ReviewCode.Security ->
  In y (ReviewCode.fa_issues (ReviewCode.analyzeOne file content)) <->
  In y (ReviewCode.checkSecurity content).
Proof.
  intros C. rewrite in_analysis. split; [|tauto].
  intros [H|[H|[H|H]]]; [| exact H | |].
  - apply (in_category (checkCommonIssues_category content)) in H.
    rewrite C in H. destruct H as [H|[H|H]]; discriminate.
  - apply (in_category (checkPerformance_category content)) in H.
    rewrite C in H. discriminate.
  - apply (in_category (checkMaintainability_category content)) in H.
    rewrite C in H. discriminate.
Qed.

Lemma in_analysis_debug (file content : jsstr) (y : ReviewCode.issue) :
  ReviewCode.category_of y = ReviewCode.DebugCode ->
  In y (ReviewCode.fa_issues (ReviewCode.analyzeOne file content)) <->
  In y (pushed_from console_log_pushes 0 (split_lines content)).
Proof.
  intros C. rewrite in_analysis.
  destruct (checkCommonIssues_pushed content) as (added & -> & F).
  rewrite !in_app_iff. split; [|tauto].
  intros [[H|[H|H]]|[H|[H|H]]]; [exact H | | | | |].
  - apply in_pushed_from in H. destruct H as (k & x & _ & H).
    unfold todo_pushes in H. destruct (_ || _); [|contradiction].
    destruct H as [<-|[]]. discriminate.
  - apply (in_category F) in H. rewrite C in H. discriminate.
  - apply (in_category (checkSecurity_category content)) in H.
    rewrite C in H. discriminate.
  - apply (in_category (checkPerformance_category content)) in H.
    rewrite C in H. discriminate.
  - apply (in_category (checkMaintainability_category content)) in H.
    rewrite C in H. discriminate.
Qed.

Lemma in_analysis_maintainability (file content : jsstr) (y : ReviewCode.issue) :
  ReviewCode.category_of y = ReviewCode.Maintainability ->
  In y (ReviewCode.fa_issues (ReviewCode.analyzeOne file content)) <->
  In y (ReviewCode.checkMaintainability content).
Proof.
  intros C. rewrite in_analysis. split; [|tauto].
  intros [H|[H|[H|H]]]; [| | | exact H].
  - apply (in_category (checkCommonIssues_category content)) in H.
    rewrite C in H. destruct H as [H|[H|H]]; discriminate.
  - apply (in_category (checkSecurity_category content)) in H.
    rewrite C in H. discriminate.
  - apply (in_category (checkPerformance_category content)) in H.
    rewrite C in H. discriminate.
Qed.

Lemma issue_line_inj (f : nat -> ReviewCode.issue) (k n : nat) :
  (forall i, ReviewCode.line (f i) = (Z.of_nat i + 1)%Z) ->
  f k = f n -> k = n.
Proof.
  intros L E. apply (f_equal ReviewCode.line) in E. rewrite !L in E. lia.
Qed.

Lemma secret_issue_found (file content line : jsstr) (index : nat) :
  nth_error (split_lines content) index = Some line ->
  In (ReviewCode.secret_issue index)
     (ReviewCode.fa_issues (ReviewCode.analyzeOne file content)) <->
  (exists pattern, In pattern ReviewCode.secretPatterns /\ test true pattern line = true) /\
  includes (str "process.env") line = false.
Proof.
  intros Hline. rewrite in_analysis_security by reflexivity.
  rewrite checkSecurity_pushed, in_app_iff, in_pushed_from. split.
  - intros [(k & x & Hx & H)|H].
    + unfold secret_pushes in H. apply in_flat_map in H.
      destruct H as (pattern & Hp & H).
      destruct (test true pattern x) eqn:Et; [|contradiction].
      destruct (includes (str "process.env") x) eqn:Ee; [contradiction|].
      destruct H as [H|[]].
      apply (issue_line_inj ReviewCode.secret_issue) in H; [|reflexivity].
      simpl in H. subst k. rewrite Hline in Hx. injection Hx as <-.
      split; [now exists pattern | exact Ee].
    + destruct (includes (str "eval(") content); [|contradiction].
      destruct H as [H|[]]. apply (f_equal ReviewCode.message) in H.
      vm_compute in H. discriminate H.
  - intros [(pattern & Hp & Ht) He]. left. exists index, line.
    split; [exact Hline|]. unfold secret_pushes. apply in_flat_map.
    exists pattern. split; [exact Hp|]. rewrite Ht, He. now left.
Qed.

Lemma debug_issue_found (file content line : jsstr) (index : nat) :
  nth_error (split_lines content) index = Some line ->
  In (ReviewCode.debug_issue index)
     (ReviewCode.fa_issues (ReviewCode.analyzeOne file content)) <->
  includes (str "console.log") line = true /\
  startsWith (str "//") (trim line) = false.
Proof.
  intros Hline. rewrite in_analysis_debug by reflexivity.
  rewrite in_pushed_from. split.
  - intros (k & x & Hx & H). unfold console_log_pushes in H.
    destruct (includes (str "console.log") x) eqn:Ei; [|contradiction].
    destruct (startsWith (str "//") (trim x)) eqn:Es; [contradiction|].
    destruct H as [H|[]].
    apply (issue_line_inj ReviewCode.debug_issue) in H; [|reflexivity].
    simpl in H. subst k. rewrite Hline in Hx. injection Hx as <-. now split.
  - intros [Hi Hs]. exists index, line. split; [exact Hline|].
    unfold console_log_pushes. rewrite Hi, Hs. now left.
Qed.

Lemma magic_issue_found (file content line num : jsstr) (index : nat) :
  nth_error (split_lines content) index = Some line ->
  In (ReviewCode.magic_issue index num)
     (ReviewCode.fa_issues (ReviewCode.analyzeOne file content)) ->
  startsWith (str "//") (trim line) = false.
Proof.
  intros Hline. rewrite in_analysis_maintainability by reflexivity.
  rewrite checkMaintainability_pushed, in_app_iff, !in_pushed_from.
  intros [(k & x & Hx & H)|(k & x & Hx & H)].
  - unfold magic_pushes in H.
    destruct (startsWith (str "//") (trim x)) eqn:Es; [contradiction|].
    apply in_flat_map in H. destruct H as (n & _ & H).
    destruct (_ && _); [|contradiction]. destruct H as [H|[]].
    apply (f_equal ReviewCode.line) in H. simpl in H.
    assert (k = index) by lia. subst k.
    rewrite Hline in Hx. now injection Hx as <-.
  - unfold params_pushes in H. apply in_flat_map in H.
    destruct H as (m & _ & H). destruct (4 <? _); [|contradiction].
    destruct H as [H|[]]. apply (f_equal ReviewCode.message) in H.
    unfold ReviewCode.params_issue, ReviewCode.magic_issue in H. simpl in H.
    discriminate H.
Qed.

Lemma Z_to_int_nonnil (z : Z) :
  Z.to_int z <> Decimal.Pos Decimal.Nil /\ Z.to_int z <> Decimal.Neg Decimal.Nil.
Proof.
  destruct z; simpl; split; try discriminate; intros [= E];
    now apply DecimalPos.Unsigned.to_uint_nonnil in E.
Qed.

Lemma Z_to_int_inj (a b : Z) : Z.to_int a = Z.to_int b -> a = b.
Proof.
  destruct a as [|p|p], b as [|q|q]; simpl; intros H;
    try discriminate H; try reflexivity; injection H as H.
  - symmetry in H. now apply DecimalPos.Unsigned.to_uint_nonzero in H.
  - now apply DecimalPos.Unsigned.to_uint_nonzero in H.
  - apply DecimalPos.Unsigned.to_uint_inj in H. now subst.
  - apply DecimalPos.Unsigned.to_uint_inj in H. now subst.
Qed.

(** Two integers with the same decimal rendering are equal. *)
Lemma show_Z_inj (a b : Z) : show_Z a = show_Z b -> a = b.
Proof.
  unfold show_Z, str. intros H.
  apply (f_equal string_of_list_ascii) in H.
  rewrite !string_of_list_ascii_of_string in H.
  apply (f_equal NilZero.int_of_string) in H.
  rewrite !NilZero.isi in H by apply Z_to_int_nonnil.
  injection H as H. now apply Z_to_int_inj.
Qed.

Lemma params_issue_inj (i j a b : nat) :
  ReviewCode.params_issue i a = ReviewCode.params_issue j b -> i = j /\ a = b.
Proof.
  intros H. split.
  - apply (f_equal ReviewCode.line) in H. simpl in H. lia.
  - apply (f_equal ReviewCode.message) in H.
    unfold ReviewCode.params_issue in H. cbn [ReviewCode.message] in H.
    apply app_inv_head in H. apply app_inv_tail in H.
    apply show_Z_inj in H. lia.
Qed.

(** The long-parameter-list check has no comment test. *)
Lemma params_issue_found (file content line : jsstr) (index params : nat) :
  nth_error (split_lines content) index = Some line ->
  In (ReviewCode.params_issue index params)
     (ReviewCode.fa_issues (ReviewCode.analyzeOne file content)) <->
  4 < params /\
  exists m, In m (match_g false ReviewCode.paramsRegex line) /\
            List.length (split_on "," m) = params.
Proof.
  intros Hline. rewrite in_analysis_maintainability by reflexivity.
  rewrite checkMaintainability_pushed, in_app_iff, !in_pushed_from.
  split.
  - intros [(k & x & Hx & H)|(k & x & Hx & H)].
    + unfold magic_pushes in H.
      destruct (negb _); [|contradiction].
      apply in_flat_map in H. destruct H as (n & _ & H).
      destruct (_ && _); [|contradiction]. destruct H as [H|[]].
      apply (f_equal ReviewCode.message) in H.
      unfold ReviewCode.params_issue, ReviewCode.magic_issue in H. simpl in H.
      discriminate H.
    + unfold params_pushes in H. apply in_flat_map in H.
      destruct H as (m & Hm & H).
      destruct (4 <? _) eqn:E; [|contradiction].
      destruct H as [H|[]]. apply params_issue_inj in H. destruct H as [Hk Hp].
      simpl in Hk. subst k. rewrite Hline in Hx. injection Hx as <-.
      apply Nat.ltb_lt in E. split; [lia|]. now exists m.
  - intros (Hp & m & Hm & E). right. exists index, line. split; [exact Hline|].
    unfold params_pushes. apply in_flat_map. exists m. split; [exact Hm|].
    rewrite E. apply Nat.ltb_lt in Hp. rewrite Hp. now left.
Qed.

(** C7 fails for block comments: a [console.log] inside [/* ... */] is
    reported as Debug Code. *)
Lemma C7_counterexample_block_comment_not_suppressed :
  ReviewCode.fa_issues (ReviewCode.analyzeOne (str "a.js") block_commented_log) =
  [ReviewCode.debug_issue 0].
Proof. vm_compute. reflexivity. Qed.

(** C7, as it holds on the code.  Comment suppression looks only at whether the trimmed
    line starts with [//]: a Debug Code finding is reported for a line
    exactly when the line has [console.log] and its trimmed text does not
    start with [//], and no magic-number finding is reported for a line
    whose trimmed text starts with [//].  The long-parameter-list check is
    not suppressed at all: its finding is reported for a line exactly when
    the pattern finds a parameter list with more than four entries on the
    line, commented out or not.  Security findings are never suppressed by
    comments: the secret finding of a line is reported exactly when a secret
    pattern matches the line and the line does not contain [process.env],
    commented out or not. *)
Theorem C7_comments_and_suppression (file content line : jsstr) (index : nat) :
  nth_error (split_lines content) index = Some line ->
  let found := ReviewCode.fa_issues (ReviewCode.analyzeOne file content) in
  (In (ReviewCode.secret_issue index) found <->
   (exists pattern,
       In pattern ReviewCode.secretPatterns /\ test true pattern line = true) /\
   includes (str "process.env") line = false) /\
  (In (ReviewCode.debug_issue index) found <->
   includes (str "console.log") line = true /\
   startsWith (str "//") (trim line) = false) /\
  (forall num, In (ReviewCode.magic_issue index num) found ->
               startsWith (str "//") (trim line) = false) /\
  (forall params,
     In (ReviewCode.params_issue index params) found <->
     4 < params /\
     exists m, In m (match_g false ReviewCode.paramsRegex line) /\
               List.length (split_on "," m) = params).
Proof.
  intros Hline found. subst found. split; [|split; [|split]].
  - now apply secret_issue_found.
  - now apply debug_issue_found.
  - intros num. now apply magic_issue_found.
  - intros params. now apply params_issue_found.
Qed.

Lemma C7_comments_and_suppression_witness :
  (startsWith (str "//") (trim commented_secret) = true /\
   In (ReviewCode.secret_issue 0)
      (ReviewCode.fa_issues (ReviewCode.analyzeOne (str "a.js") commented_secret))) /\
  (startsWith (str "//") (trim commented_params) = true /\
   In (ReviewCode.params_issue 0 5)
      (ReviewCode.fa_issues (ReviewCode.analyzeOne (str "a.js") commented_params))).
Proof.
  split; (split; [reflexivity|]).
  - apply (proj1 (C7_comments_and_suppression (str "a.js") commented_secret 0 eq_refl)).
    split; [|reflexivity].
    exists (nth 0 ReviewCode.secretPatterns Eps). split; [now left | reflexivity].
  - apply (proj2 (proj2 (proj2
             (C7_comments_and_suppression (str "a.js") commented_params 0 eq_refl))) 5).
    split; [lia|].
    exists (str "function (a, b, c, d, e)"). split; [vm_compute; now left | reflexivity].
Defined.

(** ** Nested loops *)

Lemma loop_step_eq (d : Z) (iss : list ReviewCode.issue) (i : nat) (x : jsstr) :
  ReviewCode.loop_step (d, iss) i x =
  (next_depth d x,
   iss ++ (if ReviewCode.is_loop_line x && (2 <? d + 1)%Z
           then [ReviewCode.nested_loop_issue i] else [])).
Proof.
  unfold ReviewCode.loop_step, next_depth, ReviewCode.push.
  destruct (ReviewCode.is_loop_line x), (ReviewCode.has_closing_brace x),
    (2 <? d + 1)%Z; simpl; now rewrite ?app_nil_r.
Qed.

Lemma loop_scan_from (l : list jsstr) :
  forall d i iss,
    forEach_from ReviewCode.loop_step i l (d, iss) =
    (fold_left next_depth l d, iss ++ loop_pushes d i l).
Proof.
  induction l as [|x l IH]; intros d i iss;
    cbn [forEach_from fold_left loop_pushes].
  - now rewrite app_nil_r.
  - now rewrite loop_step_eq, IH, <- app_assoc.
Qed.

Lemma loop_depth_before_fold (lines : list jsstr) (index : nat) :
  loop_depth_before lines index = fold_left next_depth (firstn index lines) 0%Z.
Proof.
  unfold loop_depth_before, forEach. now rewrite loop_scan_from.
Qed.

Lemma in_loop_pushes (n : nat) (l : list jsstr) :
  forall d i,
    In (ReviewCode.nested_loop_issue n) (loop_pushes d i l) <->
    i <= n /\
    exists line,
      nth_error l (n - i) = Some line /\
      ReviewCode.is_loop_line line = true /\
      (2 < fold_left next_depth (firstn (n - i) l) d + 1)%Z.
Proof.
  induction l as [|x l IH]; intros d i; simpl.
  - split; [tauto|]. intros (_ & line & H & _). now destruct (n - i).
  - rewrite in_app_iff, IH. split.
    + intros [H|(Hle & line & H1 & H2 & H3)].
      * destruct (ReviewCode.is_loop_line x) eqn:El; [|contradiction].
        destruct (2 <? d + 1)%Z eqn:Ed; [|contradiction].
        destruct H as [H|[]].
        apply (issue_line_inj ReviewCode.nested_loop_issue) in H; [|reflexivity].
        subst i. split; [lia|]. rewrite Nat.sub_diag. simpl.
        exists x. apply Z.ltb_lt in Ed. now repeat split.
      * split; [lia|]. replace (n - i) with (S (n - S i)) by lia. simpl.
        exists line. now repeat split.
    + intros (Hle & line & H1 & H2 & H3).
      destruct (n - i) as [|m] eqn:Em.
      * simpl in H1, H3. injection H1 as ->. left.
        assert (i = n) by lia. subst i.
        apply Z.ltb_lt in H3. rewrite H2, H3. now left.
      * right. simpl in H1, H3. replace (n - S i) with m by lia.
        split; [lia|]. exists line. now repeat split.
Qed.

Lemma nested_loop_issue_found (content : jsstr) (index : nat) :
  In (ReviewCode.nested_loop_issue index) (ReviewCode.checkPerformance content) <->
  exists line,
    nth_error (split_lines content) index = Some line /\
    ReviewCode.is_loop_line line = true /\
    (2 < loop_depth_before (split_lines content) index + 1)%Z.
Proof.
  unfold ReviewCode.checkPerformance. cbv zeta. unfold forEach at 1.
  rewrite loop_scan_from. cbn [snd].
  rewrite (forEach_pushed _ sync_pushes _ _ sync_step_pushes). cbn [app].
  rewrite in_app_iff, in_loop_pushes, Nat.sub_0_r, <- loop_depth_before_fold.
  split.
  - intros [H|[_ H]]; [|exact H].
    apply in_pushed_from in H. destruct H as (k & x & _ & H).
    unfold sync_pushes in H. apply in_flat_map in H.
    destruct H as (method & _ & H). destruct (_ && _); [|contradiction].
    destruct H as [H|[]]. apply (f_equal ReviewCode.message) in H.
    unfold ReviewCode.sync_issue, ReviewCode.nested_loop_issue in H. simpl in H.
    discriminate H.
  - intros H. right. split; [lia | exact H].
Qed.

Lemma loop_depth_before_step (lines : list jsstr) (index : nat) (line : jsstr) :
  nth_error lines index = Some line ->
  loop_depth_before lines (S index) = next_depth (loop_depth_before lines index) line.
Proof.
  intros H. rewrite !loop_depth_before_fold.
  revert index H. generalize 0%Z.
  induction lines as [|x l IH]; intros d index H; [now destruct index|].
  destruct index as [|index]; simpl in H.
  - injection H as ->. reflexivity.
  - cbn [firstn fold_left]. now apply IH.
Qed.

Lemma fold_next_depth_no_brace (l : list jsstr) (d : Z) :
  forallb (fun x => negb (ReviewCode.has_closing_brace x)) l = true ->
  fold_left next_depth l d = (d + Z.of_nat (loop_lines l))%Z.
Proof.
  revert d. induction l as [|x l IH]; intros d H; simpl in *.
  - unfold loop_lines. simpl. lia.
  - apply andb_true_iff in H. destruct H as [Hx Hl].
    apply negb_true_iff in Hx. rewrite (IH _ Hl).
    unfold next_depth, loop_lines. rewrite Hx. cbn [filter].
    destruct (ReviewCode.is_loop_line x); cbn [List.length]; lia.
Qed.

Lemma nested_loop_before_first_brace (content line : jsstr) (index : nat) :
  nth_error (split_lines content) index = Some line ->
  ReviewCode.is_loop_line line = true ->
  forallb (fun x => negb (ReviewCode.has_closing_brace x))
          (firstn index (split_lines content)) = true ->
  2 <= loop_lines (firstn index (split_lines content)) ->
  In (ReviewCode.nested_loop_issue index) (ReviewCode.checkPerformance content).
Proof.
  intros Hline Hloop Hb Hn. apply nested_loop_issue_found.
  exists line. split; [exact Hline|]. split; [exact Hloop|].
  rewrite loop_depth_before_fold, (fold_next_depth_no_brace _ _ Hb). lia.
Qed.

Lemma loop_line_number (l : list jsstr) (k : nat) :
  k < loop_lines l ->
  exists i line,
    nth_error l i = Some line /\
    ReviewCode.is_loop_line line = true /\
    loop_lines (firstn i l) = k.
Proof.
  unfold loop_lines. revert k.
  induction l as [|x l IH]; intros k H; cbn [filter] in H; [simpl in H; lia|].
  destruct (ReviewCode.is_loop_line x) eqn:L.
  - destruct k as [|k].
    + exists 0, x. now repeat split.
    + cbn [List.length] in H. destruct (IH k) as (i & line & Hi & Hl & Hk); [lia|].
      exists (S i), line. repeat split; [exact Hi | exact Hl |].
      cbn [firstn filter]. rewrite L. cbn [List.length]. now rewrite Hk.
  - destruct (IH k H) as (i & line & Hi & Hl & Hk).
    exists (S i), line. repeat split; [exact Hi | exact Hl |].
    cbn [firstn filter]. now rewrite L.
Qed.

Lemma forallb_firstn {A : Type} (p : A -> bool) (i : nat) (l : list A) :
  forallb p l = true -> forallb p (firstn i l) = true.
Proof.
  revert i. induction l as [|x l IH]; intros [|i] H; try reflexivity.
  simpl in *. apply andb_true_iff in H. destruct H as [-> H]. now apply IH.
Qed.

Lemma nth_error_firstn_some {A : Type} (n i : nat) (l : list A) (x : A) :
  nth_error (firstn n l) i = Some x -> i < n /\ nth_error l i = Some x.
Proof.
  revert n i. induction l as [|y l IH]; intros [|n] [|i] H; simpl in H; try discriminate H.
  - split; [lia | exact H].
  - apply IH in H. simpl. split; [lia | tauto].
Qed.

Lemma some_nested_loop_finding (content : jsstr) (index : nat) :
  forallb (fun x => negb (ReviewCode.has_closing_brace x))
          (firstn index (split_lines content)) = true ->
  3 <= loop_lines (firstn index (split_lines content)) ->
  exists i, i < index /\
            In (ReviewCode.nested_loop_issue i) (ReviewCode.checkPerformance content).
Proof.
  intros Hb Hn.
  destruct (@loop_line_number (firstn index (split_lines content)) 2) as (i & line & Hi & Hl & Hk);
    [lia|].
  apply nth_error_firstn_some in Hi. destruct Hi as [Hlt Hi].
  rewrite firstn_firstn, Nat.min_l in Hk by lia.
  exists i. split; [exact Hlt|].
  apply (@nested_loop_before_first_brace content line i Hi Hl); [|lia].
  apply (forallb_firstn _ i) in Hb.
  now rewrite firstn_firstn, Nat.min_l in Hb by lia.
Qed.

(** C6 fails on a statement line: inside three nested loops [loopDepth] is
    3 when the fourth line is visited, and no finding is anchored there. *)
Lemma C6_counterexample_statement_line_at_depth_3 :
  loop_depth_before (split_lines three_deep_body) 3 = 3%Z /\
  filter (at_line 4) (ReviewCode.checkPerformance three_deep_body) = [] /\
  ReviewCode.checkPerformance three_deep_body = [ReviewCode.nested_loop_issue 2].
Proof. repeat split; vm_compute; reflexivity. Qed.

(** C6, as it holds on the code.  [loopDepth] starts at zero, is incremented on each
    loop-construct line and decremented, not below zero, on each line with
    a closing brace; a nested-loop finding (Performance, medium) is anchored
    at a line exactly when the line is a loop-construct line and the
    incremented [loopDepth] exceeds 2.  So a loop-construct line that comes
    after at least two loop-construct lines and after no line with a closing
    brace gets a finding, and a file in which three loop-construct lines
    come before the first line with a closing brace has at least one
    finding.  Four nested loops on consecutive lines have one at the third
    and one at the fourth line; with an object literal on the line after
    each loop line they have none. *)
Theorem C6_nested_loop_findings (content : jsstr) (index : nat) :
  let lines := split_lines content in
  (In (ReviewCode.nested_loop_issue index) (ReviewCode.checkPerformance content) <->
   exists line,
     nth_error lines index = Some line /\
     ReviewCode.is_loop_line line = true /\
     (2 < loop_depth_before lines index + 1)%Z) /\
  loop_depth_before lines 0 = 0%Z /\
  (forall line,
     nth_error lines index = Some line ->
     loop_depth_before lines (S index) =
       let d := loop_depth_before lines index in
       let d1 := if ReviewCode.is_loop_line line then (d + 1)%Z else d in
       if ReviewCode.has_closing_brace line then Z.max 0 (d1 - 1) else d1) /\
  (ReviewCode.category_of (ReviewCode.nested_loop_issue index) = ReviewCode.Performance /\
   ReviewCode.severity_of (ReviewCode.nested_loop_issue index) = ReviewCode.medium /\
   ReviewCode.line (ReviewCode.nested_loop_issue index) = (Z.of_nat index + 1)%Z) /\
  (forall line,
     nth_error lines index = Some line ->
     ReviewCode.is_loop_line line = true ->
     forallb (fun x => negb (ReviewCode.has_closing_brace x)) (firstn index lines) = true ->
     2 <= loop_lines (firstn index lines) ->
     In (ReviewCode.nested_loop_issue index) (ReviewCode.checkPerformance content)) /\
  (forallb (fun x => negb (ReviewCode.has_closing_brace x)) (firstn index lines) = true ->
   3 <= loop_lines (firstn index lines) ->
   exists i, i < index /\
             In (ReviewCode.nested_loop_issue i) (ReviewCode.checkPerformance content)) /\
  ReviewCode.checkPerformance four_deep =
    [ReviewCode.nested_loop_issue 2; ReviewCode.nested_loop_issue 3] /\
  ReviewCode.checkPerformance four_deep_with_objects = [].
Proof.
  intros lines. subst lines.
  split; [apply nested_loop_issue_found|].
  split; [reflexivity|].
  split; [intros line H; now apply loop_depth_before_step|].
  split; [repeat split|].
  split; [intros line; apply nested_loop_before_first_brace|].
  split; [apply some_nested_loop_finding|].
  split; vm_compute; reflexivity.
Qed.

Lemma C6_nested_loop_findings_witness :
  In (ReviewCode.nested_loop_issue 3) (ReviewCode.checkPerformance four_deep) /\
  exists i, i < 4 /\
            In (ReviewCode.nested_loop_issue i) (ReviewCode.checkPerformance four_deep).
Proof.
  split.
  - destruct (C6_nested_loop_findings four_deep 3) as (_ & _ & _ & _ & H & _).
    eapply H; [reflexivity | reflexivity | reflexivity | vm_compute; lia].
  - destruct (C6_nested_loop_findings four_deep 4) as (_ & _ & _ & _ & _ & H & _).
    apply H; [reflexivity | vm_compute; lia].
Defined.

(** ** Long functions *)

Lemma word_is_not_space (x : ascii) : is_word x = true -> is_space x = false.
Proof.
  destruct x as [[] [] [] [] [] [] [] []]; vm_compute; intros H;
    first [reflexivity | discriminate H].
Qed.

Lemma has_nonspace_app (a b : jsstr) :
  has_nonspace (a ++ b) = has_nonspace a || has_nonspace b.
Proof. apply existsb_app. Qed.

Lemma has_nonspace_rev' (s : jsstr) : has_nonspace (rev' s) = has_nonspace s.
Proof.
  unfold rev'. rewrite <- rev_alt. unfold has_nonspace.
  induction s as [|c s IH]; [reflexivity|].
  simpl. rewrite existsb_app, IH. simpl.
  now rewrite orb_false_r, orb_comm.
Qed.

Lemma has_nonspace_trimStart (s : jsstr) :
  has_nonspace (trimStart s) = has_nonspace s.
Proof.
  induction s as [|c s IH]; [reflexivity|].
  simpl. destruct (is_space c) eqn:E; [|simpl; now rewrite E].
  now rewrite IH.
Qed.

Lemma has_nonspace_trim (s : jsstr) : has_nonspace (trim s) = has_nonspace s.
Proof.
  unfold trim, trimEnd.
  now rewrite has_nonspace_rev', has_nonspace_trimStart, has_nonspace_rev',
    has_nonspace_trimStart.
Qed.

Lemma has_nonspace_truthy (s : jsstr) :
  has_nonspace s = true -> ReviewCode.truthy (Some (trim s)) = true.
Proof.
  intros H. rewrite <- has_nonspace_trim in H.
  now destruct (trim s).
Qed.

Lemma extends_has_nonspace (c c' : cursor) :
  extends c c' -> has_nonspace (rest c') = true -> has_nonspace (rest c) = true.
Proof.
  intros (w & H & _) N. rewrite H, has_nonspace_app, N. apply orb_true_r.
Qed.

Lemma chr_head_nonspace (a : ascii) (c c' : cursor) :
  is_space a = false -> derives false (Chr a) c c' -> has_nonspace (rest c) = true.
Proof.
  intros Ha D. inversion D as [| ? ? x xs Hr He | | | | | | | |]; subst.
  unfold chr_eq in He. apply Ascii.eqb_eq in He. subst x.
  rewrite Hr. simpl. now rewrite Ha.
Qed.

Lemma cls_word_nonspace (c c' : cursor) :
  derives false (Cls is_word) c c' -> has_nonspace (rest c) = true.
Proof.
  intros D. inversion D as [| | ? ? x xs Hr Hw | | | | | | |]; subst.
  rewrite Hr. simpl. now rewrite (word_is_not_space x Hw).
Qed.

(** Taking a derivation of a compound pattern apart. *)
Ltac peel_derivation :=
  match goal with
  | D : derives _ (Alt _ _) _ _ |- _ => inversion D; subst; clear D
  | D : derives _ (Seq _ _) _ _ |- _ => inversion D; subst; clear D
  | D : derives _ Bol _ _ |- _ => inversion D; subst; clear D
  end.

(** A declaration matched by [functionRegex] has a code unit that is not
    white space. *)
Lemma functionRegex_nonspace (b e : cursor) :
  derives false ReviewCode.functionRegex b e -> has_nonspace (rest b) = true.
Proof.
  intros D.
  cbv [ReviewCode.functionRegex AltL SeqL Lit LitL str list_ascii_of_string
       Plus ws word] in D.
  repeat peel_derivation;
    match goal with
    | H : derives false (Chr ?a) ?c _ |- has_nonspace (rest ?c) = true =>
        now apply (chr_head_nonspace (a := a)) in H
    | S : derives false (Star _) ?c ?c1, W : derives false (Cls is_word) ?c1 _
      |- has_nonspace (rest ?c) = true =>
        apply derives_extends in S; apply (extends_has_nonspace S);
        now apply cls_word_nonspace in W
    end.
Qed.

Lemma declaration_test_nonspace (lastIndex : nat) (line : jsstr) :
  fst (test_g false ReviewCode.functionRegex lastIndex line) = true ->
  has_nonspace line = true.
Proof.
  unfold test_g, cursor_at.
  destruct (cursor_from (start_of line) lastIndex) as [c|] eqn:Ec; [|discriminate].
  destruct (search false ReviewCode.functionRegex c) as [[b e]|] eqn:Es;
    [|discriminate].
  intros _. apply cursor_from_extends in Ec. apply search_sound in Es.
  destruct Es as [X D]. apply functionRegex_nonspace in D.
  apply (extends_has_nonspace (c := start_of line) (c' := b)); [|exact D].
  eapply extends_trans; eassumption.
Qed.

(** C1 fails on a nested declaration: when the scan reaches line 3 the
    span of [outer] is open with start line 1 and balance 1; the declaration
    of [inner] moves the start line to 3 and restarts the balance, which is
    1 after the line instead of 2.  The only finding of the file is anchored
    at line 3, and none at the start of the 60-line [outer]. *)
Lemma C1_counterexample_inner_declaration_restarts :
  let lines := split_lines nested_declaration in
  let before := span_state_before lines 2 in
  let after := ReviewCode.long_function_step before 2 (nth 2 lines []) in
  List.length lines = 60 /\
  ReviewCode.truthy (ReviewCode.currentFunction before) = true /\
  ReviewCode.functionStartLine before = 1%Z /\
  ReviewCode.braceCount before = 1%Z /\
  ReviewCode.functionStartLine after = 3%Z /\
  ReviewCode.braceCount after = 1%Z /\
  ReviewCode.checkCommonIssues nested_declaration = [long_function_finding 3 51].
Proof. repeat split; vm_compute; reflexivity. Qed.

(** C1, as it holds on the code.  One span is tracked at a time, and a declaration that the
    scan detects on a line replaces the span that is open: the start line
    becomes that line and the brace balance restarts, so that after the line
    it is the balance of the line's own braces; no finding is emitted on
    that line.  A line on which no declaration is detected leaves the start
    line of the open span unchanged and adds its braces to the balance. *)
Theorem C1_declaration_restarts_span
        (st : ReviewCode.span_state) (index : nat) (line : jsstr) :
  let st' := ReviewCode.long_function_step st index line in
  (fst (test_g false ReviewCode.functionRegex (ReviewCode.lastIndex st) line) = true ->
   ReviewCode.currentFunction st' = Some (trim line) /\
   ReviewCode.functionStartLine st' = (Z.of_nat index + 1)%Z /\
   ReviewCode.braceCount st' = (count_char "{" line - count_char "}" line)%Z /\
   ReviewCode.issues st' = ReviewCode.issues st) /\
  (fst (test_g false ReviewCode.functionRegex (ReviewCode.lastIndex st) line) = false ->
   ReviewCode.truthy (ReviewCode.currentFunction st) = true ->
   ReviewCode.functionStartLine st' = ReviewCode.functionStartLine st /\
   ReviewCode.braceCount st' =
     (ReviewCode.braceCount st + count_char "{" line - count_char "}" line)%Z).
Proof.
  intros st'. subst st'. unfold ReviewCode.long_function_step. split.
  - intros Hhit. pose proof (declaration_test_nonspace _ _ Hhit) as Hn.
    apply has_nonspace_truthy in Hn.
    unfold ReviewCode.declaration_step.
    destruct (test_g false ReviewCode.functionRegex (ReviewCode.lastIndex st) line)
      as [hit li]. simpl in Hhit. subst hit.
    unfold ReviewCode.brace_step.
    cbn [ReviewCode.currentFunction ReviewCode.functionStartLine
         ReviewCode.braceCount ReviewCode.lastIndex ReviewCode.issues].
    rewrite Hn. cbv zeta. unfold ReviewCode.measured.
    cbn [ReviewCode.functionStartLine].
    replace (50 <? Z.of_nat index - (Z.of_nat index + 1) + 1)%Z with false
      by (symmetry; apply Z.ltb_ge; lia).
    rewrite andb_false_r.
    cbn [ReviewCode.currentFunction ReviewCode.functionStartLine
         ReviewCode.braceCount ReviewCode.issues].
    repeat split; lia.
  - intros Hmiss Hopen. unfold ReviewCode.declaration_step.
    destruct (test_g false ReviewCode.functionRegex (ReviewCode.lastIndex st) line)
      as [hit li]. simpl in Hmiss. subst hit.
    unfold ReviewCode.brace_step.
    cbn [ReviewCode.currentFunction ReviewCode.functionStartLine
         ReviewCode.braceCount ReviewCode.lastIndex ReviewCode.issues].
    rewrite Hopen. cbv zeta.
    destruct (_ && _); cbn [ReviewCode.functionStartLine ReviewCode.braceCount];
      split; reflexivity.
Qed.

Lemma C1_declaration_restarts_span_witness :
  ReviewCode.functionStartLine
    (ReviewCode.long_function_step
       (span_state_before (split_lines nested_declaration) 2) 2
       (str "  function inner() {")) = 3%Z /\
  ReviewCode.functionStartLine
    (ReviewCode.long_function_step
       (span_state_before (split_lines nested_declaration) 1) 1
       (str "  let a = 1;")) = 1%Z.
Proof.
  split.
  - destruct (C1_declaration_restarts_span
                (span_state_before (split_lines nested_declaration) 2) 2
                (str "  function inner() {")) as [H _].
    destruct H as (_ & H & _); [reflexivity | exact H].
  - destruct (C1_declaration_restarts_span
                (span_state_before (split_lines nested_declaration) 1) 1
                (str "  let a = 1;")) as [_ H].
    destruct H as (H & _); [reflexivity | reflexivity | exact H].
Defined.

(** C8 at the 120-line file whose function spans lines 10 to 75: the
    analysis has exactly one Code Complexity finding, of severity medium and
    anchored at line 10, and its message gives 65 lines for the 66-line
    function.  The same measure leaves a file that is one 51-line function
    without a finding and reports 51 lines for a 52-line function. *)
Theorem C8_long_function_reports_65_lines :
  List.length (split_lines synthetic_120) = 120 /\
  nth_error (split_lines synthetic_120) 9 = Some (str "function longFunction() {") /\
  nth_error (split_lines synthetic_120) 74 = Some (str "}") /\
  filter (has_category ReviewCode.CodeComplexity)
         (ReviewCode.fa_issues (ReviewCode.analyzeOne (str "big.js") synthetic_120)) =
    [long_function_finding 10 65] /\
  ReviewCode.message (long_function_finding 10 65) =
    str "Function is too long (65 lines). Consider breaking it down." /\
  ReviewCode.checkCommonIssues (one_function_file 0 51 0) = [] /\
  ReviewCode.checkCommonIssues (one_function_file 9 52 45) = [long_function_finding 10 51].
Proof. repeat split; vm_compute; reflexivity. Qed.

(** * Further properties of the code *)

(** ** Lines and the long-function scan *)

Lemma forEach_from_indexed {A St : Type} (f : St -> nat -> A -> St)
      (P : nat -> St -> Prop) :
  (forall st i x, P i st -> P (S i) (f st i x)) ->
  forall l i st, P i st -> P (i + List.length l) (forEach_from f i l st).
Proof.
  intros step l. induction l as [|x l IH]; intros i st H; simpl.
  - now rewrite Nat.add_0_r.
  - rewrite <- Nat.add_succ_comm. apply IH. now apply step.
Qed.

Lemma StronglySorted_snoc (l : list Z) (x : Z) :
  StronglySorted Z.lt l -> Forall (fun y => (y < x)%Z) l ->
  StronglySorted Z.lt (l ++ [x]).
Proof.
  induction l as [|a l IH]; intros Hs F; simpl.
  - repeat constructor.
  - inversion Hs as [|? ? S' Fa]; subst. inversion F as [|? ? Ha F']; subst.
    constructor; [now apply IH|].
    apply Forall_app. split; [exact Fa | now constructor].
Qed.

Lemma span_inv_step (issues0 : list ReviewCode.issue) (st : ReviewCode.span_state)
      (i : nat) (x : jsstr) :
  span_inv issues0 i st -> span_inv issues0 (S i) (ReviewCode.long_function_step st i x).
Proof.
  intros (added & E & Hle & Hpos & F & Hs).
  unfold ReviewCode.long_function_step, ReviewCode.declaration_step.
  destruct (test_g false ReviewCode.functionRegex (ReviewCode.lastIndex st) x)
    as [[|] li].
  - (* a declaration is detected: the span restarts at this line *)
    assert (F' : forall c bc,
               Forall (span_finding_ok (S i)
                         (ReviewCode.mkSpan c (Z.of_nat i + 1) bc li (ReviewCode.issues st)))
                      added).
    { intros c bc. eapply Forall_impl; [|exact F].
      intros y (start & m & -> & H1 & H2 & H3 & H4 & _).
      exists start, m. cbn [ReviewCode.functionStartLine].
      repeat split; try lia. }
    unfold ReviewCode.brace_step.
    cbn [ReviewCode.currentFunction ReviewCode.functionStartLine
         ReviewCode.braceCount ReviewCode.lastIndex ReviewCode.issues].
    destruct (ReviewCode.truthy (Some (trim x))) eqn:T.
    + cbv zeta. unfold ReviewCode.measured. cbn [ReviewCode.functionStartLine].
      replace (50 <? Z.of_nat i - (Z.of_nat i + 1) + 1)%Z with false
        by (symmetry; apply Z.ltb_ge; lia).
      rewrite andb_false_r.
      exists added. cbn [ReviewCode.issues ReviewCode.functionStartLine
                         ReviewCode.currentFunction].
      repeat split; try assumption; try lia. apply F'.
    + exists added. cbn [ReviewCode.issues ReviewCode.functionStartLine
                         ReviewCode.currentFunction].
      repeat split; try assumption; try lia. apply F'.
  - (* no declaration: braces are counted for the open span, if any *)
    unfold ReviewCode.brace_step.
    cbn [ReviewCode.currentFunction ReviewCode.functionStartLine
         ReviewCode.braceCount ReviewCode.lastIndex ReviewCode.issues].
    destruct (ReviewCode.truthy (ReviewCode.currentFunction st)) eqn:T.
    + cbv zeta. unfold ReviewCode.measured. cbn [ReviewCode.functionStartLine].
      destruct (_ && _) eqn:C.
      * apply andb_true_iff in C. destruct C as [_ C]. apply Z.ltb_lt in C.
        exists (added ++ [long_function_finding (ReviewCode.functionStartLine st)
                            (Z.of_nat i - ReviewCode.functionStartLine st + 1)]).
        cbn [ReviewCode.issues ReviewCode.functionStartLine ReviewCode.currentFunction].
        split; [unfold ReviewCode.push; rewrite E, <- app_assoc; reflexivity|].
        split; [lia|]. split; [discriminate|]. split.
        -- apply Forall_app. split.
           ++ eapply Forall_impl; [|exact F].
              intros y (start & m & -> & H1 & H2 & H3 & H4 & H5).
              specialize (H5 T).
              exists start, m. cbn [ReviewCode.functionStartLine ReviewCode.currentFunction].
              repeat split; try lia; try discriminate.
           ++ constructor; [|constructor].
              exists (ReviewCode.functionStartLine st),
                (Z.of_nat i - ReviewCode.functionStartLine st + 1)%Z.
              cbn [ReviewCode.functionStartLine ReviewCode.currentFunction].
              assert (1 <= ReviewCode.functionStartLine st)%Z by (apply Hpos; now rewrite ?T).
              repeat split; try lia; try discriminate.
        -- rewrite map_app. apply StronglySorted_snoc; [exact Hs|].
           rewrite Forall_map. eapply Forall_impl; [|exact F].
           intros y (start & m & -> & _ & _ & _ & _ & H5).
           exact (H5 T).
      * exists added.
        cbn [ReviewCode.issues ReviewCode.functionStartLine ReviewCode.currentFunction].
        repeat split; try assumption; try lia.
        eapply Forall_impl; [|exact F].
        intros y (start & m & -> & H1 & H2 & H3 & H4 & H5).
        exists start, m. cbn [ReviewCode.functionStartLine ReviewCode.currentFunction].
        repeat split; try lia; try exact H5.
    + exists added.
      cbn [ReviewCode.issues ReviewCode.functionStartLine ReviewCode.currentFunction].
      repeat split; try assumption; try lia.
      * rewrite T. discriminate.
      * eapply Forall_impl; [|exact F].
        intros y (start & m & -> & H1 & H2 & H3 & H4 & H5).
        exists start, m. cbn [ReviewCode.functionStartLine ReviewCode.currentFunction].
        repeat split; try lia; try (rewrite T; discriminate).
Qed.

Lemma span_inv_scan (lines : list jsstr) (issues0 : list ReviewCode.issue) :
  span_inv issues0 (List.length lines) (ReviewCode.long_function_scan lines issues0).
Proof.
  unfold ReviewCode.long_function_scan, forEach.
  apply (forEach_from_indexed ReviewCode.long_function_step (span_inv issues0)
           (fun st i x H => span_inv_step x H) lines 0).
  exists []. cbn. rewrite app_nil_r.
  repeat split; try lia; try constructor; try discriminate.
Qed.

Lemma checkCommonIssues_span (content : jsstr) :
  exists added,
    ReviewCode.checkCommonIssues content =
      (pushed_from console_log_pushes 0 (split_lines content) ++
       pushed_from todo_pushes 0 (split_lines content)) ++ added /\
    Forall (fun y => exists start m,
                y = long_function_finding start m /\
                (1 <= start)%Z /\ (50 < m)%Z /\
                (start + m <= Z.of_nat (List.length (split_lines content)))%Z) added /\
    StronglySorted Z.lt (map ReviewCode.line added).
Proof.
  unfold ReviewCode.checkCommonIssues. cbv zeta.
  destruct (span_inv_scan (split_lines content)
              (forEach ReviewCode.todo_step (split_lines content)
                 (forEach ReviewCode.console_log_step (split_lines content) [])))
    as (added & E & _ & _ & F & Hs).
  exists added. split; [|split; [|exact Hs]].
  - rewrite E.
    rewrite (forEach_pushed _ todo_pushes _ _ todo_step_pushes).
    now rewrite (forEach_pushed _ console_log_pushes _ _ console_log_step_pushes).
  - eapply Forall_impl; [|exact F].
    intros y (start & m & -> & H1 & H2 & H3 & _). now exists start, m.
Qed.

Lemma line_scan_categories (content : jsstr) :
  Forall (fun y => ReviewCode.category_of y <> ReviewCode.CodeComplexity)
         (pushed_from console_log_pushes 0 (split_lines content) ++
          pushed_from todo_pushes 0 (split_lines content)).
Proof.
  apply Forall_app. split; apply Forall_pushed_from; intros k x.
  - unfold console_log_pushes. destruct (_ && _); repeat constructor. discriminate.
  - unfold todo_pushes. destruct (_ || _); repeat constructor. discriminate.
Qed.

Lemma filter_complexity_findings (content : jsstr) :
  exists added,
    filter (has_category ReviewCode.CodeComplexity)
           (ReviewCode.checkCommonIssues content) = added /\
    Forall (fun y => exists start m,
                y = long_function_finding start m /\
                (1 <= start)%Z /\ (50 < m)%Z /\
                (start + m <= Z.of_nat (List.length (split_lines content)))%Z) added /\
    StronglySorted Z.lt (map ReviewCode.line added).
Proof.
  destruct (checkCommonIssues_span content) as (added & E & F & Hs).
  exists added. split; [|now split].
  rewrite E, filter_app, filter_nothing.
  - apply forallb_filter_id. apply forallb_forall. intros y Hy.
    rewrite Forall_forall in F. destruct (F y Hy) as (start & m & -> & _).
    reflexivity.
  - eapply Forall_impl; [|apply line_scan_categories].
    intros y Hy. unfold has_category. cbv beta in Hy.
    destruct (ReviewCode.category_of y); try reflexivity. congruence.
Qed.

(** X1.  Every long-function finding is anchored at a start line from 1 on, gives
    a measure above 50 in its message, and the measured lines end within
    the file; so a file of at most 51 lines gets none. *)
Theorem long_function_findings_measure_above_50 (content : jsstr) (y : ReviewCode.issue) :
  In y (ReviewCode.checkCommonIssues content) ->
  ReviewCode.category_of y = ReviewCode.CodeComplexity ->
  (exists start m,
     y = long_function_finding start m /\
     (1 <= start)%Z /\ (50 < m)%Z /\
     (start + m <= Z.of_nat (List.length (split_lines content)))%Z) /\
  52 <= List.length (split_lines content).
Proof.
  intros Hy C.
  destruct (checkCommonIssues_span content) as (added & E & F & _).
  rewrite E, in_app_iff in Hy. destruct Hy as [Hy|Hy].
  - exfalso. pose proof (line_scan_categories content) as N.
    rewrite Forall_forall in N. now apply (N y Hy).
  - rewrite Forall_forall in F. destruct (F y Hy) as (start & m & -> & H1 & H2 & H3).
    split; [now exists start, m | lia].
Qed.

Lemma long_function_findings_measure_above_50_witness :
  52 <= List.length (split_lines synthetic_120).
Proof.
  refine (proj2 (@long_function_findings_measure_above_50 synthetic_120
                   (long_function_finding 10 65) _ _)).
  - vm_compute. now left.
  - reflexivity.
Defined.

(** X2.  The long-function findings of a file are anchored at strictly
    increasing lines: no line is reported twice. *)
Theorem long_function_findings_anchors_increase (content : jsstr) :
  StronglySorted Z.lt
    (map ReviewCode.line
         (filter (has_category ReviewCode.CodeComplexity)
                 (ReviewCode.checkCommonIssues content))).
Proof.
  destruct (filter_complexity_findings content) as (added & -> & _ & Hs).
  exact Hs.
Qed.

(** ** Every finding is anchored at a line of its file *)

Lemma split_on_nonempty (d : ascii) (s : jsstr) : split_on d s <> [].
Proof.
  destruct s as [|c s]; simpl; [discriminate|].
  destruct (Ascii.eqb c d); [discriminate|].
  destruct (split_on d s); discriminate.
Qed.

Lemma startsWith_first_line (p s : jsstr) :
  no_newline p -> startsWith p s = true ->
  startsWith p (hd [] (split_lines s)) = true.
Proof.
  intros N. revert s. induction N as [|a p Ha N IH]; intros s H; [reflexivity|].
  destruct s as [|b s]; [discriminate|]. simpl in H.
  apply andb_true_iff in H. destruct H as [E H]. apply Ascii.eqb_eq in E. subst b.
  unfold split_lines in *. simpl.
  destruct (Ascii.eqb a newline) eqn:En; [apply Ascii.eqb_eq in En; contradiction|].
  specialize (IH s H).
  destruct (split_on newline s) as [|l ls] eqn:Es; [now apply split_on_nonempty in Es|].
  simpl in *. now rewrite Ascii.eqb_refl.
Qed.

Lemma includes_cons (p : jsstr) (c : ascii) (s : jsstr) :
  includes p s = true -> includes p (c :: s) = true.
Proof.
  intros H. change (includes p (c :: s)) with (startsWith p (c :: s) || includes p s).
  rewrite H. apply orb_true_r.
Qed.

(** A text without a line break that occurs in a file occurs in one of its
    lines. *)
Lemma includes_some_line (p s : jsstr) :
  no_newline p -> includes p s = true ->
  existsb (includes p) (split_lines s) = true.
Proof.
  intros N. induction s as [|c s IH]; intros H.
  - simpl in *. now rewrite H.
  - assert (H' : startsWith p (c :: s) = true \/ includes p s = true).
    { change (includes p (c :: s))
        with (startsWith p (c :: s) || includes p s) in H.
      now apply orb_true_iff in H. }
    destruct H' as [H'|H'].
    + apply (@startsWith_first_line p _ N) in H'.
      destruct (split_lines (c :: s)) as [|l ls] eqn:E;
        [now apply split_on_nonempty in E|].
      cbn [hd] in H'. cbn [existsb].
      assert (I : includes p l = true).
      { destruct l; [cbn [includes]; now rewrite H' |].
        change (includes p (a :: l)) with (startsWith p (a :: l) || includes p l).
        now rewrite H'. }
      now rewrite I.
    + specialize (IH H'). unfold split_lines in *. cbn [split_on].
      destruct (Ascii.eqb c newline); [cbn [existsb]; rewrite IH; apply orb_true_r|].
      destruct (split_on newline s) as [|l ls]; [discriminate IH|].
      cbn [existsb] in *. apply orb_true_iff in IH. destruct IH as [IH|IH].
      * now rewrite (includes_cons _ c _ IH).
      * rewrite IH. apply orb_true_r.
Qed.

Lemma findIndex_range {A : Type} (p : A -> bool) (l : list A) :
  (-1 <= findIndex p l < Z.of_nat (List.length l))%Z /\
  (existsb p l = true -> 0 <= findIndex p l)%Z.
Proof.
  induction l as [|a l [IH1 IH2]]; simpl.
  - split; [lia | discriminate].
  - destruct (p a); [split; lia|]. simpl.
    destruct (findIndex p l <? 0)%Z eqn:E.
    + split; [lia|]. intros H. apply IH2 in H. apply Z.ltb_lt in E. lia.
    + apply Z.ltb_ge in E. split; lia.
Qed.

Lemma in_pushed_line {A : Type} (g : nat -> A -> list ReviewCode.issue)
      (l : list A) (y : ReviewCode.issue) :
  (forall k x z, In z (g k x) -> ReviewCode.line z = (Z.of_nat k + 1)%Z) ->
  In y (pushed_from g 0 l) ->
  (1 <= ReviewCode.line y <= Z.of_nat (List.length l))%Z.
Proof.
  intros Hg H. apply in_pushed_from in H. destruct H as (k & x & Hx & H).
  apply Hg in H. simpl in H.
  assert (k < List.length l) by (apply nth_error_Some; congruence). lia.
Qed.

Lemma in_loop_pushes_line (l : list jsstr) (y : ReviewCode.issue) :
  forall d i,
    In y (loop_pushes d i l) ->
    (Z.of_nat i + 1 <= ReviewCode.line y <= Z.of_nat (i + List.length l))%Z.
Proof.
  induction l as [|x l IH]; intros d i H; simpl in H; [contradiction|].
  apply in_app_iff in H. destruct H as [H|H].
  - destruct (_ && _); [|contradiction]. destruct H as [<-|[]]. simpl. lia.
  - apply IH in H. simpl. lia.
Qed.

Lemma checkPerformance_pushed (content : jsstr) :
  ReviewCode.checkPerformance content =
  pushed_from sync_pushes 0 (split_lines content) ++
  loop_pushes 0 0 (split_lines content).
Proof.
  unfold ReviewCode.checkPerformance. cbv zeta. unfold forEach at 1.
  rewrite loop_scan_from. cbn [snd].
  now rewrite (forEach_pushed _ sync_pushes _ _ sync_step_pushes).
Qed.

Lemma flat_map_cond_line {A : Type} (c : A -> bool) (h : A -> ReviewCode.issue)
      (l : list A) (n : Z) (z : ReviewCode.issue) :
  (forall x, ReviewCode.line (h x) = n) ->
  In z (flat_map (fun x => if c x then [h x] else []) l) -> ReviewCode.line z = n.
Proof.
  intros Hh H. apply in_flat_map in H. destruct H as (x & _ & H).
  destruct (c x); [|contradiction]. destruct H as [<-|[]]. apply Hh.
Qed.

(** X3.  Every finding of the second implementation is anchored at a line of the
    file: its line number lies between 1 and the number of lines. *)
Theorem findings_anchored_within_file (file content : jsstr) (y : ReviewCode.issue) :
  In y (ReviewCode.fa_issues (ReviewCode.analyzeOne file content)) ->
  (1 <= ReviewCode.line y <=
   Z.of_nat (List.length (ReviewCode.fa_lines (ReviewCode.analyzeOne file content))))%Z.
Proof.
  cbn [ReviewCode.fa_lines ReviewCode.analyzeOne].
  rewrite in_analysis. intros [H|[H|[H|H]]].
  - destruct (checkCommonIssues_span content) as (added & E & F & _).
    rewrite E, !in_app_iff in H. destruct H as [[H|H]|H].
    + revert H. apply in_pushed_line. intros k x z Hz.
      unfold console_log_pushes in Hz. destruct (_ && _); [|contradiction].
      now destruct Hz as [<-|[]].
    + revert H. apply in_pushed_line. intros k x z Hz.
      unfold todo_pushes in Hz. destruct (_ || _); [|contradiction].
      now destruct Hz as [<-|[]].
    + rewrite Forall_forall in F. destruct (F y H) as (start & m & -> & H1 & H2 & H3).
      simpl. lia.
  - rewrite checkSecurity_pushed, in_app_iff in H. destruct H as [H|H].
    + revert H. apply in_pushed_line. intros k x z Hz. unfold secret_pushes in Hz.
      now apply (flat_map_cond_line _ (fun _ => ReviewCode.secret_issue k) _
                   (n := (Z.of_nat k + 1)%Z)) in Hz.
    + destruct (includes (str "eval(") content) eqn:E; [|contradiction].
      destruct H as [<-|[]]. cbn [ReviewCode.line ReviewCode.eval_issue].
      assert (N : no_newline (str "eval(")).
      { repeat constructor; intros X; vm_compute in X; discriminate X. }
      pose proof (@includes_some_line _ _ N E) as Hex.
      destruct (findIndex_range (includes (str "eval(")) (split_lines content))
        as [[_ R1] R2].
      specialize (R2 Hex). lia.
  - rewrite checkPerformance_pushed, in_app_iff in H. destruct H as [H|H].
    + revert H. apply in_pushed_line. intros k x z Hz. unfold sync_pushes in Hz.
      now apply (flat_map_cond_line _ (fun method => ReviewCode.sync_issue k method) _
                   (n := (Z.of_nat k + 1)%Z)) in Hz.
    + apply in_loop_pushes_line in H. simpl in H. lia.
  - rewrite checkMaintainability_pushed, in_app_iff in H. destruct H as [H|H].
    + revert H. apply in_pushed_line. intros k x z Hz. unfold magic_pushes in Hz.
      destruct (negb _); [|contradiction].
      now apply (flat_map_cond_line _ (fun num => ReviewCode.magic_issue k num) _
                   (n := (Z.of_nat k + 1)%Z)) in Hz.
    + revert H. apply in_pushed_line. intros k x z Hz. unfold params_pushes in Hz.
      now apply (flat_map_cond_line _
                   (fun m => ReviewCode.params_issue k (List.length (split_on "," m))) _
                   (n := (Z.of_nat k + 1)%Z)) in Hz.
Qed.

Lemma findings_anchored_within_file_witness :
  (1 <= ReviewCode.line (ReviewCode.secret_issue 0) <=
   Z.of_nat (List.length
               (ReviewCode.fa_lines (ReviewCode.analyzeOne (str "config.js") api_key_line))))%Z.
Proof.
  apply (@findings_anchored_within_file (str "config.js") api_key_line
           (ReviewCode.secret_issue 0)).
  vm_compute. now left.
Defined.

(** ** Lines of a text *)

Lemma split_on_length (d : ascii) (s : jsstr) :
  List.length (split_on d s) = S (List.length (filter (fun c => Ascii.eqb c d) s)).
Proof.
  induction s as [|c s IH]; [reflexivity|].
  simpl. destruct (Ascii.eqb c d); simpl; [now rewrite IH|].
  destruct (split_on d s) as [|l ls]; simpl in *; lia.
Qed.

Lemma split_on_app (d : ascii) (a b : jsstr) :
  split_on d (a ++ b) =
  removelast (split_on d a) ++
  (last (split_on d a) [] ++ hd [] (split_on d b)) :: tl (split_on d b).
Proof.
  induction a as [|c a IH].
  - simpl. destruct (split_on d b) as [|l ls] eqn:E;
      [now apply split_on_nonempty in E | reflexivity].
  - cbn [app split_on]. rewrite IH. clear IH.
    destruct (Ascii.eqb c d).
    + destruct (split_on d a) as [|l ls] eqn:E; [now apply split_on_nonempty in E|].
      reflexivity.
    + destruct (split_on d a) as [|l ls] eqn:E; [now apply split_on_nonempty in E|].
      destruct ls as [|l' ls]; reflexivity.
Qed.

Lemma filter_firstn_length {A : Type} (p : A -> bool) (n : nat) (l : list A) :
  List.length (filter p (firstn n l)) <= List.length (filter p l).
Proof.
  revert n. induction l as [|x l IH]; intros n; destruct n; simpl; try lia.
  specialize (IH n). destruct (p x); simpl; lia.
Qed.

(** The number of lines is one more than the number of line breaks, so a
    text always has a line, and a prefix of a text has no more lines than
    the text. *)
Lemma line_count_of_text (s : jsstr) (n : nat) :
  List.length (split_lines s) =
    S (List.length (filter (fun c => Ascii.eqb c newline) s)) /\
  1 <= List.length (split_lines s) /\
  List.length (split_lines (firstn n s)) <= List.length (split_lines s).
Proof.
  unfold split_lines. rewrite !split_on_length.
  repeat split; try lia.
  pose proof (filter_firstn_length (fun c => Ascii.eqb c newline) n s). lia.
Qed.

Lemma first_line_prefix (k : nat) (b : jsstr) :
  no_newline (firstn k b) ->
  firstn k (hd [] (split_lines b)) = firstn k b.
Proof.
  revert b. induction k as [|k IH]; intros b N; [reflexivity|].
  destruct b as [|c b]; [reflexivity|].
  cbn [firstn] in N. inversion N as [|? ? Hc N']; subst.
  unfold split_lines in *. cbn [split_on].
  destruct (Ascii.eqb c newline) eqn:E; [apply Ascii.eqb_eq in E; contradiction|].
  specialize (IH b N').
  destruct (split_on newline b) as [|l ls] eqn:Es; [now apply split_on_nonempty in Es|].
  cbn [hd firstn] in *. now rewrite IH.
Qed.

Lemma nth_error_removelast_last {A : Type} (l : list A) (x : A) (r : list A) :
  l <> [] ->
  nth_error (removelast l ++ x :: r) (List.length l - 1) = Some x.
Proof.
  intros H. destruct (exists_last H) as (l' & a & ->).
  rewrite removelast_last, length_app. simpl.
  replace (List.length l' + 1 - 1) with (List.length l' + 0) by lia.
  now rewrite nth_error_app2, Nat.add_0_r, Nat.sub_diag by lia.
Qed.

(** The line and column computed from an offset point back at the offset:
    the text that follows the offset, up to its first line break, is found
    on that line from that column on. *)
Lemma offset_line_column (s w : jsstr) (idx : nat) :
  firstn (List.length w) (skipn idx s) = w ->
  no_newline w ->
  let before := split_lines (firstn idx s) in
  exists l,
    nth_error (split_lines s) (List.length before - 1) = Some l /\
    firstn (List.length w) (skipn (List.length (last before [])) l) = w.
Proof.
  intros Hw N before. subst before.
  assert (Es : split_lines s = split_on newline (firstn idx s ++ skipn idx s))
    by now rewrite firstn_skipn.
  rewrite Es, split_on_app. fold (split_lines (firstn idx s)). eexists. split.
  - apply nth_error_removelast_last. apply split_on_nonempty.
  - rewrite skipn_app, skipn_all, Nat.sub_diag. cbn [skipn app].
    fold (split_lines (skipn idx s)).
    rewrite first_line_prefix; [exact Hw | now rewrite Hw].
Qed.

(** ** Findings of the first implementation and where they point *)

Lemma semicolon_check_issues (fi : PerformReview.fileInfo)
      (l : list PerformReview.issue) (y : PerformReview.issue) :
  In y (PerformReview.semicolon_check fi l) ->
  In y l \/ y = PerformReview.semicolon_issue.
Proof.
  unfold PerformReview.semicolon_check, PerformReview.push.
  destruct (_ || _); [|now left].
  destruct (PerformReview.gt_times_0_3 _ _); [|now left].
  rewrite in_app_iff. intros [H|[<-|[]]]; [now left | now right].
Qed.

(** X4.  Every issue of an analysed file is anchored at a line between 1 and the
    number of lines of the whole file, at a column from 1 on. *)
Theorem issues_anchored_within_file
        (f : PerformReview.disk_file) (fi : PerformReview.fileInfo)
        (sa : PerformReview.staticAnalysis) (y : PerformReview.issue) :
  PerformReview.analyzeFile f = PerformReview.Analyzed fi sa ->
  In y (PerformReview.issues sa) ->
  1 <= PerformReview.line y <= PerformReview.lines fi /\
  1 <= PerformReview.column y.
Proof.
  unfold PerformReview.analyzeFile, slice0.
  generalize (Z.to_nat 10000). intros n.
  destruct (PerformReview.df_read f) as [e|[content size]]; [discriminate|].
  destruct (50000 <? _)%Z; [discriminate|].
  intros [= <- <-]. cbn [PerformReview.issues PerformReview.performStaticAnalysis
                         PerformReview.lines PerformReview.content].
  intros H. apply semicolon_check_issues in H. destruct H as [H| ->].
  - apply pattern_issue_located in H.
    destruct H as (idx & w & _ & _ & _ & _ & -> & ->).
    destruct (line_count_of_text content idx) as (_ & _ & L).
    destruct (line_count_of_text (firstn idx content) 0) as (_ & L1 & _).
    lia.
  - cbn. destruct (line_count_of_text content 0) as (_ & L1 & _). lia.
Qed.

Lemma issues_anchored_within_file_witness :
  1 <= PerformReview.line
         (PerformReview.mkIssue PerformReview.CRITICAL PerformReview.Security
            (str "Use of eval() can lead to security vulnerabilities")
            1 1 (Some (str "eval("))) <= 1.
Proof.
  refine (proj1 (@issues_anchored_within_file
                   (PerformReview.mkDisk (str "a.js") (str ".js") (inr (str "eval(x)", 7%Z)))
                   _ _ (PerformReview.mkIssue PerformReview.CRITICAL PerformReview.Security
                          (str "Use of eval() can lead to security vulnerabilities")
                          1 1 (Some (str "eval("))) eq_refl _)).
  vm_compute. now left.
Defined.

(** X5.  The line and column of a pattern finding point at its matched text:
    when the match has no line break, the file's line at that number reads
    the matched text from that column on. *)
Theorem pattern_finding_points_at_match
        (content w : jsstr) (y : PerformReview.issue) :
  In y (PerformReview.pattern_issues (firstn (Z.to_nat 10000) content)) ->
  PerformReview.code y = Some w ->
  no_newline w ->
  exists l,
    nth_error (split_lines content) (PerformReview.line y - 1) = Some l /\
    firstn (List.length w) (skipn (PerformReview.column y - 1) l) = w.
Proof.
  intros H Hc N. apply pattern_issue_located in H.
  destruct H as (idx & w' & Hc' & _ & _ & Hw & -> & ->).
  rewrite Hc in Hc'. injection Hc' as <-.
  destruct (@offset_line_column content w idx Hw N) as (l & H1 & H2).
  exists l. split; [exact H1|].
  now rewrite Nat.add_sub.
Qed.

Lemma pattern_finding_points_at_match_witness :
  exists l,
    nth_error (split_lines (str "let a;" ++ [newline] ++ str "  eval (a)")) (2 - 1) = Some l /\
    firstn 6 (skipn (3 - 1) l) = str "eval (".
Proof.
  refine (@pattern_finding_points_at_match
            (str "let a;" ++ [newline] ++ str "  eval (a)") (str "eval (")
            (PerformReview.mkIssue PerformReview.CRITICAL PerformReview.Security
               (str "Use of eval() can lead to security vulnerabilities")
               2 3 (Some (str "eval ("))) _ eq_refl _).
  - vm_compute. now left.
  - repeat constructor; intros X; vm_compute in X; discriminate X.
Defined.

(** ** The sorted report and its groupings *)

Section SortedInput.

Context {A : Type}.
Variable rank : A -> Z.

Lemma sort_sorted_id (l : list A) :
  StronglySorted (fun a b => (rank a <= rank b)%Z) l ->
  Js.sort (fun a b => (rank a - rank b)%Z) l = l.
Proof.
  induction 1 as [|x l Hs IH Hx]; [reflexivity|].
  simpl. rewrite IH. destruct l as [|y l]; [reflexivity|].
  simpl. inversion Hx as [|? ? Hy _]; subst.
  destruct (rank x - rank y <=? 0)%Z eqn:E; [reflexivity|].
  apply Z.leb_gt in E. lia.
Qed.

Lemma sort_idempotent (l : list A) :
  Js.sort (fun a b => (rank a - rank b)%Z) (Js.sort (fun a b => (rank a - rank b)%Z) l) =
  Js.sort (fun a b => (rank a - rank b)%Z) l.
Proof. apply sort_sorted_id, (sort_sorted rank). Qed.

(** In a sorted list the elements of the least rank are a prefix. *)
Lemma sorted_least_prefix (r : Z) (l : list A) :
  (forall a, (r <= rank a)%Z) ->
  StronglySorted (fun a b => (rank a <= rank b)%Z) l ->
  filter (fun a => rank a =? r)%Z l =
  firstn (List.length (filter (fun a => rank a =? r)%Z l)) l.
Proof.
  intros Hr. induction 1 as [|x l Hs IH Hx]; [reflexivity|].
  simpl. destruct (rank x =? r)%Z eqn:E; simpl; [now rewrite <- IH|].
  apply Z.eqb_neq in E.
  rewrite filter_nothing; [reflexivity|].
  eapply Forall_impl; [|exact Hx]. intros y Hy. cbv beta in Hy.
  apply Z.eqb_neq. specialize (Hr x). lia.
Qed.

End SortedInput.

(** X6.  Sorting is idempotent: the issues of a report are already in the order
    that sorting them again would give. *)
Theorem report_issues_stay_sorted :
  (forall fileAnalyses : list PerformReview.analysis,
     let allIssues :=
       PerformReview.report_issues (PerformReview.generateReviewReport fileAnalyses) in
     Js.sort PerformReview.by_severity allIssues = allIssues) /\
  (forall analysis : list ReviewCode.fileAnalysis,
     Js.sort ReviewCode.by_severity (ReviewCode.identifyIssues analysis) =
     ReviewCode.identifyIssues analysis).
Proof.
  split.
  - intros fileAnalyses allIssues. subst allIssues. simpl.
    apply (sort_idempotent performReview_rank).
  - intros analysis. unfold ReviewCode.identifyIssues.
    apply (sort_idempotent reviewCode_rank).
Qed.

(** X7.  The issues listed under "High Priority Fixes" are the first issues of
    the sorted list: as many as there are high issues, and at most five. *)
Theorem priority_fixes_lead_the_report (analysis : list ReviewCode.fileAnalysis) :
  let issues := ReviewCode.identifyIssues analysis in
  ReviewCode.priorityFixes issues =
  firstn (Nat.min 5 (ReviewCode.stat_high (ReviewCode.getStats issues))) issues.
Proof.
  intros issues. subst issues.
  unfold ReviewCode.priorityFixes. cbn [ReviewCode.stat_high ReviewCode.getStats].
  rewrite !(filter_ext _ _ (reviewCode_has_severity_rank ReviewCode.high)).
  rewrite (sorted_least_prefix reviewCode_rank) at 1.
  - apply firstn_firstn.
  - intros a. unfold reviewCode_rank.
    destruct (ReviewCode.severity_of (ReviewCode.the_issue a)); simpl; lia.
  - unfold ReviewCode.identifyIssues. apply (sort_sorted reviewCode_rank).
Qed.

(** *** Objects used as maps *)

Section AssocUpdate.

Context {K V : Type}.
Variable eqb : K -> K -> bool.
Hypothesis eqb_spec : forall a b, eqb a b = true <-> a = b.

Lemma assoc_get_update (k k' : K) (f : option V -> V) (m : list (K * V)) :
  assoc_get eqb k' (assoc_update eqb k f m) =
  if eqb k' k then Some (f (assoc_get eqb k m)) else assoc_get eqb k' m.
Proof.
  induction m as [|[k0 v] m IH]; simpl.
  - reflexivity.
  - destruct (eqb k k0) eqn:E; simpl.
    + apply eqb_spec in E. subst k0. destruct (eqb k' k); reflexivity.
    + rewrite IH. destruct (eqb k' k0) eqn:E0; [|reflexivity].
      apply eqb_spec in E0. subst k0.
      destruct (eqb k' k) eqn:E1; [|reflexivity].
      apply eqb_spec in E1. subst k'.
      assert (eqb k k = true) by now apply eqb_spec. congruence.
Qed.

Lemma assoc_update_keys (k : K) (f : option V -> V) (m : list (K * V)) :
  map fst (assoc_update eqb k f m) =
  if existsb (eqb k) (map fst m) then map fst m else map fst m ++ [k].
Proof.
  induction m as [|[k0 v] m IH]; simpl; [reflexivity|].
  destruct (eqb k k0); simpl; [reflexivity|].
  rewrite IH. now destruct (existsb (eqb k) (map fst m)).
Qed.

Lemma assoc_update_NoDup (k : K) (f : option V -> V) (m : list (K * V)) :
  NoDup (map fst m) -> NoDup (map fst (assoc_update eqb k f m)).
Proof.
  intros N. rewrite assoc_update_keys.
  destruct (existsb (eqb k) (map fst m)) eqn:E; [exact N|].
  apply NoDup_app; [exact N | repeat constructor; intros [] |].
  intros x Hx [->|[]].
  assert (X : existsb (eqb x) (map fst m) = true).
  { apply existsb_exists. exists x. split; [exact Hx | now apply eqb_spec]. }
  rewrite X in E. discriminate E.
Qed.

End AssocUpdate.

Lemma category_eqb_spec (a b : ReviewCode.category) :
  ReviewCode.category_eqb a b = true <-> a = b.
Proof. destruct a, b; simpl; split; intros H; try reflexivity; discriminate H. Qed.

Lemma severity_eqb_spec (a b : ReviewCode.severity) :
  ReviewCode.severity_eqb a b = true <-> a = b.
Proof. destruct a, b; simpl; split; intros H; try reflexivity; discriminate H. Qed.

Lemma fold_left_snoc {A B : Type} (f : B -> A -> B) (l : list A) (x : A) (b : B) :
  fold_left f (l ++ [x]) b = f (fold_left f l b) x.
Proof. now rewrite fold_left_app. Qed.

(** X8.  Each category of the report lists exactly the issues of that category,
    in their order in the sorted list; a category without issues has no
    section, and no category has two. *)
Theorem byCategory_groups (issues : list ReviewCode.filed) (c : ReviewCode.category) :
  assoc_get ReviewCode.category_eqb c (ReviewCode.byCategory issues) =
    match filter (filed_in_category c) issues with
    | [] => None
    | g => Some g
    end /\
  NoDup (map fst (ReviewCode.byCategory issues)).
Proof.
  unfold ReviewCode.byCategory.
  induction issues as [|i issues [IH N]] using rev_ind; [split; [reflexivity | constructor]|].
  rewrite fold_left_snoc. split.
  - rewrite (assoc_get_update _ category_eqb_spec), filter_app. cbn [filter].
    unfold filed_in_category at 2.
    destruct (ReviewCode.category_eqb c (ReviewCode.category_of (ReviewCode.the_issue i)))
      eqn:E.
    + apply category_eqb_spec in E. subst c.
      assert (R : ReviewCode.category_eqb
                    (ReviewCode.category_of (ReviewCode.the_issue i))
                    (ReviewCode.category_of (ReviewCode.the_issue i)) = true)
        by now apply category_eqb_spec.
      rewrite R, IH. unfold ReviewCode.push.
      destruct (filter _ issues); reflexivity.
    + assert (R : ReviewCode.category_eqb
                    (ReviewCode.category_of (ReviewCode.the_issue i)) c = false).
      { destruct (ReviewCode.category_eqb _ c) eqn:R; [|reflexivity].
        apply category_eqb_spec in R. subst c.
        assert (ReviewCode.category_eqb
                  (ReviewCode.category_of (ReviewCode.the_issue i))
                  (ReviewCode.category_of (ReviewCode.the_issue i)) = true)
          by now apply category_eqb_spec.
        congruence. }
      rewrite R, app_nil_r. exact IH.
  - now apply (assoc_update_NoDup _ category_eqb_spec).
Qed.

(** X9.  The counts printed under "Issues by Severity" are the counts of
    [getStats]. *)
Theorem bySeverity_agrees_with_getStats (issues : list ReviewCode.filed) :
  let st := ReviewCode.getStats issues in
  tally ReviewCode.high issues = Z.of_nat (ReviewCode.stat_high st) /\
  tally ReviewCode.medium issues = Z.of_nat (ReviewCode.stat_medium st) /\
  tally ReviewCode.low issues = Z.of_nat (ReviewCode.stat_low st) /\
  tally ReviewCode.info issues = Z.of_nat (ReviewCode.stat_info st).
Proof.
  assert (G : forall s,
             assoc_get ReviewCode.severity_eqb s (ReviewCode.bySeverity issues) =
             match List.length (filter (ReviewCode.has_severity s) issues) with
             | O => None
             | S n => Some (Z.of_nat (S n))
             end).
  { intros s. unfold ReviewCode.bySeverity.
    induction issues as [|i issues IH] using rev_ind; [reflexivity|].
    rewrite fold_left_snoc, (assoc_get_update _ severity_eqb_spec), filter_app, length_app.
    cbn [filter]. unfold ReviewCode.has_severity at 2.
    destruct (ReviewCode.severity_eqb s (ReviewCode.severity_of (ReviewCode.the_issue i)))
      eqn:E.
    - apply severity_eqb_spec in E. subst s.
      assert (R : ReviewCode.severity_eqb
                    (ReviewCode.severity_of (ReviewCode.the_issue i))
                    (ReviewCode.severity_of (ReviewCode.the_issue i)) = true)
        by now apply severity_eqb_spec.
      rewrite R, IH. cbn [List.length].
      destruct (List.length (filter _ issues)) as [|n]; cbn [Nat.add]; f_equal; lia.
    - assert (R : ReviewCode.severity_eqb
                    (ReviewCode.severity_of (ReviewCode.the_issue i)) s = false).
      { destruct (ReviewCode.severity_eqb _ s) eqn:R; [|reflexivity].
        apply severity_eqb_spec in R. subst s.
        assert (ReviewCode.severity_eqb
                  (ReviewCode.severity_of (ReviewCode.the_issue i))
                  (ReviewCode.severity_of (ReviewCode.the_issue i)) = true)
          by now apply severity_eqb_spec.
        congruence. }
      rewrite R. cbn [List.length]. rewrite Nat.add_0_r. exact IH. }
  intros st. subst st. unfold tally. cbn [ReviewCode.getStats ReviewCode.stat_high
    ReviewCode.stat_medium ReviewCode.stat_low ReviewCode.stat_info].
  rewrite !G.
  repeat split;
    match goal with
    | |- context [List.length ?l] => destruct (List.length l); [reflexivity|]
    end;
    match goal with
    | |- (if ?b then _ else _) = _ => destruct b eqn:E; [apply Z.eqb_eq in E; lia | reflexivity]
    end.
Qed.

(** ** Files, severities and the report *)

Lemma analyzeFiles_flat_map (codeFiles : list (jsstr * option jsstr)) :
  ReviewCode.analyzeFiles codeFiles =
  flat_map (fun f => match snd f with
                     | Some content => [ReviewCode.analyzeOne (fst f) content]
                     | None => []
                     end) codeFiles.
Proof.
  unfold ReviewCode.analyzeFiles.
  rewrite (fold_left_ext _
             (fun acc f => acc ++ match snd f with
                                  | Some content => [ReviewCode.analyzeOne (fst f) content]
                                  | None => []
                                  end)).
  - now rewrite fold_left_app_flat_map.
  - intros acc f. unfold ReviewCode.push.
    destruct (snd f); [reflexivity | now rewrite app_nil_r].
Qed.

Lemma loop_pushes_Forall (P : ReviewCode.issue -> Prop) (l : list jsstr) :
  (forall i, P (ReviewCode.nested_loop_issue i)) ->
  forall d i, Forall P (loop_pushes d i l).
Proof.
  intros HP. induction l as [|x l IH]; intros d i; simpl; [constructor|].
  apply Forall_app. split; [|apply IH].
  destruct (_ && _); repeat constructor. apply HP.
Qed.

Lemma analysis_severity_by_category (file content : jsstr) :
  Forall (fun y => ReviewCode.severity_of y = severity_for (ReviewCode.category_of y))
         (ReviewCode.fa_issues (ReviewCode.analyzeOne file content)).
Proof.
  cbn [ReviewCode.fa_issues ReviewCode.analyzeOne].
  repeat (apply Forall_app; split).
  - destruct (checkCommonIssues_span content) as (added & -> & F & _).
    repeat (apply Forall_app; split).
    + apply Forall_pushed_from. intros k x. unfold console_log_pushes.
      destruct (_ && _); repeat constructor.
    + apply Forall_pushed_from. intros k x. unfold todo_pushes.
      destruct (_ || _); repeat constructor.
    + eapply Forall_impl; [|exact F]. intros y (start & m & -> & _). reflexivity.
  - rewrite checkSecurity_pushed. apply Forall_app. split.
    + apply Forall_pushed_from. intros k x. unfold secret_pushes.
      now apply Forall_flat_map_cond.
    + destruct (includes _ _); repeat constructor.
  - rewrite checkPerformance_pushed. apply Forall_app. split.
    + apply Forall_pushed_from. intros k x. unfold sync_pushes.
      now apply (Forall_flat_map_cond _
                   (fun method => includes method x && negb (startsWith (str "//") (trim x)))
                   (fun method => ReviewCode.sync_issue k method)).
    + now apply loop_pushes_Forall.
  - rewrite checkMaintainability_pushed. apply Forall_app. split.
    + apply Forall_pushed_from. intros k x. unfold magic_pushes.
      destruct (negb _); [|constructor].
      now apply (Forall_flat_map_cond _
                   (fun num => (1 <? parseInt_digits num)%Z &&
                               negb (parseInt_digits num =? 100)%Z &&
                               negb (parseInt_digits num =? 1000)%Z)
                   (fun num => ReviewCode.magic_issue k num)).
    + apply Forall_pushed_from. intros k x. unfold params_pushes.
      now apply (Forall_flat_map_cond _
                   (fun m => 4 <? List.length (split_on "," m))
                   (fun m => ReviewCode.params_issue k (List.length (split_on "," m)))).
Qed.

Lemma discovered_severity_by_category (codeFiles : list (jsstr * option jsstr)) :
  Forall (fun i => ReviewCode.severity_of (ReviewCode.the_issue i) =
                   severity_for (ReviewCode.category_of (ReviewCode.the_issue i)))
         (reviewCode_discovered (ReviewCode.analyzeFiles codeFiles)).
Proof.
  rewrite Forall_forall. intros i Hi. unfold reviewCode_discovered in Hi.
  apply in_flat_map in Hi. destruct Hi as (fa & Hfa & Hi).
  rewrite analyzeFiles_flat_map in Hfa. apply in_flat_map in Hfa.
  destruct Hfa as (f & _ & Hfa). destruct (snd f) as [content|]; [|contradiction].
  destruct Hfa as [<-|[]]. unfold reviewCode_stamp in Hi.
  apply in_map_iff in Hi. destruct Hi as (y & <- & Hy). cbn [ReviewCode.the_issue].
  pose proof (analysis_severity_by_category (fst f) content) as F.
  rewrite Forall_forall in F. now apply F.
Qed.

(** X10.  The severity of a finding is fixed by its category (Security is high,
    Performance and Code Complexity medium, Debug Code and Maintainability
    low, TODO/FIXME info); so in the sorted report the Security findings
    come first, and "High Priority Fixes" lists Security findings only. *)
Theorem security_findings_lead_the_report (codeFiles : list (jsstr * option jsstr)) :
  let issues := fst (ReviewCode.reviewCode codeFiles) in
  Forall (fun i => ReviewCode.severity_of (ReviewCode.the_issue i) =
                   severity_for (ReviewCode.category_of (ReviewCode.the_issue i))) issues /\
  filter (filed_in_category ReviewCode.Security) issues =
    firstn (List.length (filter (filed_in_category ReviewCode.Security) issues)) issues /\
  Forall (fun i => ReviewCode.category_of (ReviewCode.the_issue i) = ReviewCode.Security)
         (ReviewCode.priorityFixes issues).
Proof.
  intros issues. subst issues. cbn [fst ReviewCode.reviewCode].
  assert (F : Forall (fun i => ReviewCode.severity_of (ReviewCode.the_issue i) =
                               severity_for (ReviewCode.category_of (ReviewCode.the_issue i)))
                     (ReviewCode.identifyIssues (ReviewCode.analyzeFiles codeFiles))).
  { unfold ReviewCode.identifyIssues.
    apply (Permutation_Forall (sort_perm reviewCode_rank _)).
    rewrite reviewCode_collect_discovered. apply discovered_severity_by_category. }
  set (issues := ReviewCode.identifyIssues (ReviewCode.analyzeFiles codeFiles)) in *.
  assert (E : forall i, In i issues ->
                filed_in_category ReviewCode.Security i =
                (reviewCode_rank i =? ReviewCode.severityOrder ReviewCode.high)%Z).
  { intros i Hi. rewrite Forall_forall in F. specialize (F i Hi).
    unfold filed_in_category, reviewCode_rank. rewrite F.
    now destruct (ReviewCode.category_of (ReviewCode.the_issue i)). }
  split; [exact F|]. split.
  - rewrite (filter_ext_in _ _ _ E).
    apply (sorted_least_prefix reviewCode_rank).
    + intros a. unfold reviewCode_rank.
      destruct (ReviewCode.severity_of (ReviewCode.the_issue a)); simpl; lia.
    + apply (sort_sorted reviewCode_rank).
  - unfold ReviewCode.priorityFixes. rewrite Forall_forall. intros i Hi.
    assert (Hi' : In i (filter (ReviewCode.has_severity ReviewCode.high) issues)).
    { rewrite <- (firstn_skipn 5 (filter _ issues)). apply in_or_app. now left. }
    apply filter_In in Hi'. destruct Hi' as [Hi' Hs]. clear Hi. rename Hi' into Hi.
    rewrite reviewCode_has_severity_rank, <- (E i Hi) in Hs.
    unfold filed_in_category in Hs. now apply category_eqb_spec in Hs.
Qed.

(** X11.  A file that cannot be read leaves the report as it is without the
    file, and the statistics do not depend on the order of the files. *)
Theorem unreadable_file_and_file_order
        (before after : list (jsstr * option jsstr)) (file : jsstr) :
  ReviewCode.reviewCode (before ++ (file, None) :: after) =
    ReviewCode.reviewCode (before ++ after) /\
  (forall codeFiles,
     Permutation (before ++ after) codeFiles ->
     snd (ReviewCode.reviewCode codeFiles) = snd (ReviewCode.reviewCode (before ++ after))).
Proof.
  split.
  - unfold ReviewCode.reviewCode. rewrite !analyzeFiles_flat_map, !flat_map_app.
    reflexivity.
  - intros codeFiles P. unfold ReviewCode.reviewCode. cbn [snd].
    unfold ReviewCode.getStats, ReviewCode.identifyIssues.
    rewrite !reviewCode_sort_filter.
    rewrite <- !(Permutation_length (sort_perm reviewCode_rank _)).
    rewrite !reviewCode_collect_discovered.
    assert (Q : Permutation
                  (reviewCode_discovered (ReviewCode.analyzeFiles (before ++ after)))
                  (reviewCode_discovered (ReviewCode.analyzeFiles codeFiles))).
    { unfold reviewCode_discovered. rewrite !analyzeFiles_flat_map.
      now apply Permutation_flat_map, Permutation_flat_map. }
    assert (L : forall p, List.length (filter p
                  (reviewCode_discovered (ReviewCode.analyzeFiles codeFiles))) =
                List.length (filter p
                  (reviewCode_discovered (ReviewCode.analyzeFiles (before ++ after))))).
    { intros p. symmetry. apply Permutation_length.
      clear -Q. induction Q; simpl; auto.
      - destruct (p x); auto.
      - destruct (p x), (p y); auto using perm_swap.
      - etransitivity; eassumption. }
    rewrite !L. now rewrite (Permutation_length Q).
Qed.

Lemma unreadable_file_and_file_order_witness :
  snd (ReviewCode.reviewCode [(str "b.js", None); (str "a.js", Some api_key_line)]) =
  snd (ReviewCode.reviewCode [(str "a.js", Some api_key_line); (str "b.js", None)]).
Proof.
  apply (proj2 (unreadable_file_and_file_order
                  [(str "a.js", Some api_key_line)] [(str "b.js", None)] (str "c.js"))).
  apply perm_swap.
Defined.

(** ** The report and the scores of the first implementation *)

Lemma length_flat_map {A B : Type} (g : A -> list B) (l : list A) :
  List.length (flat_map g l) = sum_nat (map (fun x => List.length (g x)) l).
Proof.
  induction l as [|x l IH]; [reflexivity|].
  simpl. now rewrite length_app, IH.
Qed.

(** X12.  The report has one summary row per file, in the order of the files, and
    the issue counts of the rows add up to the total number of issues. *)
Theorem files_summary_accounts_for_issues (fileAnalyses : list PerformReview.analysis) :
  let r := PerformReview.generateReviewReport fileAnalyses in
  map PerformReview.fs_file (PerformReview.filesSummary r) =
    map PerformReview.analysis_path fileAnalyses /\
  PerformReview.filesReviewed (PerformReview.report_summary r) =
    List.length (PerformReview.filesSummary r) /\
  sum_nat (map PerformReview.fs_issues (PerformReview.filesSummary r)) =
    PerformReview.totalIssues (PerformReview.report_summary r).
Proof.
  intros r. subst r. cbn.
  repeat split.
  - now rewrite map_map.
  - now rewrite length_map.
  - rewrite <- (Permutation_length (sort_perm performReview_rank _)).
    rewrite performReview_collect_discovered. unfold performReview_discovered.
    rewrite length_flat_map, map_map. unfold sum_nat. f_equal. apply map_ext. intros a.
    unfold performReview_stamp. destruct a; cbn; now rewrite ?length_map.
Qed.

(** X13.  The complexity score is one plus the number of matches of the seven
    indicator patterns, capped at 100; it is never below 1. *)
Theorem complexity_score_bounds (content : jsstr) :
  PerformReview.calculateComplexity content =
    Z.min (1 + Z.of_nat (total_matches content)) 100 /\
  (1 <= PerformReview.calculateComplexity content <= 100)%Z.
Proof.
  unfold PerformReview.calculateComplexity, total_matches.
  assert (G : forall l acc,
             fold_left
               (fun complexity pattern =>
                  match match_g false pattern content with
                  | [] => complexity
                  | _ :: _ =>
                      (complexity + Z.of_nat (List.length (match_g false pattern content)))%Z
                  end) l acc =
             (acc + Z.of_nat (sum_nat (map (fun pattern =>
                                              List.length (match_g false pattern content)) l)))%Z).
  { induction l as [|p l IH]; intros acc; simpl; [lia|].
    rewrite IH. destruct (match_g false p content); simpl List.length; lia. }
  cbv zeta.
  match goal with
  | |- Z.min ?x 100 = _ /\ _ =>
      assert (E : x = (1 + Z.of_nat (sum_nat (map (fun pattern =>
                    List.length (match_g false pattern content))
                    PerformReview.complexityIndicators)))%Z)
  end.
  { etransitivity; [|apply G]. apply fold_left_ext. intros b a.
    destruct (match_g false a content); reflexivity. }
  rewrite E. split; [reflexivity | lia].
Qed.

Lemma quotient_bounds (a b : nat) :
  1 <= b -> (0 <= PerformReview.quotient a b)%Q /\
            (a <= b -> (PerformReview.quotient a b <= 1)%Q).
Proof.
  intros Hb. unfold PerformReview.quotient, Qle. simpl.
  assert (P : Z.pos (Pos.of_nat b) = Z.of_nat b).
  { destruct b as [|b]; [lia|]. rewrite <- Pos.of_nat_succ.
    now rewrite Zpos_P_of_succ_nat, Nat2Z.inj_succ. }
  split; [lia|]. intros H. rewrite P. lia.
Qed.

(** X14.  The comment ratio lies between 0 and 1, and the average line length is
    not negative. *)
Theorem comment_ratio_range (content : jsstr) (fi : PerformReview.fileInfo) :
  let m := PerformReview.assessMaintainability content fi in
  (0 <= PerformReview.commentRatio m)%Q /\
  (PerformReview.commentRatio m <= 1)%Q /\
  (0 <= PerformReview.avgLineLength m)%Q.
Proof.
  intros m. subst m. unfold PerformReview.assessMaintainability.
  cbn [PerformReview.commentRatio PerformReview.avgLineLength].
  destruct (line_count_of_text content 0) as (_ & L & _).
  repeat split.
  - now apply quotient_bounds.
  - apply quotient_bounds; [exact L|]. apply filter_length_le.
  - now apply quotient_bounds.
Qed.

(** *** The semicolon heuristic *)

Lemma all_from_spec (p : Z -> bool) (k : nat) :
  forall n, all_from k n p = true ->
            forall m, (n <= m < n + Z.of_nat k)%Z -> p m = true.
Proof.
  induction k as [|k IH]; intros n H m Hm; [lia|].
  simpl in H. apply andb_true_iff in H. destruct H as [H1 H2].
  destruct (Z.eq_dec m n) as [->|Hne]; [exact H1|].
  apply (IH (n + 1)%Z H2). lia.
Qed.

Lemma threshold_exact_upto_60000 :
  all_from (Z.to_nat 60001) 0 threshold_exact = true.
Proof. vm_compute. reflexivity. Qed.

Lemma gt_times_0_3_exact (a n : Z) :
  (0 <= n <= 60000)%Z ->
  PerformReview.gt_times_0_3 a n = (3 * n <? 10 * a)%Z.
Proof.
  intros Hn.
  assert (T : threshold_exact n = true).
  { apply (@all_from_spec threshold_exact (Z.to_nat 60001) 0
             threshold_exact_upto_60000). lia. }
  unfold threshold_exact in T. apply andb_true_iff in T. destruct T as [T1 T2].
  apply Z.ltb_lt in T1. apply negb_true_iff, Z.ltb_ge in T2.
  unfold PerformReview.gt_times_0_3. rewrite Z.shiftl_mul_pow2 by lia.
  assert (P : (0 < 2 ^ 54)%Z) by reflexivity.
  set (t := PerformReview.times_0_3 n) in *.
  assert (D : (10 * (3 * n / 10) <= 3 * n < 10 * (3 * n / 10) + 10)%Z)
    by (pose proof (Z.div_mod (3 * n) 10); pose proof (Z.mod_pos_bound (3 * n) 10); lia).
  generalize dependent (3 * n / 10)%Z. intros d T1 T2 D.
  generalize dependent (2 ^ 54)%Z. intros q T1 T2 P.
  destruct (3 * n <? 10 * a)%Z eqn:E.
  - apply Z.ltb_lt in E. apply Z.ltb_lt.
    assert (d + 1 <= a)%Z by lia. nia.
  - apply Z.ltb_ge in E. apply Z.ltb_ge.
    assert (a <= d)%Z by lia. nia.
Qed.

Lemma semicolon_issue_not_pattern (content : jsstr) :
  ~ In PerformReview.semicolon_issue (PerformReview.pattern_issues content).
Proof.
  rewrite pattern_issues_flat_map. intros H.
  apply in_flat_map in H. destruct H as (rule & Hr & H).
  apply in_map_iff in H. destruct H as (m & H & _).
  apply (f_equal PerformReview.type) in H. simpl in H.
  unfold PerformReview.patterns in Hr. simpl in Hr.
  destruct Hr as [<-|[<-|[<-|[<-|[<-|[]]]]]]; discriminate H.
Qed.

(** X15.  The style issue about semicolons is reported exactly for a [.js] or
    [.ts] file in which more than three tenths of the file's lines are
    non-blank, non-comment lines that do not end in [;], [{] or [}]; the
    rounding of the product by 0.3 never changes the outcome. *)
Theorem semicolon_issue_exact_threshold (fi : PerformReview.fileInfo) :
  (Z.of_nat (PerformReview.lines fi) <= 60000)%Z ->
  In PerformReview.semicolon_issue
     (PerformReview.issues (PerformReview.performStaticAnalysis fi)) <->
  is_semicolon_language fi = true /\
  3 * PerformReview.lines fi < 10 * open_statements fi.
Proof.
  intros Hl. unfold PerformReview.performStaticAnalysis.
  cbn [PerformReview.issues]. unfold PerformReview.semicolon_check.
  fold (is_semicolon_language fi). fold (open_statements fi).
  rewrite gt_times_0_3_exact by lia.
  pose proof (@semicolon_issue_not_pattern (PerformReview.content fi)) as N.
  destruct (is_semicolon_language fi).
  - destruct (3 * Z.of_nat (PerformReview.lines fi) <?
              10 * Z.of_nat (open_statements fi))%Z eqn:E.
    + apply Z.ltb_lt in E. unfold PerformReview.push. rewrite in_app_iff.
      split; [intros _; split; [reflexivity | lia] | intros _; right; now left].
    + apply Z.ltb_ge in E. split; [contradiction | intros [_ H]; lia].
  - split; [contradiction | intros [H _]; discriminate H].
Qed.

Lemma semicolon_issue_exact_threshold_witness :
  In PerformReview.semicolon_issue
     (PerformReview.issues
        (PerformReview.performStaticAnalysis
           (PerformReview.mkFileInfo (str "a.js") 5 (str ".js") 1 (str "let a")))).
Proof.
  apply (proj2 (@semicolon_issue_exact_threshold
                  (PerformReview.mkFileInfo (str "a.js") 5 (str ".js") 1 (str "let a"))
                  ltac:(cbn [PerformReview.lines]; lia))).
  split; [reflexivity | vm_compute; lia].
Defined.

(** ** More on the line scans of the second implementation *)

Lemma cursor_from_short (i : nat) :
  forall c, List.length (rest c) < i -> cursor_from c i = None.
Proof.
  induction i as [|i IH]; intros c H; [lia|].
  simpl. destruct (rest c) as [|x xs] eqn:E; [reflexivity|].
  apply IH. simpl in *. lia.
Qed.

Lemma test_g_short (ci : bool) (r : regex) (lastIndex : nat) (line : jsstr) :
  List.length line < lastIndex -> test_g ci r lastIndex line = (false, 0).
Proof.
  intros H. unfold test_g, cursor_at. now rewrite cursor_from_short.
Qed.

Lemma brace_step_lastIndex (st : ReviewCode.span_state) (i : nat) (x : jsstr) :
  ReviewCode.lastIndex (ReviewCode.brace_step st i x) = ReviewCode.lastIndex st.
Proof.
  unfold ReviewCode.brace_step.
  destruct (ReviewCode.truthy _); [|reflexivity].
  cbv zeta. now destruct (_ && _).
Qed.

(** X16.  The declaration test resumes at the offset where the previous match
    ended: after a declaration is detected on a line, a next line shorter
    than that offset is not tested, so it never starts a span, whatever it
    contains; the test starts from offset 0 again on the line after it. *)
Theorem short_line_after_declaration_is_not_tested
        (st : ReviewCode.span_state) (index : nat) (line next : jsstr) (e : nat) :
  test_g false ReviewCode.functionRegex (ReviewCode.lastIndex st) line = (true, e) ->
  List.length next < e ->
  let st1 := ReviewCode.long_function_step st index line in
  let st2 := ReviewCode.long_function_step st1 (S index) next in
  ReviewCode.lastIndex st1 = e /\
  ReviewCode.functionStartLine st2 = (Z.of_nat index + 1)%Z /\
  ReviewCode.currentFunction st2 = Some (trim line) /\
  ReviewCode.lastIndex st2 = 0.
Proof.
  intros Hhit Hshort st1 st2.
  assert (L1 : ReviewCode.lastIndex st1 = e).
  { subst st1. unfold ReviewCode.long_function_step.
    rewrite brace_step_lastIndex. unfold ReviewCode.declaration_step.
    now rewrite Hhit. }
  assert (S1 : ReviewCode.functionStartLine st1 = (Z.of_nat index + 1)%Z /\
               ReviewCode.currentFunction st1 = Some (trim line)).
  { subst st1 st2.
    unfold ReviewCode.long_function_step, ReviewCode.declaration_step.
    rewrite Hhit. unfold ReviewCode.brace_step.
    cbn [ReviewCode.currentFunction ReviewCode.functionStartLine
         ReviewCode.braceCount ReviewCode.lastIndex ReviewCode.issues].
    destruct (ReviewCode.truthy (Some (trim line))); [|now split].
    cbv zeta. unfold ReviewCode.measured. cbn [ReviewCode.functionStartLine].
    replace (50 <? Z.of_nat index - (Z.of_nat index + 1) + 1)%Z with false
      by (symmetry; apply Z.ltb_ge; lia).
    rewrite andb_false_r. now split. }
  destruct S1 as [S1 C1]. split; [exact L1|].
  subst st2. unfold ReviewCode.long_function_step at 1 2 3.
  rewrite brace_step_lastIndex.
  unfold ReviewCode.declaration_step at 1 2 3.
  rewrite L1, (@test_g_short false ReviewCode.functionRegex e next Hshort).
  cbn [ReviewCode.lastIndex].
  unfold ReviewCode.brace_step.
  cbn [ReviewCode.currentFunction ReviewCode.functionStartLine
       ReviewCode.braceCount ReviewCode.lastIndex ReviewCode.issues].
  rewrite C1, S1.
  destruct (ReviewCode.truthy (Some (trim line))).
  - cbv zeta. unfold ReviewCode.measured. cbn [ReviewCode.functionStartLine].
    replace (50 <? Z.of_nat (S index) - (Z.of_nat index + 1) + 1)%Z with false
      by (symmetry; apply Z.ltb_ge; lia).
    rewrite andb_false_r. cbn. now repeat split.
  - cbn. now repeat split.
Qed.

Lemma short_line_after_declaration_is_not_tested_witness :
  ReviewCode.functionStartLine
    (ReviewCode.long_function_step
       (ReviewCode.long_function_step (ReviewCode.mkSpan None 0 0 0 []) 0
          (str "function outer() {"))
       1 (str "class A {")) = 1%Z.
Proof.
  refine (proj1 (proj2 (@short_line_after_declaration_is_not_tested
                          (ReviewCode.mkSpan None 0 0 0 []) 0
                          (str "function outer() {") (str "class A {") 14 _ _))).
  - vm_compute. reflexivity.
  - vm_compute. lia.
Defined.

(** *** Nested loops need three loop lines *)

Lemma next_depth_bounds (d : Z) (x : jsstr) :
  (0 <= d)%Z ->
  (0 <= next_depth d x <= d + (if ReviewCode.is_loop_line x then 1 else 0))%Z.
Proof.
  intros H. unfold next_depth.
  destruct (ReviewCode.is_loop_line x), (ReviewCode.has_closing_brace x); lia.
Qed.

Lemma fold_next_depth_bounds (l : list jsstr) :
  forall d, (0 <= d)%Z ->
            (0 <= fold_left next_depth l d <= d + Z.of_nat (loop_lines l))%Z.
Proof.
  unfold loop_lines.
  induction l as [|x l IH]; intros d H; simpl; [lia|].
  pose proof (next_depth_bounds x H) as B.
  specialize (IH (next_depth d x) (proj1 B)).
  destruct (ReviewCode.is_loop_line x); simpl List.length; lia.
Qed.

Lemma loop_lines_split (lines : list jsstr) (index : nat) (line : jsstr) :
  nth_error lines index = Some line ->
  ReviewCode.is_loop_line line = true ->
  loop_lines (firstn index lines) + 1 <= loop_lines lines.
Proof.
  intros H L. unfold loop_lines.
  rewrite <- (firstn_skipn index lines) at 2.
  rewrite filter_app, length_app.
  assert (E : skipn index lines = line :: skipn (S index) lines).
  { revert index H. induction lines as [|x l IH]; intros [|i] H; try discriminate H.
    - now injection H as ->.
    - simpl in *. now apply IH. }
  rewrite E. simpl. rewrite L. simpl. lia.
Qed.

(** X17.  [loopDepth] is never negative and never exceeds the number of
    loop-construct lines visited; so a file with fewer than three
    loop-construct lines gets no nested-loop finding. *)
Theorem nested_loop_finding_needs_three_loop_lines (content : jsstr) (index : nat) :
  let lines := split_lines content in
  (0 <= loop_depth_before lines index <= Z.of_nat (loop_lines (firstn index lines)))%Z /\
  (In (ReviewCode.nested_loop_issue index) (ReviewCode.checkPerformance content) ->
   3 <= loop_lines lines).
Proof.
  intros lines. subst lines.
  assert (B : (0 <= loop_depth_before (split_lines content) index <=
               Z.of_nat (loop_lines (firstn index (split_lines content))))%Z).
  { rewrite loop_depth_before_fold.
    pose proof (@fold_next_depth_bounds (firstn index (split_lines content)) 0%Z). lia. }
  split; [exact B|].
  intros H. apply nested_loop_issue_found in H.
  destruct H as (line & Hl & Hloop & Hd).
  pose proof (loop_lines_split _ _ Hl Hloop). lia.
Qed.

Lemma nested_loop_finding_needs_three_loop_lines_witness :
  3 <= loop_lines (split_lines four_deep).
Proof.
  refine (proj2 (nested_loop_finding_needs_three_loop_lines four_deep 2) _).
  vm_compute. now left.
Defined.

(** *** TODO markers, synchronous calls and [eval] *)

Lemma in_analysis_todo (file content : jsstr) (y : ReviewCode.issue) :
  ReviewCode.category_of y = ReviewCode.TodoFixme ->
  In y (ReviewCode.fa_issues (ReviewCode.analyzeOne file content)) <->
  In y (pushed_from todo_pushes 0 (split_lines content)).
Proof.
  intros C. rewrite in_analysis.
  destruct (checkCommonIssues_pushed content) as (added & -> & F).
  rewrite !in_app_iff. split; [|tauto].
  intros [[H|[H|H]]|[H|[H|H]]]; [| exact H | | | |].
  - apply in_pushed_from in H. destruct H as (k & x & _ & H).
    unfold console_log_pushes in H. destruct (_ && _); [|contradiction].
    destruct H as [<-|[]]. discriminate.
  - apply (in_category F) in H. rewrite C in H. discriminate.
  - apply (in_category (checkSecurity_category content)) in H.
    rewrite C in H. discriminate.
  - apply (in_category (checkPerformance_category content)) in H.
    rewrite C in H. discriminate.
  - apply (in_category (checkMaintainability_category content)) in H.
    rewrite C in H. discriminate.
Qed.

Lemma in_analysis_performance (file content : jsstr) (y : ReviewCode.issue) :
  ReviewCode.category_of y = ReviewCode.Performance ->
  In y (ReviewCode.fa_issues (ReviewCode.analyzeOne file content)) <->
  In y (ReviewCode.checkPerformance content).
Proof.
  intros C. rewrite in_analysis. split; [|tauto].
  intros [H|[H|[H|H]]]; [| | exact H |].
  - apply (in_category (checkCommonIssues_category content)) in H.
    rewrite C in H. destruct H as [H|[H|H]]; discriminate.
  - apply (in_category (checkSecurity_category content)) in H.
    rewrite C in H. discriminate.
  - apply (in_category (checkMaintainability_category content)) in H.
    rewrite C in H. discriminate.
Qed.

Lemma sync_issue_inj (k n : nat) (m m' : jsstr) :
  ReviewCode.sync_issue k m = ReviewCode.sync_issue n m' -> k = n /\ m = m'.
Proof.
  intros H. split.
  - apply (f_equal ReviewCode.line) in H. simpl in H. lia.
  - apply (f_equal ReviewCode.message) in H.
    unfold ReviewCode.sync_issue in H. cbn [ReviewCode.message] in H.
    apply app_inv_head in H. now apply app_inv_tail in H.
Qed.

(** X18.  A TODO/FIXME finding is reported for a line exactly when the line
    contains [TODO] or [FIXME] (in capitals, commented or not); a
    synchronous-call finding is reported for a line and a method exactly
    when the method is one of [readFileSync], [writeFileSync] and
    [existsSync], the line contains it and the trimmed line does not start
    with [//]. *)
Theorem todo_and_sync_findings (file content line : jsstr) (index : nat) :
  nth_error (split_lines content) index = Some line ->
  let found := ReviewCode.fa_issues (ReviewCode.analyzeOne file content) in
  (In (ReviewCode.todo_issue index) found <->
   includes (str "TODO") line = true \/ includes (str "FIXME") line = true) /\
  (forall method,
     In (ReviewCode.sync_issue index method) found <->
     In method ReviewCode.syncMethods /\
     includes method line = true /\
     startsWith (str "//") (trim line) = false).
Proof.
  intros Hline found. subst found. split.
  - rewrite in_analysis_todo by reflexivity. rewrite in_pushed_from. split.
    + intros (k & x & Hx & H). unfold todo_pushes in H.
      destruct (includes (str "TODO") x || includes (str "FIXME") x) eqn:E;
        [|contradiction].
      destruct H as [H|[]].
      apply (issue_line_inj ReviewCode.todo_issue) in H; [|reflexivity].
      simpl in H. subst k. rewrite Hline in Hx. injection Hx as <-.
      now apply orb_true_iff in E.
    + intros H. exists index, line. split; [exact Hline|].
      unfold todo_pushes. apply orb_true_iff in H. rewrite H. now left.
  - intros method. rewrite in_analysis_performance by reflexivity.
    rewrite checkPerformance_pushed, in_app_iff, in_pushed_from. split.
    + intros [(k & x & Hx & H)|H].
      * unfold sync_pushes in H. apply in_flat_map in H.
        destruct H as (m & Hm & H).
        destruct (includes m x) eqn:Ei; [|contradiction].
        destruct (startsWith (str "//") (trim x)) eqn:Es; [contradiction|].
        destruct H as [H|[]]. apply sync_issue_inj in H. destruct H as [Hk ->].
        simpl in Hk. subst k. rewrite Hline in Hx. injection Hx as <-.
        now repeat split.
      * exfalso.
        assert (F : Forall (fun y => y <> ReviewCode.sync_issue index method)
                           (loop_pushes 0 0 (split_lines content))).
        { apply loop_pushes_Forall. intros i E.
          apply (f_equal ReviewCode.message) in E.
          unfold ReviewCode.sync_issue, ReviewCode.nested_loop_issue in E.
          simpl in E. discriminate E. }
        rewrite Forall_forall in F. now apply (F _ H).
    + intros (Hm & Hi & Hs). left. exists index, line. split; [exact Hline|].
      unfold sync_pushes. apply in_flat_map. exists method. split; [exact Hm|].
      rewrite Hi, Hs. now left.
Qed.

Lemma todo_and_sync_findings_witness :
  In (ReviewCode.todo_issue 0)
     (ReviewCode.fa_issues (ReviewCode.analyzeOne (str "a.js") (str "// TODO: tidy up"))).
Proof.
  apply (proj1 (@todo_and_sync_findings (str "a.js") (str "// TODO: tidy up")
                  (str "// TODO: tidy up") 0 eq_refl)).
  left. reflexivity.
Defined.

Lemma findIndex_first {A : Type} (p : A -> bool) (l : list A) :
  forall k, findIndex p l = Z.of_nat k ->
            forall j x, j < k -> nth_error l j = Some x -> p x = false.
Proof.
  induction l as [|a l IH]; intros k H j x Hj Hx; [now destruct j|].
  simpl in H. destruct (p a) eqn:Ea; [lia|].
  destruct (findIndex p l <? 0)%Z eqn:E; [lia|].
  destruct k as [|k]; [lia|].
  destruct j as [|j]; simpl in Hx.
  - now injection Hx as <-.
  - apply (IH k) with (j := j); [lia | lia | exact Hx].
Qed.

Lemma checks_without_eval (P : ReviewCode.issue -> Prop) (content : jsstr) :
  (forall k, P (ReviewCode.debug_issue k)) ->
  (forall k, P (ReviewCode.todo_issue k)) ->
  (forall start m, P (long_function_finding start m)) ->
  (forall k, P (ReviewCode.secret_issue k)) ->
  (forall k method, P (ReviewCode.sync_issue k method)) ->
  (forall k, P (ReviewCode.nested_loop_issue k)) ->
  (forall k num, P (ReviewCode.magic_issue k num)) ->
  (forall k params, P (ReviewCode.params_issue k params)) ->
  Forall P (ReviewCode.checkCommonIssues content) /\
  Forall P (pushed_from secret_pushes 0 (split_lines content)) /\
  Forall P (ReviewCode.checkPerformance content) /\
  Forall P (ReviewCode.checkMaintainability content).
Proof.
  intros Pd Pt Pl Ps Py Pn Pm Pp. repeat split.
  - destruct (checkCommonIssues_span content) as (added & -> & F & _).
    repeat (apply Forall_app; split).
    + apply Forall_pushed_from. intros k x. unfold console_log_pushes.
      destruct (_ && _); repeat constructor. apply Pd.
    + apply Forall_pushed_from. intros k x. unfold todo_pushes.
      destruct (_ || _); repeat constructor. apply Pt.
    + eapply Forall_impl; [|exact F]. intros y (start & m & -> & _). apply Pl.
  - apply Forall_pushed_from. intros k x. unfold secret_pushes.
    apply Forall_flat_map_cond. intros _. apply Ps.
  - rewrite checkPerformance_pushed. apply Forall_app. split.
    + apply Forall_pushed_from. intros k x. unfold sync_pushes.
      apply (Forall_flat_map_cond _
               (fun method => includes method x && negb (startsWith (str "//") (trim x)))
               (fun method => ReviewCode.sync_issue k method)).
      intros method. apply Py.
    + now apply loop_pushes_Forall.
  - rewrite checkMaintainability_pushed. apply Forall_app. split.
    + apply Forall_pushed_from. intros k x. unfold magic_pushes.
      destruct (negb _); [|constructor].
      apply (Forall_flat_map_cond _
               (fun num => (1 <? parseInt_digits num)%Z &&
                           negb (parseInt_digits num =? 100)%Z &&
                           negb (parseInt_digits num =? 1000)%Z)
               (fun num => ReviewCode.magic_issue k num)).
      intros num. apply Pm.
    + apply Forall_pushed_from. intros k x. unfold params_pushes.
      apply (Forall_flat_map_cond _
               (fun m => 4 <? List.length (split_on "," m))
               (fun m => ReviewCode.params_issue k (List.length (split_on "," m)))).
      intros m. apply Pp.
Qed.

(** X19.  A file gets the [eval] finding exactly when its text contains [eval(];
    there is one such finding however many lines use [eval(], and it is
    anchored at the first line that contains it. *)
Theorem eval_finding_at_first_use (file content : jsstr) :
  filter is_eval_finding (ReviewCode.fa_issues (ReviewCode.analyzeOne file content)) =
    (if includes (str "eval(") content then [ReviewCode.eval_issue content] else []) /\
  (includes (str "eval(") content = true ->
   exists k l,
     ReviewCode.line (ReviewCode.eval_issue content) = (Z.of_nat k + 1)%Z /\
     nth_error (split_lines content) k = Some l /\
     includes (str "eval(") l = true /\
     forall j x, j < k -> nth_error (split_lines content) j = Some x ->
                 includes (str "eval(") x = false).
Proof.
  split.
  - destruct (@checks_without_eval (fun y => is_eval_finding y = false) content)
      as (F1 & F2 & F3 & F4); try (intros; reflexivity).
    cbn [ReviewCode.fa_issues ReviewCode.analyzeOne].
    rewrite !filter_app, checkSecurity_pushed, filter_app.
    rewrite (filter_nothing _ F1), (filter_nothing _ F2), (filter_nothing _ F3),
      (filter_nothing _ F4).
    cbn [app]. rewrite app_nil_r.
    destruct (includes (str "eval(") content); reflexivity.
  - intros E.
    assert (N : no_newline (str "eval(")).
    { repeat constructor; intros X; vm_compute in X; discriminate X. }
    pose proof (@includes_some_line _ _ N E) as Hex.
    destruct (findIndex_range (includes (str "eval(")) (split_lines content))
      as [[_ R1] R2].
    specialize (R2 Hex).
    set (r := findIndex (includes (str "eval(")) (split_lines content)) in *.
    assert (Er : r = Z.of_nat (Z.to_nat r)) by lia.
    destruct (findIndex_found _ _ _ Er) as (l & Hl & Hp).
    exists (Z.to_nat r), l. cbn [ReviewCode.line ReviewCode.eval_issue]. fold r.
    repeat split; try assumption; try lia.
    intros j x Hj Hx. exact (@findIndex_first _ _ _ _ Er j x Hj Hx).
Qed.

Lemma eval_finding_at_first_use_witness :
  exists k l,
    ReviewCode.line (ReviewCode.eval_issue (str "a = eval(b); c = eval(d)")) =
      (Z.of_nat k + 1)%Z /\
    nth_error (split_lines (str "a = eval(b); c = eval(d)")) k = Some l /\
    includes (str "eval(") l = true.
Proof.
  destruct (proj2 (eval_finding_at_first_use (str "a.js") (str "a = eval(b); c = eval(d)"))
                  eq_refl) as (k & l & H1 & H2 & H3 & _).
  exists k, l. now repeat split.
Defined.

(** ** Literal patterns find what [includes] finds *)

Lemma rmatch_literal (p : jsstr) :
  p <> [] ->
  forall c,
    (startsWith p (rest c) = false /\
     forall k, rmatch false (LitL p) c k = None) \/
    (startsWith p (rest c) = true /\
     exists c', forall k, rmatch false (LitL p) c k = k c').
Proof.
  induction p as [|a p IH]; intros Hp c; [congruence|].
  destruct p as [|b p].
  - cbn [LitL rmatch startsWith]. destruct (rest c) as [|x xs]; [left; now split|].
    unfold chr_eq. destruct (Ascii.eqb a x).
    + right. split; [reflexivity|]. now exists (step_over c x xs).
    + left. now split.
  - cbn [LitL rmatch]. cbn [startsWith].
    destruct (rest c) as [|x xs] eqn:E; [left; now split|].
    unfold chr_eq. destruct (Ascii.eqb a x); [|left; now split].
    cbn [andb].
    destruct (IH ltac:(discriminate) (step_over c x xs)) as [[S K]|[S (c' & K)]].
    + left. split; [exact S | exact K].
    + right. split; [exact S|]. exists c'. exact K.
Qed.

Lemma search_literal (p : jsstr) (s : jsstr) :
  p <> [] ->
  forall n pv,
    (match search_from false (LitL p) n pv s with Some _ => true | None => false end) =
    includes p s.
Proof.
  intros Hp. induction s as [|x xs IH]; intros n pv.
  - cbn [search_from includes].
    destruct (rmatch_literal Hp (mkCur n pv [])) as [[S K]|[S (c' & K)]];
      cbn [rest] in S; rewrite S, K; reflexivity.
  - cbn [search_from].
    change (includes p (x :: xs)) with (startsWith p (x :: xs) || includes p xs).
    destruct (rmatch_literal Hp (mkCur n pv (x :: xs))) as [[S K]|[S (c' & K)]];
      cbn [rest] in S; rewrite S, K; [apply IH | reflexivity].
Qed.

Lemma matchAll_literal (p : jsstr) (s : jsstr) :
  p <> [] ->
  (match matchAll false (LitL p) s with [] => false | _ :: _ => true end) = includes p s.
Proof.
  intros Hp. unfold matchAll. cbn [matches_from]. unfold search, start_of. cbn [pos prev rest].
  rewrite <- (search_literal s Hp 0 None).
  destruct (search_from false (LitL p) 0 None s) as [[b e]|]; reflexivity.
Qed.

(** X20.  The first implementation reports a Debug Code issue exactly when the
    text it analyses contains [console.log], inside a comment or not. *)
Theorem debug_issue_iff_console_log (fi : PerformReview.fileInfo) :
  (exists y, In y (PerformReview.issues (PerformReview.performStaticAnalysis fi)) /\
             PerformReview.type y = PerformReview.DebugCode) <->
  includes (str "console.log") (PerformReview.content fi) = true.
Proof.
  rewrite <- (@matchAll_literal (str "console.log") (PerformReview.content fi))
    by discriminate.
  cbn [PerformReview.issues PerformReview.performStaticAnalysis]. split.
  - intros (y & Hy & Ty). apply semicolon_check_issues in Hy.
    destruct Hy as [Hy| ->]; [|discriminate Ty].
    rewrite pattern_issues_flat_map in Hy. apply in_flat_map in Hy.
    destruct Hy as (rule & Hr & Hy). apply in_map_iff in Hy.
    destruct Hy as (m & <- & Hm). cbn [PerformReview.type PerformReview.match_issue] in Ty.
    unfold PerformReview.patterns in Hr. simpl in Hr.
    destruct Hr as [<-|[<-|[<-|[<-|[<-|[]]]]]]; try discriminate Ty.
    cbn [PerformReview.ignoreCase PerformReview.pattern] in Hm.
    change (Lit "console.log") with (LitL (str "console.log")) in Hm.
    now destruct (matchAll false (LitL (str "console.log")) (PerformReview.content fi)).
  - intros H.
    destruct (matchAll false (LitL (str "console.log")) (PerformReview.content fi))
      as [|m ms] eqn:E; [discriminate H|].
    exists (PerformReview.match_issue (PerformReview.content fi)
              (nth 0 PerformReview.patterns
                   (PerformReview.mkRule Eps false PerformReview.LOW
                      PerformReview.CodeStyle [])) m).
    split; [|reflexivity].
    unfold PerformReview.semicolon_check.
    assert (I : In (PerformReview.match_issue (PerformReview.content fi)
                      (nth 0 PerformReview.patterns
                           (PerformReview.mkRule Eps false PerformReview.LOW
                              PerformReview.CodeStyle [])) m)
                   (PerformReview.pattern_issues (PerformReview.content fi))).
    { rewrite pattern_issues_flat_map. apply in_flat_map.
      eexists. split; [left; reflexivity|].
      apply in_map. cbn [PerformReview.ignoreCase PerformReview.pattern].
      change (Lit "console.log") with (LitL (str "console.log")).
      rewrite E. now left. }
    unfold PerformReview.push.
    destruct (_ || _); [|exact I].
    destruct (PerformReview.gt_times_0_3 _ _); [|exact I].
    apply in_or_app. now left.
Qed.

(** ** The directory walks *)

Section EntryInduction.

Variable P : Traversal.entry -> Prop.
Hypothesis P_file : forall name, P (Traversal.FileEntry name).
Hypothesis P_other : forall name, P (Traversal.OtherEntry name).
Hypothesis P_unreadable : forall name, P (Traversal.DirEntry name None).
Hypothesis P_dir :
  forall name items, Forall P items -> P (Traversal.DirEntry name (Some items)).

(** Induction on a directory tree, with the property available for every
    entry of a listing. *)
Lemma entry_nested_ind (item : Traversal.entry) : P item.
Proof.
  revert item. fix IH 1. intros [name|name|name [items|]].
  - apply P_file.
  - apply P_other.
  - apply P_dir. induction items as [|i items IHl]; constructor.
    + apply IH.
    + exact IHl.
  - apply P_unreadable.
Qed.

End EntryInduction.

Lemma flat_map_ext_Forall {A B : Type} (f g : A -> list B) (l : list A) :
  Forall (fun x => f x = g x) l -> flat_map f l = flat_map g l.
Proof. induction 1 as [|x l H _ IH]; simpl; [reflexivity | now rewrite H, IH]. Qed.

Lemma Forall_flat_map {A B : Type} (P : B -> Prop) (f : A -> list B) (l : list A) :
  Forall (fun x => Forall P (f x)) l -> Forall P (flat_map f l).
Proof.
  induction 1 as [|x l H _ IH]; simpl; [constructor | now apply Forall_app].
Qed.

Section Walks.

Variable join : jsstr -> jsstr -> jsstr.
Variable extname : jsstr -> jsstr.

Lemma filesOfItem_source (maxDepth : nat) (item : Traversal.entry) :
  forall currentDepth dirPath,
    Forall (fun p => Traversal.isSourceFile extname p = true)
           (Traversal.filesOfItem join extname maxDepth currentDepth dirPath item).
Proof.
  induction item as [name|name|name|name items IH] using entry_nested_ind;
    intros currentDepth dirPath; cbn [Traversal.filesOfItem Traversal.entry_name];
    destruct (Traversal.skipped_name name); try constructor.
  - destruct (Traversal.isSourceFile extname (join dirPath name)) eqn:E;
      repeat constructor. exact E.
  - destruct (Traversal.isSourceFile extname (join dirPath name)) eqn:E;
      repeat constructor. exact E.
  - destruct (maxDepth <=? S currentDepth); constructor.
  - destruct (maxDepth <=? S currentDepth); [constructor|].
    apply Forall_flat_map. eapply Forall_impl; [|exact IH].
    intros i Hi. apply Hi.
Qed.

Lemma filesOfItem_cut (maxDepth : nat) (item : Traversal.entry) :
  forall currentDepth dirPath,
    Traversal.filesOfItem join extname maxDepth currentDepth dirPath
      (Traversal.cut (maxDepth - S currentDepth) item) =
    Traversal.filesOfItem join extname maxDepth currentDepth dirPath item.
Proof.
  induction item as [name|name|name|name items IH] using entry_nested_ind;
    intros currentDepth dirPath; try reflexivity;
    cbn [Traversal.cut Traversal.filesOfItem Traversal.entry_name];
    destruct (Traversal.skipped_name name); try reflexivity;
    destruct (maxDepth <=? S currentDepth) eqn:E; try reflexivity;
    apply Nat.leb_gt in E;
    destruct (maxDepth - S currentDepth) as [|n] eqn:En; try lia;
    try reflexivity.
  cbn [option_map]. rewrite flat_map_concat_map, map_map, <- flat_map_concat_map.
  apply flat_map_ext_Forall. eapply Forall_impl; [|exact IH].
  intros i Hi. replace n with (maxDepth - S (S currentDepth)) by lia. apply Hi.
Qed.

Lemma filesOfItem_visible (maxDepth : nat) (item : Traversal.entry) :
  forall currentDepth dirPath,
    Traversal.filesOfItem join extname maxDepth currentDepth dirPath
      (Traversal.visible item) =
    Traversal.filesOfItem join extname maxDepth currentDepth dirPath item.
Proof.
  induction item as [name|name|name|name items IH] using entry_nested_ind;
    intros currentDepth dirPath; try reflexivity.
  cbn [Traversal.visible Traversal.filesOfItem Traversal.entry_name option_map].
  destruct (Traversal.skipped_name name); [reflexivity|].
  destruct (maxDepth <=? S currentDepth); [reflexivity|].
  generalize (join dirPath name). intros d.
  induction IH as [|i items Hi _ IHl]; [reflexivity|].
  cbn [flat_map]. rewrite <- IHl.
  destruct (Traversal.skipped_name (Traversal.entry_name i)) eqn:E.
  - assert (Z : Traversal.filesOfItem join extname maxDepth (S currentDepth) d i = []).
    { destruct i; cbn [Traversal.filesOfItem Traversal.entry_name] in *; now rewrite E. }
    now rewrite Z.
  - cbn [flat_map]. now rewrite Hi.
Qed.

Lemma visible_items_flat_map (maxDepth currentDepth : nat) (dirPath : jsstr)
      (items : list Traversal.entry) :
  flat_map (Traversal.filesOfItem join extname maxDepth currentDepth dirPath)
           (Traversal.visible_items items) =
  flat_map (Traversal.filesOfItem join extname maxDepth currentDepth dirPath) items.
Proof.
  induction items as [|i items IH]; [reflexivity|].
  cbn [Traversal.visible_items flat_map]. rewrite <- IH.
  destruct (Traversal.skipped_name (Traversal.entry_name i)) eqn:E.
  - assert (Z : Traversal.filesOfItem join extname maxDepth currentDepth dirPath i = []).
    { destruct i; cbn [Traversal.filesOfItem Traversal.entry_name] in *; now rewrite E. }
    now rewrite Z.
  - cbn [flat_map]. now rewrite filesOfItem_visible.
Qed.

(** X21.  The first walk returns source files only; it returns the same files
    when the entries whose name starts with a dot or is [node_modules] are
    removed at every level, and the same files when every directory beyond
    the depth limit is unreadable: nothing is taken from below the limit, and
    a directory that cannot be read counts as empty. *)
Theorem getFilesInDirectory_scope
        (dirPath : jsstr) (items : list Traversal.entry) (maxDepth currentDepth : nat) :
  Forall (fun p => Traversal.isSourceFile extname p = true)
         (Traversal.getFilesInDirectory join extname dirPath (Some items)
                                        maxDepth currentDepth) /\
  Traversal.getFilesInDirectory join extname dirPath
    (Some (Traversal.visible_items items)) maxDepth currentDepth =
  Traversal.getFilesInDirectory join extname dirPath (Some items) maxDepth currentDepth /\
  Traversal.getFilesInDirectory join extname dirPath
    (Some (map (Traversal.cut (maxDepth - S currentDepth)) items)) maxDepth currentDepth =
  Traversal.getFilesInDirectory join extname dirPath (Some items) maxDepth currentDepth /\
  Traversal.getFilesInDirectory join extname dirPath None maxDepth currentDepth = [].
Proof.
  unfold Traversal.getFilesInDirectory.
  destruct (maxDepth <=? currentDepth) eqn:E.
  - repeat split; constructor.
  - apply Nat.leb_gt in E. repeat split.
    + apply Forall_flat_map. apply Forall_forall. intros i _.
      apply filesOfItem_source.
    + apply visible_items_flat_map.
    + rewrite flat_map_concat_map, map_map, <- flat_map_concat_map.
      apply flat_map_ext_Forall. apply Forall_forall. intros i _.
      apply filesOfItem_cut.
Qed.

Lemma walkItem_walked (exclude : list jsstr) (item : Traversal.entry) :
  forall dir,
    Traversal.walkItem join exclude dir (Traversal.walked exclude item) =
    Traversal.walkItem join exclude dir item.
Proof.
  induction item as [name|name|name|name items IH] using entry_nested_ind;
    intros dir; try reflexivity;
    cbn [Traversal.walked Traversal.walkItem Traversal.entry_name];
    destruct (Traversal.entered exclude name); try reflexivity.
  cbn [option_map]. rewrite flat_map_concat_map, map_map, <- flat_map_concat_map.
  apply flat_map_ext_Forall. eapply Forall_impl; [|exact IH].
  intros i Hi. apply Hi.
Qed.

(** X22.  The second walk keeps every file it meets, hidden ones too, and
    [getCodeFiles] keeps those that end in a code extension; the directories
    named in the exclusion list or starting with a dot are not read, whatever
    they contain, and there is no depth limit. *)
Theorem getCodeFiles_scope (entries : list Traversal.entry) :
  Forall (fun p => Traversal.has_code_extension p = true)
         (Traversal.getCodeFiles join (Some entries)) /\
  Traversal.getCodeFiles join
    (Some (map (Traversal.walked Traversal.excludeDirs) entries)) =
  Traversal.getCodeFiles join (Some entries) /\
  (forall name,
     Traversal.walkDirectory join (str ".")
       (Some (entries ++ [Traversal.FileEntry name])) Traversal.excludeDirs =
     Traversal.walkDirectory join (str ".") (Some entries) Traversal.excludeDirs ++
     [join (str ".") name]) /\
  Traversal.getCodeFiles join None = [].
Proof.
  unfold Traversal.getCodeFiles, Traversal.walkDirectory. repeat split.
  - apply Forall_forall. intros p Hp. now apply filter_In in Hp.
  - f_equal. rewrite flat_map_concat_map, map_map, <- flat_map_concat_map.
    apply flat_map_ext_Forall. apply Forall_forall. intros i _.
    apply walkItem_walked.
  - intros name. now rewrite flat_map_app.
Qed.

End Walks.

(** ** Magic numbers *)

Lemma derives_cls_ahead (ci : bool) (p : ascii -> bool) (c c' : cursor) :
  derives ci (Cls p) c c' -> exists x, ahead [x] c c' /\ p x = true.
Proof.
  intros D. inversion D as [| | ? ? x xs Hr Hp | | | | | | |]; subst.
  exists x. split; [|exact Hp]. split; simpl; [exact Hr | lia].
Qed.

Lemma derives_star_cls_ahead (ci : bool) (p : ascii -> bool) (c c' : cursor) :
  derives ci (Star (Cls p)) c c' -> exists w, ahead w c c' /\ forallb p w = true.
Proof.
  intros D. remember (Star (Cls p)) as r eqn:Er.
  induction D as [| | | | | | | | r0 c0 | r0 c0 c1 c2 D1 _ Hne D2 IH2]; try discriminate Er.
  - exists []. split; [|reflexivity]. split; simpl; [reflexivity | lia].
  - injection Er as ->. destruct (derives_cls_ahead D1) as (x & A1 & Hx).
    destruct (IH2 eq_refl) as (w & A2 & Hw).
    exists ([x] ++ w). split; [now apply (ahead_trans A1)|].
    simpl. now rewrite Hx, Hw.
Qed.

(** What [magicRegex] matches is a run of at least two digits. *)
Lemma magicRegex_matches_digits (b e : cursor) :
  derives false ReviewCode.magicRegex b e ->
  2 <= List.length (matched (b, e)) /\ forallb is_digit (matched (b, e)) = true.
Proof.
  intros D. cbv [ReviewCode.magicRegex SeqL Plus digit] in D.
  inversion D as [| | | | | ? ? ? c1 ? D1 D2 | | | |]; subst; clear D.
  inversion D1; subst. clear D1.
  inversion D2 as [| | | | | ? ? ? c2 ? D3 D4 | | | |]; subst; clear D2.
  inversion D4 as [| | | | | ? ? ? c3 ? D5 D6 | | | |]; subst; clear D4.
  inversion D6; subst. clear D6.
  inversion D5 as [| | | | | ? ? ? c4 ? D7 D8 | | | |]; subst; clear D5.
  destruct (derives_cls_ahead D3) as (x & A1 & Hx).
  destruct (derives_cls_ahead D7) as (y & A2 & Hy).
  destruct (derives_star_cls_ahead D8) as (w & A3 & Hw).
  pose proof (ahead_trans A1 (ahead_trans A2 A3)) as A.
  rewrite (ahead_matched A). simpl. rewrite Hx, Hy, Hw. split; [lia | reflexivity].
Qed.

(** X23.  A magic-number finding quotes a run of at least two digits found on its
    line, whose value is above 1 and is neither 100 nor 1000, on a line
    whose trimmed text does not start with [//]. *)
Theorem magic_number_findings (file content num : jsstr) (index : nat) :
  In (ReviewCode.magic_issue index num)
     (ReviewCode.fa_issues (ReviewCode.analyzeOne file content)) ->
  2 <= List.length num /\
  forallb is_digit num = true /\
  (1 < parseInt_digits num)%Z /\
  parseInt_digits num <> 100%Z /\
  parseInt_digits num <> 1000%Z /\
  exists line,
    nth_error (split_lines content) index = Some line /\
    In num (match_g false ReviewCode.magicRegex line) /\
    startsWith (str "//") (trim line) = false.
Proof.
  rewrite in_analysis_maintainability by reflexivity.
  rewrite checkMaintainability_pushed, in_app_iff, !in_pushed_from.
  intros [(k & x & Hx & H)|(k & x & Hx & H)].
  - unfold magic_pushes in H.
    destruct (startsWith (str "//") (trim x)) eqn:Es; [contradiction|].
    cbn [negb] in H. apply in_flat_map in H. destruct H as (n & Hn & H).
    destruct (_ && _) eqn:C; [|contradiction]. destruct H as [H|[]].
    assert (Ek : k = index)
      by (apply (f_equal ReviewCode.line) in H; simpl in H; lia).
    assert (En : n = num).
    { apply (f_equal ReviewCode.message) in H.
      unfold ReviewCode.magic_issue in H. cbn [ReviewCode.message] in H.
      apply app_inv_head in H. now apply app_inv_tail in H. }
    subst k n. simpl in Hx.
    apply andb_true_iff in C. destruct C as [C C3].
    apply andb_true_iff in C. destruct C as [C1 C2].
    apply Z.ltb_lt in C1. apply negb_true_iff, Z.eqb_neq in C2, C3.
    pose proof Hn as Hm. unfold match_g in Hm. apply in_map_iff in Hm.
    destruct Hm as ([b e] & <- & Hm). unfold matchAll in Hm.
    apply matches_from_sound in Hm. destruct Hm as [_ D].
    apply magicRegex_matches_digits in D. destruct D as [L F].
    repeat split; try assumption. exists x. now repeat split.
  - exfalso. unfold params_pushes in H. apply in_flat_map in H.
    destruct H as (m & _ & H). destruct (4 <? _); [|contradiction].
    destruct H as [H|[]]. apply (f_equal ReviewCode.message) in H.
    unfold ReviewCode.params_issue, ReviewCode.magic_issue in H. simpl in H.
    discriminate H.
Qed.

Lemma magic_number_findings_witness :
  2 <= List.length (str "4200") /\ (1 < parseInt_digits (str "4200"))%Z.
Proof.
  destruct (@magic_number_findings (str "a.js") (str "const limit = 4200;")
              (str "4200") 0) as (H1 & _ & H2 & _).
  - vm_compute. now left.
  - now split.
Defined.
